(** * The virtual file system and the window manager of the desktop shell

    A shallow embedding of the metadata store ([useFilesStore]), of the
    file-system facade built on it ([useFileSystem]) and of the instance
    store ([useAppStore]), followed by the properties of the specification
    that concern them.

    Conventions of the embedding:
    - a JavaScript object used as a map is an association list in the
      order [Object.keys] enumerates it: insertion order for path keys,
      ascending numeric order for the instance ids that are array
      indices and insertion order after them for the larger ones;
    - a number that holds an integer is a [nat] or a [Z]; where the code
      computes an id, the rounding of a double is written out
      ([Js.toNumber]);
    - an optional property is an [option]; [None] is [undefined];
    - [Date.now()] and [uuidv4()] are read from explicit arguments;
    - a store action is a function from the state before to the state
      after, paired with the value it returns when it returns one. *)

From Stdlib Require Import List String Ascii Arith Bool NArith ZArith Lia.
From Stdlib Require DecimalString DecimalNat.
Import ListNotations.
Local Open Scope string_scope.

(* ================================================================== *)
(** * Part I: the embedding *)
(* ================================================================== *)

(** ** JavaScript strings *)

Module Js.

(** [s.startsWith(p)] *)
Definition startsWith (s p : string) : bool := String.prefix p s.

(** [s.substring(n)] for [0 <= n]: drop the first [n] characters. *)
Fixpoint substringFrom (n : nat) (s : string) : string :=
  match n, s with
  | O, _ => s
  | S _, EmptyString => EmptyString
  | S n', String _ r => substringFrom n' r
  end.

(** [s.slice(0, -k)] for [0 < k]: all but the last [k] characters. *)
Definition sliceEnd (k : nat) (s : string) : string :=
  String.substring 0 (String.length s - k) s.

(** [s.split(sep)] for a one-character separator; never empty. *)
Fixpoint split (sep : ascii) (s : string) : list string :=
  match s with
  | EmptyString => [EmptyString]
  | String c r =>
      if Ascii.eqb c sep then EmptyString :: split sep r
      else match split sep r with
           | h :: t => String c h :: t
           | [] => [String c EmptyString]
           end
  end.

(** [xs.pop()] on a fresh array: its last element, [undefined] if none. *)
Definition pop (xs : list string) : option string :=
  match List.rev xs with
  | [] => None
  | x :: _ => Some x
  end.

(** [s.includes(c)] for a one-character needle. *)
Fixpoint includes (c : ascii) (s : string) : bool :=
  match s with
  | EmptyString => false
  | String c' r => Ascii.eqb c' c || includes c r
  end.

(** Truthiness of a string, and [.filter(Boolean)] on strings. *)
Definition truthy (s : string) : bool := negb (String.eqb s "").

(** [n.toString()] for a non-negative integer. *)
Definition toString (n : nat) : string :=
  DecimalString.NilEmpty.string_of_uint (Nat.to_uint n).

(** [a || b] on optional strings: [undefined] and [""] are falsy. *)
Definition orStr (a b : option string) : option string :=
  match a with
  | Some s => if truthy s then a else b
  | None => b
  end.

(** [a || b] on optional numbers: [undefined] and [0] are falsy. *)
Definition orNum (a b : option Z) : option Z :=
  match a with
  | Some z => if Z.eqb z 0 then b else a
  | None => b
  end.

(** [a ?? b]: only [undefined] falls through. *)
Definition nullish {A : Type} (a b : option A) : option A :=
  match a with
  | Some _ => a
  | None => b
  end.

(** [s.toLowerCase()], on the letters of ASCII; the characters outside
    ASCII are left as they are, and none of them turns into a letter
    that the callers below look at. *)
Definition lowerChar (c : ascii) : ascii :=
  let n := nat_of_ascii c in
  if Nat.leb 65 n && Nat.leb n 90 then ascii_of_nat (n + 32) else c.

Fixpoint toLowerCase (s : string) : string :=
  match s with
  | EmptyString => EmptyString
  | String c r => String (lowerChar c) (toLowerCase r)
  end.

(** [s.trim() === ""], on the white space of ASCII: tab, line feed,
    vertical tab, form feed, carriage return and space. *)
Definition isWhiteSpace (c : ascii) : bool :=
  let n := nat_of_ascii c in
  (Nat.leb 9 n && Nat.leb n 13) || Nat.eqb n 32.

Fixpoint isBlank (s : string) : bool :=
  match s with
  | EmptyString => true
  | String c r => isWhiteSpace c && isBlank r
  end.

(** The double nearest to a non-negative integer, ties going to the
    even significand.  An integer of at most 53 bits is a double; of a
    longer one the bits after the 53rd are rounded away. *)
Definition roundToDouble (m : N) : N :=
  let e := N.log2 m in
  if N.ltb e 53 then m
  else
    let k := N.sub e 52 in
    let q := N.shiftr m k in
    let r := N.land m (N.ones k) in
    let half := N.shiftl 1 (N.sub k 1) in
    N.shiftl
      (if N.ltb half r || (N.eqb r half && N.odd q) then N.add q 1 else q)
      k.

(** The number that JavaScript holds for the integer [n]: the value of
    [parseInt] on the decimal digits of [n], and of a sum of integers
    that is [n] when computed exactly. *)
Definition toNumber (n : nat) : nat := N.to_nat (roundToDouble (N.of_nat n)).

Arguments toNumber : simpl never.

(** [Number.isSafeInteger(n)]: below 2^53 *)
Definition isSafeInteger (n : nat) : bool :=
  N.ltb (N.of_nat n) 9007199254740992.


End Js.

(** ** JavaScript objects used as maps

    [Object.keys] enumerates the keys that are array indices (the
    decimal forms of the integers below 2^32 - 1) first, in ascending
    order, and then every other key in insertion order.  The two stores
    use one kind of key each: absolute paths (never integer-like) and
    instance ids (always the decimal form of a counter).  [before]
    decides where a key that is not yet present goes: nowhere before
    another one for paths; for an instance id that is an array index,
    before the larger indices and before every id that is none. *)

Section JsObject.

Variables (K V : Type).
Variable eqb : K -> K -> bool.
Variable before : K -> K -> bool.

(** [o[k]] *)
Fixpoint obj_get (k : K) (o : list (K * V)) : option V :=
  match o with
  | [] => None
  | (k', v) :: r => if eqb k k' then Some v else obj_get k r
  end.

(** [o[k] = v] when [o] has the key [k]: the property keeps its place. *)
Fixpoint obj_replace (k : K) (v : V) (o : list (K * V)) : list (K * V) :=
  match o with
  | [] => []
  | (k', v') :: r =>
      if eqb k k' then (k, v) :: r else (k', v') :: obj_replace k v r
  end.

(** [o[k] = v] when [o] does not have the key [k]: a new property. *)
Fixpoint obj_insert (k : K) (v : V) (o : list (K * V)) : list (K * V) :=
  match o with
  | [] => [(k, v)]
  | (k', v') :: r =>
      if before k k' then (k, v) :: (k', v') :: r
      else (k', v') :: obj_insert k v r
  end.

(** [o[k] = v] *)
Definition obj_set (k : K) (v : V) (o : list (K * V)) : list (K * V) :=
  match obj_get k o with
  | Some _ => obj_replace k v o
  | None => obj_insert k v o
  end.

(** [delete o[k]] *)
Fixpoint obj_delete (k : K) (o : list (K * V)) : list (K * V) :=
  match o with
  | [] => []
  | (k', v') :: r =>
      if eqb k k' then obj_delete k r else (k', v') :: obj_delete k r
  end.

(** [Object.keys(o)] and [Object.values(o)] *)
Definition obj_keys (o : list (K * V)) : list K := map fst o.
Definition obj_values (o : list (K * V)) : list V := map snd o.

End JsObject.

Arguments obj_get {K V} eqb k o.
Arguments obj_replace {K V} eqb k v o.
Arguments obj_insert {K V} before k v o.
Arguments obj_set {K V} eqb before k v o.
Arguments obj_delete {K V} eqb k o.
Arguments obj_keys {K V} o.
Arguments obj_values {K V} o.

(** ** The metadata store: [useFilesStore] *)

Module FilesStore.

Inductive Status := active | trashed.

Inductive AliasType := aliasFile | aliasApp.

Inductive LibraryState := uninitialized | loaded | cleared.

(** [interface FileSystemItem] *)
Record FileSystemItem := mkItem {
  path : string;
  name : string;
  isDirectory : bool;
  icon : option string;
  type : option string;
  appId : option string;
  uuid : option string;
  size : option Z;
  createdAt : option Z;
  modifiedAt : option Z;
  status : Status;
  originalPath : option string;
  deletedAt : option Z;
  shareId : option string;
  createdBy : option string;
  storeCreatedAt : option Z;
  windowWidth : option Z;
  windowHeight : option Z;
  aliasTarget : option string;
  aliasType : option AliasType;
  hiddenOnThemes : option (list string)
}.

(** A property of an argument object, as a spread sees it: a spread
    copies a property that is present even when its value is
    [undefined], and leaves the target alone when it is absent. *)
Inductive Prop3 (A : Type) := Absent | Undefined | Present (a : A).
Arguments Absent {A}.
Arguments Undefined {A}.
Arguments Present {A} a.

(** Reading [o.f] *)
Definition read {A : Type} (p : Prop3 A) : option A :=
  match p with
  | Present a => Some a
  | _ => None
  end.

(** The property [f] of [{...old, ...new}] *)
Definition spread {A : Type} (new : Prop3 A) (old : option A) : option A :=
  match new with
  | Absent => old
  | Undefined => None
  | Present a => Some a
  end.

(** [Omit<FileSystemItem, "status">], the argument of [addItem] *)
Record ItemData := mkItemData {
  d_path : string;
  d_name : string;
  d_isDirectory : bool;
  d_icon : Prop3 string;
  d_type : Prop3 string;
  d_appId : Prop3 string;
  d_uuid : Prop3 string;
  d_size : Prop3 Z;
  d_createdAt : Prop3 Z;
  d_modifiedAt : Prop3 Z;
  d_originalPath : Prop3 string;
  d_deletedAt : Prop3 Z;
  d_shareId : Prop3 string;
  d_createdBy : Prop3 string;
  d_storeCreatedAt : Prop3 Z;
  d_windowWidth : Prop3 Z;
  d_windowHeight : Prop3 Z;
  d_aliasTarget : Prop3 string;
  d_aliasType : Prop3 AliasType;
  d_hiddenOnThemes : Prop3 (list string)
}.

(** [items: Record<string, FileSystemItem>], keyed by path *)
Definition Items := list (string * FileSystemItem).

Definition get (k : string) (o : Items) : option FileSystemItem :=
  obj_get String.eqb k o.
Definition set (k : string) (v : FileSystemItem) (o : Items) : Items :=
  obj_set String.eqb (fun _ _ => false) k v o.
Definition delete (k : string) (o : Items) : Items :=
  obj_delete String.eqb k o.

(** The data part of [FilesStoreState] *)
Record FilesStoreState := mkStore {
  items : Items;
  libraryState : LibraryState
}.

Definition status_eqb (a b : Status) : bool :=
  match a, b with
  | active, active | trashed, trashed => true
  | _, _ => false
  end.

(** [{...it, path, name, icon, status, originalPath, deletedAt}] *)
Definition withFields (it : FileSystemItem) (path' name' : string)
    (icon' : option string) (status' : Status)
    (originalPath' : option string) (deletedAt' : option Z)
    : FileSystemItem :=
  mkItem path' name' (isDirectory it) icon' (type it) (appId it) (uuid it)
    (size it) (createdAt it) (modifiedAt it) status' originalPath' deletedAt'
    (shareId it) (createdBy it) (storeCreatedAt it) (windowWidth it)
    (windowHeight it) (aliasTarget it) (aliasType it) (hiddenOnThemes it).

(** [{...it, icon}] *)
Definition withIcon (ic : option string) (it : FileSystemItem)
    : FileSystemItem :=
  withFields it (path it) (name it) ic (status it) (originalPath it)
    (deletedAt it).

(** [{...it, status: "trashed", originalPath: p, deletedAt}] *)
Definition markTrashed (p : string) (at_ : Z) (it : FileSystemItem)
    : FileSystemItem :=
  withFields it (path it) (name it) (icon it) trashed (Some p) (Some at_).

(** [{...it, status: "active", originalPath: undefined, deletedAt: undefined}] *)
Definition markActive (it : FileSystemItem) : FileSystemItem :=
  withFields it (path it) (name it) (icon it) active None None.

(** [{...it, path}] *)
Definition withPath (p : string) (it : FileSystemItem) : FileSystemItem :=
  withFields it p (name it) (icon it) (status it) (originalPath it)
    (deletedAt it).

(** [getParentPath] *)
Definition getParentPath (p : string) : string :=
  if String.eqb p "/" then "/"
  else
    let parts := filter Js.truthy (Js.split "/"%char p) in
    if Nat.leb (List.length parts) 1 then "/"
    else "/" ++ String.concat "/" (removelast parts).

(** The test guarding [addItem]: the parent is not the root and is
    missing, not a directory, or trashed. *)
Definition parentUnusable (o : Items) (parentPath : string) : bool :=
  negb (String.eqb parentPath "/") &&
  match get parentPath o with
  | None => true
  | Some par => negb (isDirectory par) || status_eqb (status par) trashed
  end.

(** [newItem] of [addItem] *)
Definition newItemOf (now : Z) (fresh : string) (d : ItemData)
    : FileSystemItem :=
  mkItem (d_path d) (d_name d) (d_isDirectory d)
    (read (d_icon d)) (read (d_type d)) (read (d_appId d))
    (Js.orStr (read (d_uuid d))
       (if d_isDirectory d then None else Some fresh))
    (read (d_size d))
    (Js.orNum (read (d_createdAt d)) (Some now))
    (Js.orNum (read (d_modifiedAt d)) (Some now))
    active
    (read (d_originalPath d)) (read (d_deletedAt d))
    (read (d_shareId d)) (read (d_createdBy d)) (read (d_storeCreatedAt d))
    (read (d_windowWidth d)) (read (d_windowHeight d))
    (read (d_aliasTarget d)) (read (d_aliasType d))
    (read (d_hiddenOnThemes d)).

(** [updatedItem] of [addItem]: [{...existingItem, ...newItem, uuid, ...}] *)
Definition mergeItem (now : Z) (d : ItemData)
    (existingItem newItem : FileSystemItem) : FileSystemItem :=
  mkItem (path newItem) (name newItem) (isDirectory newItem)
    (spread (d_icon d) (icon existingItem))
    (spread (d_type d) (type existingItem))
    (spread (d_appId d) (appId existingItem))
    (Js.orStr (uuid existingItem) (uuid newItem))
    (spread (d_size d) (size existingItem))
    (Js.orNum (createdAt existingItem) (createdAt newItem))
    (Js.orNum (modifiedAt newItem) (Some now))
    active
    (spread (d_originalPath d) (originalPath existingItem))
    (spread (d_deletedAt d) (deletedAt existingItem))
    (Js.nullish (shareId newItem) (shareId existingItem))
    (Js.nullish (createdBy newItem) (createdBy existingItem))
    (Js.nullish (storeCreatedAt newItem) (storeCreatedAt existingItem))
    (spread (d_windowWidth d) (windowWidth existingItem))
    (spread (d_windowHeight d) (windowHeight existingItem))
    (spread (d_aliasTarget d) (aliasTarget existingItem))
    (spread (d_aliasType d) (aliasType existingItem))
    (spread (d_hiddenOnThemes d) (hiddenOnThemes existingItem)).

Definition trashFull : string := "/icons/trash-full.png".
Definition trashEmpty : string := "/icons/trash-empty.png".

(** [addItem(itemData)]; [now] is [Date.now()], [fresh] is [uuidv4()].
    Where the icon of ["/Trash"] is set the test on the parent has just
    found an item there. *)
Definition addItem (now : Z) (fresh : string) (itemData : ItemData)
    (state : FilesStoreState) : FilesStoreState :=
  let newItem := newItemOf now fresh itemData in
  let parentPath := getParentPath (path newItem) in
  if parentUnusable (items state) parentPath then state
  else
    match get (path newItem) (items state) with
    | Some existingItem =>
        mkStore
          (set (path newItem) (mergeItem now itemData existingItem newItem)
             (items state))
          loaded
    | None =>
        let updatedItems := set (path newItem) newItem (items state) in
        let updatedItems :=
          match get "/Trash" (items state) with
          | Some tr =>
              if String.eqb parentPath "/Trash" &&
                 negb (match icon tr with
                       | Some ic => String.eqb ic trashFull
                       | None => false
                       end)
              then set "/Trash" (withIcon (Some trashFull) tr) updatedItems
              else updatedItems
          | None => updatedItems
          end in
        mkStore updatedItems loaded
    end.

(** [Object.values(newItems).every((item) => item.status !== "trashed")] *)
Definition trashIsEmpty (o : Items) : bool :=
  forallb (fun it => negb (status_eqb (status it) trashed)) (obj_values o).

(** The block "Update trash icon state" of [removeItem] and [restoreItem] *)
Definition updateTrashIcon (newItems : Items) : Items :=
  match get "/Trash" newItems with
  | Some tr =>
      set "/Trash"
        (withIcon (Some (if trashIsEmpty newItems then trashEmpty
                         else trashFull)) tr)
        newItems
  | None => newItems
  end.

(** The paths [removeItem] works on: the path itself and, for a
    directory, every key that starts with [path + "/"]. *)
Definition itemsToDelete (o : Items) (p : string) (it : FileSystemItem)
    : list string :=
  p :: (if isDirectory it
        then filter (fun itemPath => Js.startsWith itemPath (p ++ "/"))
               (obj_keys o)
        else []).

(** One round of [itemsToDelete.forEach] in [removeItem]; [now p] is the
    value of [Date.now()] read while [p] is being stamped. *)
Definition removeOne (isPermanentDelete : bool) (now : string -> Z)
    (newItems : Items) (p : string) : Items :=
  match get p newItems with
  | None => newItems
  | Some currentItem =>
      if isPermanentDelete then delete p newItems
      else if status_eqb (status currentItem) active
           then set p (markTrashed p (now p) currentItem) newItems
           else newItems
  end.

(** [deletedContentPaths] of [removeItem]: collected in a local array
    that the function never hands to anyone. *)
Definition deletedContentPaths (isPermanentDelete : bool) (o : Items)
    (ps : list string) : list string :=
  if isPermanentDelete
  then filter (fun p => match get p o with
                        | Some cur => negb (isDirectory cur)
                        | None => false
                        end) ps
  else [].

(** [removeItem(path, permanent)].  The action is declared
    [(path, permanent?) => void] and its body has no [return]: the caller
    receives [undefined], which is [None] in the second component. *)
Definition removeItem (p : string) (permanent : bool) (now : string -> Z)
    (state : FilesStoreState) : FilesStoreState * option (list string) :=
  match get p (items state) with
  | None => (state, None)
  | Some itemToRemove =>
      let isPermanentDelete :=
        permanent || status_eqb (status itemToRemove) trashed in
      let newItems :=
        fold_left (removeOne isPermanentDelete now)
          (itemsToDelete (items state) p itemToRemove) (items state) in
      (mkStore (updateTrashIcon newItems) (libraryState state), None)
  end.

(** The paths [restoreItem] works on. *)
Definition itemsToRestore (o : Items) (p : string) (it : FileSystemItem)
    : list string :=
  p :: (if isDirectory it
        then filter
               (fun itemPath =>
                  Js.startsWith itemPath (p ++ "/") &&
                  match get itemPath o with
                  | Some c => status_eqb (status c) trashed
                  | None => false
                  end)
               (obj_keys o)
        else []).

Definition restoreOne (newItems : Items) (p : string) : Items :=
  match get p newItems with
  | Some currentItem =>
      if status_eqb (status currentItem) trashed
      then set p (markActive currentItem) newItems
      else newItems
  | None => newItems
  end.

(** [restoreItem(path)] *)
Definition restoreItem (p : string) (state : FilesStoreState)
    : FilesStoreState :=
  match get p (items state) with
  | None => state
  | Some itemToRestore =>
      if negb (status_eqb (status itemToRestore) trashed) then state
      else
        let newItems :=
          fold_left restoreOne (itemsToRestore (items state) p itemToRestore)
            (items state) in
        mkStore (updateTrashIcon newItems) (libraryState state)
  end.

(** One round of [Object.keys(state.items).forEach] in [renameItem];
    [stateItems] is [state.items], which the loop reads while it writes
    [newItems]. *)
Definition renameChild (stateItems : Items) (oldPath newPath : string)
    (newItems : Items) (itemPath : string) : Items :=
  if Js.startsWith itemPath (oldPath ++ "/") then
    let relativePath := Js.substringFrom (String.length oldPath) itemPath in
    let childNewPath := newPath ++ relativePath in
    match get itemPath stateItems with
    | Some childItem =>
        let updatedOriginalPath :=
          if status_eqb (status childItem) trashed then Some childNewPath
          else None in
        set childNewPath
          (withFields childItem childNewPath (name childItem) (icon childItem)
             (status childItem) updatedOriginalPath (deletedAt childItem))
          (delete itemPath newItems)
    | None => newItems
    end
  else newItems.

(** [renameItem(oldPath, newPath, newName)] *)
Definition renameItem (oldPath newPath newName : string)
    (state : FilesStoreState) : FilesStoreState :=
  match get oldPath (items state) with
  | None => state
  | Some itemToRename =>
      if negb (status_eqb (status itemToRename) active) then state
      else
        match get newPath (items state) with
        | Some _ => state
        | None =>
            let newItems := delete oldPath (items state) in
            let updatedItem :=
              withFields itemToRename newPath newName (icon itemToRename)
                (status itemToRename) (originalPath itemToRename)
                (deletedAt itemToRename) in
            let newItems := set newPath updatedItem newItems in
            let newItems :=
              if isDirectory itemToRename
              then fold_left (renameChild (items state) oldPath newPath)
                     (obj_keys (items state)) newItems
              else newItems in
            mkStore newItems (libraryState state)
        end
  end.

(** One round of [Object.keys(state.items).forEach] in [moveItem] *)
Definition moveChild (stateItems : Items) (sourcePath destinationPath : string)
    (newItems : Items) (itemPath : string) : Items :=
  if Js.startsWith itemPath (sourcePath ++ "/") then
    let relativePath :=
      Js.substringFrom (String.length sourcePath) itemPath in
    let childNewPath := destinationPath ++ relativePath in
    match get itemPath stateItems with
    | Some childItem =>
        set childNewPath (withPath childNewPath childItem)
          (delete itemPath newItems)
    | None => newItems
    end
  else newItems.

(** The four tests of [moveItem] that end in [return state] *)
Definition moveRefused (o : Items) (sourcePath destinationPath : string)
    : bool :=
  match get sourcePath o with
  | None => true
  | Some sourceItem =>
      negb (status_eqb (status sourceItem) active) ||
      match get (getParentPath destinationPath) o with
      | None => true
      | Some par => negb (isDirectory par)
      end ||
      match get destinationPath o with
      | Some _ => true
      | None => false
      end ||
      (isDirectory sourceItem &&
       Js.startsWith destinationPath (sourcePath ++ "/"))
  end.

(** [moveItem(sourcePath, destinationPath)]: the state after and the
    boolean [success]. *)
Definition moveItem (sourcePath destinationPath : string)
    (state : FilesStoreState) : FilesStoreState * bool :=
  match get sourcePath (items state) with
  | None => (state, false)
  | Some sourceItem =>
      if negb (status_eqb (status sourceItem) active) then (state, false)
      else
        match get (getParentPath destinationPath) (items state) with
        | None => (state, false)
        | Some destinationParent =>
            if negb (isDirectory destinationParent) then (state, false)
            else
              match get destinationPath (items state) with
              | Some _ => (state, false)
              | None =>
                  if isDirectory sourceItem &&
                     Js.startsWith destinationPath (sourcePath ++ "/")
                  then (state, false)
                  else
                    let newItems := delete sourcePath (items state) in
                    let movedItem := withPath destinationPath sourceItem in
                    let newItems := set destinationPath movedItem newItems in
                    let newItems :=
                      if isDirectory sourceItem
                      then fold_left
                             (moveChild (items state) sourcePath
                                destinationPath)
                             (obj_keys (items state)) newItems
                      else newItems in
                    (mkStore newItems (libraryState state), true)
              end
        end
  end.

(** [getItem(path)] *)
Definition getItem (p : string) (state : FilesStoreState)
    : option FileSystemItem :=
  get p (items state).

(** [isActiveAtPath] of [createAlias] *)
Definition isActiveAtPath (newItems : Items) (p : string) : bool :=
  match get p newItems with
  | Some existing => status_eqb (status existing) active
  | None => false
  end.

(** [ext] and [baseName] in the loop body of [createAlias] *)
Definition aliasExt (name : string) : string :=
  if Js.includes "."%char name
  then "." ++ match Js.pop (Js.split "."%char name) with
              | Some e => e
              | None => ""
              end
  else "".

Definition aliasBaseName (name : string) : string :=
  let ext := aliasExt name in
  if Js.truthy ext then Js.sliceEnd (String.length ext) name else name.

(** The path the loop body assigns to [finalAliasPath] for a value of
    [counter]. *)
Definition aliasCandidate (name : string) (counter : nat) : string :=
  "/Desktop/" ++ aliasBaseName name ++ " " ++ Js.toString counter
    ++ aliasExt name.

(** [while (isActiveAtPath(finalAliasPath)) { ...; counter++ }], run for
    at most [fuel] tests of the condition; [None] when they are used up. *)
Fixpoint uniqueAliasPath (fuel : nat) (newItems : Items) (name : string)
    (finalAliasPath : string) (counter : nat) : option string :=
  match fuel with
  | O => None
  | S fuel' =>
      if isActiveAtPath newItems finalAliasPath
      then uniqueAliasPath fuel' newItems name (aliasCandidate name counter)
             (S counter)
      else Some finalAliasPath
  end.

(** The name an alias gets: [aliasName], or the name of the original
    when [aliasName] is empty or equal to it. *)
Definition aliasDisplayName (o : Items) (targetPath aliasName : string)
    (aliasType : AliasType) (targetAppId : option string) : string :=
  match aliasType, Js.orStr targetAppId None with
  | aliasApp, Some _ => aliasName
  | _, _ =>
      match get targetPath o with
      | Some originalItem =>
          if negb (Js.truthy aliasName) ||
             String.eqb aliasName (name originalItem)
          then name originalItem
          else aliasName
      | None => aliasName
      end
  end.

(** [aliasItem] of [createAlias] *)
Definition aliasItemOf (o : Items) (targetPath name : string)
    (aliasType : AliasType) (targetAppId : option string)
    (finalAliasPath : string) (now : Z) : FileSystemItem :=
  let appWithId :=
    match aliasType, Js.orStr targetAppId None with
    | aliasApp, Some _ => true
    | _, _ => false
    end in
  let originalItem := if appWithId then None else get targetPath o in
  let icon :=
    if appWithId then None
    else match originalItem with
         | Some it => icon it
         | None => Some "/icons/default/file.png"
         end in
  mkItem finalAliasPath
    (match Js.orStr (Js.pop (Js.split "/"%char finalAliasPath)) (Some name)
     with Some n => n | None => name end)
    false
    icon
    (match aliasType with
     | aliasApp => Some "application"
     | aliasFile =>
         Js.orStr (match originalItem with
                   | Some it => type it
                   | None => None
                   end) (Some "alias")
     end)
    (match aliasType with aliasApp => targetAppId | aliasFile => None end)
    None None (Some now) (Some now) active None None None None None None None
    (Some (if appWithId
           then match targetAppId with Some a => a | None => "" end
           else targetPath))
    (Some aliasType)
    None.

(** [createAlias(targetPath, aliasName, aliasType, targetAppId)], with
    the loop bounded by [fuel]. *)
Definition createAliasFuel (fuel : nat) (targetPath aliasName : string)
    (aliasType : AliasType) (targetAppId : option string) (now : Z)
    (state : FilesStoreState) : option FilesStoreState :=
  match get "/Desktop" (items state) with
  | None => Some state
  | Some desktop =>
      if negb (isDirectory desktop) then Some state
      else
        let name :=
          aliasDisplayName (items state) targetPath aliasName aliasType
            targetAppId in
        let aliasPath := "/Desktop/" ++ name in
        let newItems :=
          match get aliasPath (items state) with
          | Some existingAtAliasPath =>
              if status_eqb (status existingAtAliasPath) trashed
              then delete aliasPath (items state)
              else items state
          | None => items state
          end in
        match uniqueAliasPath fuel newItems name aliasPath 1 with
        | None => None
        | Some finalAliasPath =>
            Some
              (mkStore
                 (set finalAliasPath
                    (aliasItemOf (items state) targetPath name aliasType
                       targetAppId finalAliasPath now)
                    newItems)
                 (libraryState state))
        end
  end.

(** [createAlias]: every test of the loop condition that succeeds has
    found an active key of the store, and after the first test no path is
    tested twice, so two tests more than the store has keys always end
    the loop (see [createAlias_terminates]). *)
Definition createAlias (targetPath aliasName : string)
    (aliasType : AliasType) (targetAppId : option string) (now : Z)
    (state : FilesStoreState) : option FilesStoreState :=
  createAliasFuel (S (S (List.length (items state)))) targetPath aliasName
    aliasType targetAppId now state.

(** The store after [clearLibrary()], and a file for its root *)
Definition clearedStore : FilesStoreState := mkStore [] cleared.

Definition plainData (p n : string) (dir : bool) : ItemData :=
  mkItemData p n dir Absent Absent Absent Absent Absent Absent Absent Absent
    Absent Absent Absent Absent Absent Absent Absent Absent Absent.

(** A directory and a text file, as the bootstrap and [saveFile] make
    them, and a small library *)
Definition dirItem (p n : string) : FileSystemItem :=
  mkItem p n true (Some "/icons/directory.png") (Some "directory") None None
    None (Some 1%Z) (Some 1%Z) active None None None None None None None None
    None None.

Definition fileItem (p n u : string) : FileSystemItem :=
  mkItem p n false None (Some "text") None (Some u) (Some 12%Z) (Some 1%Z)
    (Some 1%Z) active None None None None None None None None None None.

Definition sampleStore : FilesStoreState :=
  mkStore
    [ ("/", dirItem "/" "");
      ("/Documents", dirItem "/Documents" "Documents");
      ("/Images", dirItem "/Images" "Images");
      ("/Trash", dirItem "/Trash" "Trash");
      ("/Desktop", dirItem "/Desktop" "Desktop");
      ("/Documents/a.txt", fileItem "/Documents/a.txt" "a.txt" "uuid-a");
      ("/Documents/Sub", dirItem "/Documents/Sub" "Sub");
      ("/Documents/Sub/b.txt",
       fileItem "/Documents/Sub/b.txt" "b.txt" "uuid-b") ]
    loaded.

(** The clock of the examples *)
Definition noon (p : string) : Z := 1200%Z.


(** What one round of [removeItem] leaves under a key it works on *)
Definition removedAs (perm : bool) (now : string -> Z) (k : string)
    (x : option FileSystemItem) : option FileSystemItem :=
  match x with
  | None => None
  | Some c =>
      if perm then None
      else Some (if status_eqb (status c) active
                 then markTrashed k (now k) c else c)
  end.

(** The keys [removeItem] and [restoreItem] work on: the path and, for a
    directory, what lies below it. *)
Definition inSubtree (p : string) (it : FileSystemItem) (k : string) : bool :=
  String.eqb k p || (isDirectory it && Js.startsWith k (p ++ "/")).

(** What one round of [restoreItem] leaves under a key it works on *)
Definition restoredAs (x : option FileSystemItem) : option FileSystemItem :=
  option_map (fun c => if status_eqb (status c) trashed then markActive c
                       else c) x.

(** What the loops of [renameItem] and [moveItem] have in common: an
    item below [src] goes below [dst], rewritten by [g]. *)
Definition relocateChild (g : string -> FileSystemItem -> FileSystemItem)
    (stateItems : Items) (src dst : string) (newItems : Items)
    (itemPath : string) : Items :=
  if Js.startsWith itemPath (src ++ "/") then
    let childNewPath :=
      dst ++ Js.substringFrom (String.length src) itemPath in
    match get itemPath stateItems with
    | Some childItem =>
        set childNewPath (g childNewPath childItem)
          (delete itemPath newItems)
    | None => newItems
    end
  else newItems.

(** The child of [renameItem] under its new path *)
Definition renamedChild (childNewPath : string) (childItem : FileSystemItem)
    : FileSystemItem :=
  withFields childItem childNewPath (name childItem) (icon childItem)
    (status childItem)
    (if status_eqb (status childItem) trashed then Some childNewPath
     else None)
    (deletedAt childItem).

(** The key below [src] whose image below [dst] is [q] *)
Definition sourceOf (src dst q : string) : string :=
  src ++ Js.substringFrom (String.length dst) q.

(** No key of the store starts with [p + "/"]. *)
Definition nothingBelow (o : Items) (p : string) : bool :=
  forallb (fun k => negb (Js.startsWith k (p ++ "/"))) (obj_keys o).

(** A library with a folder ["/a"] that holds ["/a/x"], and a file
    ["/c"]; then the same after [renameItem("/c", "/a/a/x", "x")], which
    the store accepts although there is no folder ["/a/a"]. *)
Definition folderStore : FilesStoreState :=
  mkStore
    [ ("/", dirItem "/" "");
      ("/a", dirItem "/a" "a");
      ("/a/x", fileItem "/a/x" "x" "uuid-x");
      ("/c", fileItem "/c" "c" "uuid-c") ]
    loaded.

Definition strayStore : FilesStoreState :=
  renameItem "/c" "/a/a/x" "x" folderStore.

(** The items of a store that carry a given [uuid] *)
Definition withUuid (u : string) (o : Items) : list FileSystemItem :=
  filter (fun it => match uuid it with
                    | Some v => String.eqb v u
                    | None => false
                    end) (obj_values o).


(** The items [createAlias] works on after it has freed the preferred
    path of a trashed item *)
Definition reclaimed (o : Items) (aliasPath : string) : Items :=
  match get aliasPath o with
  | Some existingAtAliasPath =>
      if status_eqb (status existingAtAliasPath) trashed
      then delete aliasPath o
      else o
  | None => o
  end.

(** [getTrashItems()] *)
Definition getTrashItems (state : FilesStoreState) : list FileSystemItem :=
  filter (fun item => status_eqb (status item) trashed)
    (obj_values (items state)).

(** [getItemsInPath(path)] *)
Definition getItemsInPath (p : string) (state : FilesStoreState)
    : list FileSystemItem :=
  let allItems := obj_values (items state) in
  if String.eqb p "/" then
    filter (fun item => status_eqb (status item) active &&
                        negb (String.eqb (path item) "/") &&
                        String.eqb (getParentPath (path item)) "/")
      allItems
  else if String.eqb p "/Trash" then
    filter (fun item => status_eqb (status item) trashed) allItems
  else
    filter (fun item => status_eqb (status item) active &&
                        String.eqb (getParentPath (path item)) p)
      allItems.

(** [emptyTrash()]: the store after the [forEach] and
    [contentUUIDsToDelete].  [trashedItems] is read once, before the
    loop; every [removeItem] works on the store as the one before left
    it. *)
Definition emptyTrash (now : string -> Z) (state : FilesStoreState)
    : FilesStoreState * list string :=
  fold_left
    (fun acc item =>
       (fst (removeItem (path item) true now (fst acc)),
        if negb (isDirectory item)
        then match Js.orStr (uuid item) None with
             | Some u => (snd acc ++ [u])%list
             | None => snd acc
             end
        else snd acc))
    (getTrashItems state) (state, []).

(** No string twice *)
Fixpoint distinct (ks : list string) : bool :=
  match ks with
  | [] => true
  | k :: r => negb (existsb (String.eqb k) r) && distinct r
  end.

(** A table as the actions of the store build it: an object has no key
    twice, and every item sits under the key that is its [path]. *)
Definition wellKeyed (o : Items) : bool :=
  distinct (obj_keys o) &&
  forallb (fun e => String.eqb (path (snd e)) (fst e)) o.

(** A name that can be one segment of a path: not empty, no ["/"] *)
Definition validName (n : string) : bool :=
  Js.truthy n && negb (Js.includes "/"%char n).

(** The absolute path with the given segments; ["/"] when there is none *)
Definition joinPath (segs : list string) : string :=
  "/" ++ String.concat "/" segs.

(** An item, the icon disregarded when it is the item of ["/Trash"]:
    [removeItem] and [restoreItem] repaint that icon whatever they work
    on. *)
Definition modIcon (k : string) (x : option FileSystemItem)
    : option FileSystemItem :=
  if String.eqb k "/Trash" then option_map (withIcon None) x else x.

(** The item [t], stored under its path, covers the key [k] when
    [removeItem(t.path, true)] deletes it. *)
Definition coveredBy (ts : list FileSystemItem) (k : string) : bool :=
  existsb (fun t => inSubtree (path t) t k) ts.


(** [a === b] on optional strings *)
Definition optStr_eqb (a b : option string) : bool :=
  match a, b with
  | Some x, Some y => String.eqb x y
  | None, None => true
  | _, _ => false
  end.

(** [{...dir, status: "active", createdAt: now, modifiedAt: now}] for an
    entry [dir] of the default directories.  The fields [content] and
    [assetPath] that an entry may carry besides those of an item are not
    part of [FileSystemItem] and are left out. *)
Definition defaultItemOf (now : Z) (dir : ItemData) : FileSystemItem :=
  mkItem (d_path dir) (d_name dir) (d_isDirectory dir)
    (read (d_icon dir)) (read (d_type dir)) (read (d_appId dir))
    (read (d_uuid dir)) (read (d_size dir)) (Some now) (Some now) active
    (read (d_originalPath dir)) (read (d_deletedAt dir))
    (read (d_shareId dir)) (read (d_createdBy dir))
    (read (d_storeCreatedAt dir))
    (read (d_windowWidth dir)) (read (d_windowHeight dir))
    (read (d_aliasTarget dir)) (read (d_aliasType dir))
    (read (d_hiddenOnThemes dir)).

(** [needsUpdate] of [syncRootDirectoriesFromDefaults] *)
Definition needsUpdate (existing : FileSystemItem) (dir : ItemData) : bool :=
  negb (status_eqb (status existing) active) ||
  negb (isDirectory existing) ||
  negb (Js.truthy (name existing)) ||
  negb (match Js.orStr (type existing) None with
        | Some _ => true
        | None => false
        end) ||
  negb (optStr_eqb (icon existing)
          (Js.orStr (read (d_icon dir)) (icon existing))).

(** [{...existing, name: dir.name || existing.name, isDirectory: true,
    type: dir.type || existing.type || "directory",
    icon: dir.icon || existing.icon, status: "active", modifiedAt: now}] *)
Definition alignedItem (now : Z) (existing : FileSystemItem) (dir : ItemData)
    : FileSystemItem :=
  mkItem (path existing)
    (if Js.truthy (d_name dir) then d_name dir else name existing)
    true
    (Js.orStr (read (d_icon dir)) (icon existing))
    (Js.orStr (Js.orStr (read (d_type dir)) (type existing))
       (Some "directory"))
    (appId existing) (uuid existing) (size existing) (createdAt existing)
    (Some now) active (originalPath existing) (deletedAt existing)
    (shareId existing) (createdBy existing) (storeCreatedAt existing)
    (windowWidth existing) (windowHeight existing) (aliasTarget existing)
    (aliasType existing) (hiddenOnThemes existing).

(** The filter of [syncRootDirectoriesFromDefaults] *)
Definition isRootLevel (dir : ItemData) : bool :=
  String.eqb (d_path dir) "/" || String.eqb (getParentPath (d_path dir)) "/".

(** One round of its [forEach] *)
Definition syncOne (now : Z) (newItems : Items) (dir : ItemData) : Items :=
  match get (d_path dir) newItems with
  | None => set (d_path dir) (defaultItemOf now dir) newItems
  | Some existing =>
      if needsUpdate existing dir
      then set (d_path dir) (alignedItem now existing dir) newItems
      else newItems
  end.

(** [syncRootDirectoriesFromDefaults()] once [loadDefaultFiles()] has
    answered; [directories] is [data.directories]. *)
Definition syncRootDirectoriesFromDefaults (directories : list ItemData)
    (now : Z) (state : FilesStoreState) : FilesStoreState :=
  mkStore
    (fold_left (syncOne now) (filter isRootLevel directories) (items state))
    (libraryState state).

(** A default directory, as the bundled list has them *)
Definition defaultDir (p n : string) : ItemData :=
  mkItemData p n true (Present "/icons/directory.png") (Present "directory")
    Absent Absent Absent Absent Absent Absent Absent Absent Absent Absent
    Absent Absent Absent Absent Absent.


(** [hasActiveShortcut] and [hasTrashedShortcut] of
    [ensureDefaultDesktopShortcuts], for the application [appId] *)
Definition isShortcutTo (appId_ : string) (item : FileSystemItem) : bool :=
  match aliasType item with
  | Some aliasApp =>
      match aliasTarget item with
      | Some target => String.eqb target appId_
      | None => false
      end
  | _ => false
  end.

Definition hasActiveShortcut (state : FilesStoreState) (appId_ : string)
    : bool :=
  existsb (isShortcutTo appId_)
    (filter (fun item => status_eqb (status item) active &&
                         String.eqb (getParentPath (path item)) "/Desktop")
       (obj_values (items state))).

Definition hasTrashedShortcut (state : FilesStoreState) (appId_ : string)
    : bool :=
  existsb (fun item =>
             isShortcutTo appId_ item &&
             match originalPath item with
             | Some op => Js.startsWith op "/Desktop/"
             | None => false
             end)
    (filter (fun item => status_eqb (status item) trashed)
       (obj_values (items state))).

(** [shortcutsToCreate]: the applications of the registry, as pairs of
    [id] and [name], that are neither the file manager nor the control
    panels and have no shortcut on the desktop or from the desktop in
    the trash. *)
Definition shortcutsToCreate (state : FilesStoreState)
    (apps : list (string * string)) : list (string * string) :=
  filter (fun app => negb (hasActiveShortcut state (fst app)) &&
                     negb (hasTrashedShortcut state (fst app)))
    (filter (fun app => negb (String.eqb (fst app) "finder") &&
                        negb (String.eqb (fst app) "control-panels"))
       apps).

(** The path that the loop of [ensureDefaultDesktopShortcuts] assigns
    to [finalAliasPath] for a value of [counter] *)
Definition shortcutCandidate (appName : string) (counter : nat) : string :=
  "/Desktop/" ++ appName ++ " " ++ Js.toString counter.

(** Its [while] loop, run for at most [fuel] tests of the condition *)
Fixpoint uniqueShortcutPath (fuel : nat) (newItems : Items)
    (appName : string) (finalAliasPath : string) (counter : nat)
    : option string :=
  match fuel with
  | O => None
  | S fuel' =>
      if isActiveAtPath newItems finalAliasPath
      then uniqueShortcutPath fuel' newItems appName
             (shortcutCandidate appName counter) (S counter)
      else Some finalAliasPath
  end.

(** [aliasItem] of [ensureDefaultDesktopShortcuts] *)
Definition shortcutItemOf (appId_ appName finalAliasPath : string) (now : Z)
    : FileSystemItem :=
  mkItem finalAliasPath
    (match Js.orStr (Js.pop (Js.split "/"%char finalAliasPath))
             (Some appName) with
     | Some n => n
     | None => appName
     end)
    false None (Some "application") (Some appId_) None None (Some now)
    (Some now) active None None None None None None None (Some appId_)
    (Some aliasApp) (Some ["macosx"]).

(** One round of [for (const shortcut of shortcutsToCreate)]; [None]
    when the tests of a loop are used up. *)
Definition addShortcut (fuel : nat) (now : Z) (acc : option Items)
    (shortcut : string * string) : option Items :=
  match acc with
  | None => None
  | Some newItems =>
      match uniqueShortcutPath fuel newItems (snd shortcut)
              ("/Desktop/" ++ snd shortcut) 1 with
      | None => None
      | Some finalAliasPath =>
          Some (set finalAliasPath
                  (shortcutItemOf (fst shortcut) (snd shortcut)
                     finalAliasPath now)
                  newItems)
      end
  end.

(** [ensureDefaultDesktopShortcuts()], each loop bounded by [fuel];
    [apps] is [Object.values(appRegistry)]. *)
Definition ensureDefaultDesktopShortcutsFuel (fuel : nat)
    (apps : list (string * string)) (now : Z) (state : FilesStoreState)
    : option FilesStoreState :=
  match get "/Desktop" (items state) with
  | None => Some state
  | Some desktop =>
      if negb (isDirectory desktop) then Some state
      else
        match shortcutsToCreate state apps with
        | [] => Some state
        | queue =>
            option_map (fun newItems => mkStore newItems (libraryState state))
              (fold_left (addShortcut fuel now) queue (Some (items state)))
        end
  end.

(** [ensureDefaultDesktopShortcuts()]: a test of a loop that succeeds
    has found an active key, no path is tested twice in one loop, and
    the table grows by one key for a shortcut at most, so two tests more
    than the store has keys and the registry has applications end every
    loop. *)
Definition ensureDefaultDesktopShortcuts (apps : list (string * string))
    (now : Z) (state : FilesStoreState) : option FilesStoreState :=
  ensureDefaultDesktopShortcutsFuel
    (List.length (items state) + List.length apps + 2) apps now state.

(** A small registry *)
Definition sampleApps : list (string * string) :=
  [ ("finder", "Finder"); ("textedit", "TextEdit"); ("paint", "Paint") ].


(** [{...file, status: "active", uuid: uuidv4(), createdAt: now,
    modifiedAt: now}] for a default file or applet; [u] is the
    [uuidv4()]. *)
Definition defaultFileOf (now : Z) (u : string) (file : ItemData)
    : FileSystemItem :=
  mkItem (d_path file) (d_name file) (d_isDirectory file)
    (read (d_icon file)) (read (d_type file)) (read (d_appId file))
    (Some u) (read (d_size file)) (Some now) (Some now) active
    (read (d_originalPath file)) (read (d_deletedAt file))
    (read (d_shareId file)) (read (d_createdBy file))
    (read (d_storeCreatedAt file))
    (read (d_windowWidth file)) (read (d_windowHeight file))
    (read (d_aliasTarget file)) (read (d_aliasType file))
    (read (d_hiddenOnThemes file)).

(** [data.directories.forEach] of [resetLibrary] and
    [initializeLibrary] *)
Definition addDirectories (now : Z) (directories : list ItemData)
    (newItems : Items) : Items :=
  fold_left (fun acc dir => set (d_path dir) (defaultItemOf now dir) acc)
    directories newItems.

(** [data.files.forEach] and [appletsData.applets.forEach]: the table,
    and how many [uuidv4()] have been drawn; [fresh i] is the value of
    the call number [i]. *)
Definition addFiles (now : Z) (fresh : nat -> string)
    (files : list ItemData) (acc : Items * nat) : Items * nat :=
  fold_left
    (fun acc file =>
       (set (d_path file) (defaultFileOf now (fresh (snd acc)) file)
          (fst acc),
        S (snd acc)))
    files acc.

(** [resetLibrary()], once [loadDefaultFiles()] has answered with
    [directories] and [files] *)
Definition resetLibrary (directories files : list ItemData)
    (fresh : nat -> string) (now : Z) : FilesStoreState :=
  mkStore (fst (addFiles now fresh files (addDirectories now directories [], 0)))
    loaded.

(** [initializeLibrary()], once the defaults are loaded; [shortcutNow]
    is the [Date.now()] of [ensureDefaultDesktopShortcuts]. *)
Definition initializeLibrary (directories files applets : list ItemData)
    (apps : list (string * string)) (fresh : nat -> string)
    (now shortcutNow : Z) (state : FilesStoreState)
    : option FilesStoreState :=
  match libraryState state with
  | uninitialized =>
      ensureDefaultDesktopShortcuts apps shortcutNow
        (mkStore
           (fst (addFiles now fresh applets
                   (addFiles now fresh files
                      (addDirectories now directories [], 0))))
           loaded)
  | _ => Some state
  end.

(** What [onRehydrateStorage] starts on the state read from the
    storage: [initializeLibrary] for a library that is uninitialized,
    and for any other [syncRootDirectoriesFromDefaults] and then
    [ensureDefaultDesktopShortcuts]. *)
Definition onRehydrateStorage (directories files applets : list ItemData)
    (apps : list (string * string)) (fresh : nat -> string)
    (now syncNow shortcutNow : Z) (state : FilesStoreState)
    : option FilesStoreState :=
  match libraryState state with
  | uninitialized =>
      initializeLibrary directories files applets apps fresh now shortcutNow
        state
  | _ =>
      ensureDefaultDesktopShortcuts apps shortcutNow
        (syncRootDirectoriesFromDefaults directories syncNow state)
  end.

(** A default file, and the call number as identifier *)
Definition defaultFile (p n : string) : ItemData :=
  mkItemData p n false Absent (Present "text") Absent Absent Absent Absent
    Absent Absent Absent Absent Absent Absent Absent Absent Absent Absent
    Absent.

Definition numbered (i : nat) : string := "uuid-" ++ Js.toString i.


End FilesStore.

(** ** The file-system facade: [useFileSystem]

    Only the part of the hook that acts on the metadata store is
    embedded; the transfers between the buckets of the content store
    that follow it are asynchronous and do not touch an item record. *)

Module FileSystem.

Import FilesStore.

(** [moveToTrash(fileMetadata)]: the guard and step 1. *)
Definition moveToTrash (fileMetadata : option FileSystemItem)
    (now : string -> Z) (state : FilesStoreState) : FilesStoreState :=
  match fileMetadata with
  | None => state
  | Some m =>
      if String.eqb (path m) "/" || String.eqb (path m) "/Trash" ||
         status_eqb (status m) trashed
      then state
      else fst (removeItem (path m) false now state)
  end.

(** [restoreFromTrash(itemToRestore)]: the guard and step 1;
    [itemPath] is [itemToRestore.path]. *)
Definition restoreFromTrash (itemPath : string) (state : FilesStoreState)
    : FilesStoreState :=
  match getItem itemPath state with
  | None => state
  | Some fileMetadata =>
      if negb (status_eqb (status fileMetadata) trashed) ||
         match Js.orStr (originalPath fileMetadata) None with
         | Some _ => false
         | None => true
         end
      then state
      else restoreItem (path fileMetadata) state
  end.

(** [getFileIcon(item)] on the item that [saveFile] hands it: a file
    that is no alias and has no icon; only [item.type] is looked at. *)
Definition getFileIcon (type_ : string) : string :=
  if String.eqb type_ "png" || String.eqb type_ "jpg" ||
     String.eqb type_ "jpeg" || String.eqb type_ "gif" ||
     String.eqb type_ "webp" || String.eqb type_ "bmp"
  then "/icons/image.png"
  else if String.eqb type_ "markdown" || String.eqb type_ "text"
  then "/icons/file-text.png"
  else if String.eqb type_ "application" then "/icons/file.png"
  else if String.eqb type_ "Music" then "/icons/sound.png"
  else if String.eqb type_ "Video" then "/icons/video-tape.png"
  else if String.eqb type_ "site-link" then "/icons/site.png"
  else "/icons/file.png".

(** [fileMetadata?.aliasType && fileMetadata?.aliasTarget]: the type and
    the target of a usable alias. *)
Definition aliasOf (fileMetadata : option FileSystemItem)
    : option (AliasType * string) :=
  match fileMetadata with
  | Some m =>
      match aliasType m, Js.orStr (aliasTarget m) None with
      | Some ty, Some target => Some (ty, target)
      | _, _ => None
      end
  | None => None
  end.

(** [item.icon && item.icon.trim() !== ""]: the icon that is stored *)
Definition storedIcon (item : FileSystemItem) : option string :=
  match icon item with
  | Some i => if Js.isBlank i then None else Some i
  | None => None
  end.

(** [getFileIcon(item)] below its test for an alias: the stored icon,
    the icon of a directory, or the icon of the type. *)
Definition ownIcon (item : FileSystemItem) : string :=
  match storedIcon item with
  | Some i => i
  | None =>
      if isDirectory item then
        if String.eqb (path item) "/Trash" then "/icons/trash-empty.png"
        else "/icons/directory.png"
      else
        match type item with
        | Some t =>
            if String.eqb t "application"
            then match Js.orStr (icon item) None with
                 | Some i => i
                 | None => "/icons/file.png"
                 end
            else getFileIcon t
        | None => "/icons/file.png"
        end
  end.

(** [getFileIcon(item)].  For the alias of a file the function calls
    itself on the target, with no test for a target that it has seen:
    [frames] is the number of calls of it that the stack can still
    hold, and [None] is the [RangeError] of a stack that is full.
    [appIcon] is [getAppIconPath], [None] where it throws. *)
Fixpoint getFileIconRec (frames : nat) (appIcon : string -> option string)
    (state : FilesStoreState) (item : FileSystemItem) : option string :=
  match frames with
  | O => None
  | S frames' =>
      match aliasOf (Some item) with
      | Some (aliasApp, target) =>
          Some (match appIcon target with
                | Some iconPath =>
                    if Js.truthy iconPath then iconPath
                    else "/icons/default/application.png"
                | None => "/icons/default/application.png"
                end)
      | Some (aliasFile, target) =>
          match getItem target state with
          | Some targetFile => getFileIconRec frames' appIcon state targetFile
          | None => Some "/icons/default/file.png"
          end
      | None => Some (ownIcon item)
      end
  end.

(** The fields of [ExtendedDisplayFileItem] that [handleFileOpen] reads,
    and its [icon] *)
Record DisplayFile := mkDisplayFile {
  f_path : string;
  f_name : string;
  f_isDirectory : bool;
  f_type : option string;
  f_appId : option string;
  f_icon : string
}.

(** [{...targetFile, icon: getFileIcon(targetFile), modifiedAt: ...} as
    ExtendedDisplayFileItem], with the icon that the call returned *)
Definition displayOf (targetFile : FileSystemItem) (icon_ : string)
    : DisplayFile :=
  mkDisplayFile (path targetFile) (name targetFile) (isDirectory targetFile)
    (type targetFile) (appId targetFile) icon_.

(** What the alias phase of [handleFileOpen] does to the outside:
    [console.warn] and [launchApp]. *)
Inductive Effect :=
| WarnCircularAlias (at_ : string)
| WarnTargetNotFound (targetPath : string)
| WarnMaxDepth (filePath : string)
| LaunchApp (appId : string).

(** Only [launchApp] reaches a store. *)
Definition mutatesStore (e : Effect) : bool :=
  match e with
  | LaunchApp _ => true
  | _ => false
  end.

(** How the [while] loop is left: by a [return] inside it, through its
    condition with the values of [currentFile], [resolved], [depth], or
    by the [RangeError] of [getFileIcon], which nothing catches. *)
Inductive LoopExit :=
| Returned (log : list Effect) (depth : nat)
| Exited (currentFile : DisplayFile) (resolved : bool) (depth : nat)
| Threw (depth : nat).

Definition maxDepth : nat := 10.

(** [while (!resolved && depth < maxDepth)]; [remaining] is
    [maxDepth - depth], the rounds the condition still allows, and
    [frames] the room on the stack for the calls of [getFileIcon]. *)
Fixpoint resolveLoop (remaining : nat) (frames : nat)
    (appIcon : string -> option string) (state : FilesStoreState)
    (currentFile : DisplayFile) (visitedPaths : list string) (depth : nat)
    : LoopExit :=
  match remaining with
  | O => Exited currentFile false depth
  | S remaining' =>
      let depth := S depth in
      match aliasOf (getItem (f_path currentFile) state) with
      | Some (ty, target) =>
          if existsb (String.eqb (f_path currentFile)) visitedPaths
          then Returned [WarnCircularAlias (f_path currentFile)] depth
          else
            let visitedPaths := f_path currentFile :: visitedPaths in
            match ty with
            | aliasApp => Returned [LaunchApp target] depth
            | aliasFile =>
                match getItem target state with
                | None => Returned [WarnTargetNotFound target] depth
                | Some targetFile =>
                    match getFileIconRec frames appIcon state targetFile with
                    | None => Threw depth
                    | Some icon_ =>
                        resolveLoop remaining' frames appIcon state
                          (displayOf targetFile icon_) visitedPaths depth
                    end
                end
            end
      | None => Exited currentFile true depth
      end
  end.

(** The outcome of step 0 of [handleFileOpen]: the function has
    returned, it goes on to open [file], or the promise it returned is
    rejected with the [RangeError]. *)
Inductive AliasPhase :=
| Aborted (log : list Effect) (depth : nat)
| Proceeds (file : DisplayFile) (depth : nat)
| Rejected (depth : nat).

(** Step 0 of [handleFileOpen(file)] *)
Definition resolveAliases (frames : nat) (appIcon : string -> option string)
    (state : FilesStoreState) (file : DisplayFile) : AliasPhase :=
  match resolveLoop maxDepth frames appIcon state file [] 0 with
  | Returned log depth => Aborted log depth
  | Exited currentFile _ depth =>
      if Nat.leb maxDepth depth
      then Aborted [WarnMaxDepth (f_path file)] depth
      else Proceeds currentFile depth
  | Threw depth => Rejected depth
  end.

Definition depthOf (r : AliasPhase) : nat :=
  match r with
  | Aborted _ d => d
  | Proceeds _ d => d
  | Rejected d => d
  end.

(** One link of an alias chain, as the loop follows it: from the path
    of a file alias whose target is in the store to the [path] of that
    target. *)
Definition aliasHop (state : FilesStoreState) (p : string) : option string :=
  match aliasOf (getItem p state) with
  | Some (aliasFile, target) => option_map path (getItem target state)
  | _ => None
  end.

(** The path [n] links down the chain that starts at [p] *)
Fixpoint iterHop (state : FilesStoreState) (n : nat) (p : string)
    : option string :=
  match n with
  | O => Some p
  | S n' =>
      match aliasHop state p with
      | Some q => iterHop state n' q
      | None => None
      end
  end.

(** An alias of a file *)
Definition aliasTo (p n target : string) : FileSystemItem :=
  mkItem p n false None (Some "text") None None None (Some 1%Z) (Some 1%Z)
    active None None None None None None None (Some target)
    (Some aliasFile) None.

Definition display (p n : string) : DisplayFile :=
  mkDisplayFile p n false (Some "text") None "/icons/file-text.png".

(** An alias of an alias of a document, an alias of itself, and two
    aliases of each other *)
Definition chainStore : FilesStoreState :=
  mkStore
    (items sampleStore ++
     [ ("/Desktop/a.txt", aliasTo "/Desktop/a.txt" "a.txt" "/Documents/a.txt");
       ("/Desktop/a 1.txt",
        aliasTo "/Desktop/a 1.txt" "a 1.txt" "/Desktop/a.txt");
       ("/Desktop/loop", aliasTo "/Desktop/loop" "loop" "/Desktop/loop");
       ("/Desktop/ping", aliasTo "/Desktop/ping" "ping" "/Desktop/pong");
       ("/Desktop/pong", aliasTo "/Desktop/pong" "pong" "/Desktop/ping") ])%list
    loaded.


(** [createFolder({path, name})]: the guard and the call of [addItem] *)
Definition folderData (p n : string) : ItemData :=
  mkItemData p n true (Present "/icons/directory.png") (Present "directory")
    Absent Absent Absent Absent Absent Absent Absent Absent Absent Absent
    Absent Absent Absent Absent Absent.

Definition createFolder (now : Z) (fresh : string) (p n : string)
    (state : FilesStoreState) : FilesStoreState :=
  match getItem p state with
  | Some _ => state
  | None => addItem now fresh (folderData p n) state
  end.

(** [newPath] of [renameFile] *)
Definition renamedPath (oldPath newName : string) : string :=
  (if String.eqb (getParentPath oldPath) "/" then ""
   else getParentPath oldPath) ++ "/" ++ newName.

(** [renameFile(oldPath, newName)]: the two guards and step 1 *)
Definition renameFile (oldPath newName : string) (state : FilesStoreState)
    : FilesStoreState :=
  match getItem oldPath state with
  | None => state
  | Some _ =>
      match getItem (renamedPath oldPath newName) state with
      | Some _ => state
      | None =>
          renameItem oldPath (renamedPath oldPath newName) newName state
      end
  end.

(** [moveFile(sourceFile, targetFolderPath)]: the store after, and the
    boolean returned.  [contentMoved] tells whether the transfers
    between the buckets of the content store, which come first in the
    [try] block, went through; when one of them throws, the [catch]
    returns [false] before the metadata is touched.  The boolean that
    [moveItem] returns is dropped. *)
Definition moveFile (sourceFile : option FileSystemItem)
    (targetFolderPath : string) (contentMoved : bool)
    (state : FilesStoreState) : FilesStoreState * bool :=
  match sourceFile with
  | None => (state, false)
  | Some src =>
      if isDirectory src then (state, false)
      else
        match getItem targetFolderPath state with
        | None => (state, false)
        | Some targetFolder =>
            if negb (isDirectory targetFolder) then (state, false)
            else
              let newPath := targetFolderPath ++ "/" ++ name src in
              match getItem newPath state with
              | Some _ => (state, false)
              | None =>
                  if contentMoved
                  then (fst (moveItem (path src) newPath state), true)
                  else (state, false)
              end
        end
  end.

(** The state of the navigation of one [useFileSystem] hook, in the mode
    that keeps it in the hook itself: [currentPath], [history] and
    [historyIndex].  [history[i]] is [undefined] outside the array, and
    so may [currentPath] be. *)
Record NavState := mkNav {
  currentPath : option string;
  history : list string;
  historyIndex : nat
}.

(** The initial values of the three [useState] *)
Definition initialNav (initialPath : string) : NavState :=
  mkNav (Some initialPath) [initialPath] 0.

(** [navigateToPath(path)]; the selection it clears is not part of the
    navigation. *)
Definition navigateToPath (p : string) (st : NavState) : NavState :=
  let normalizedPath := if Js.startsWith p "/" then p else "/" ++ p in
  if optStr_eqb (Some normalizedPath) (currentPath st) then st
  else
    mkNav (Some normalizedPath)
      (firstn (historyIndex st + 1) (history st) ++ [normalizedPath])
      (historyIndex st + 1).

(** [navigateUp()]; [None] when [getParentPath] is handed [undefined]
    and throws. *)
Definition navigateUp (st : NavState) : option NavState :=
  match currentPath st with
  | None => None
  | Some cp =>
      Some (if String.eqb cp "/" then st
            else navigateToPath (getParentPath cp) st)
  end.

(** [navigateBack()] and [navigateForward()] *)
Definition navigateBack (st : NavState) : NavState :=
  if Nat.ltb 0 (historyIndex st)
  then mkNav (nth_error (history st) (historyIndex st - 1)) (history st)
         (historyIndex st - 1)
  else st.

Definition navigateForward (st : NavState) : NavState :=
  if Nat.ltb (historyIndex st) (List.length (history st) - 1)
  then mkNav (nth_error (history st) (historyIndex st + 1)) (history st)
         (historyIndex st + 1)
  else st.

Definition canNavigateBack (st : NavState) : bool :=
  Nat.ltb 0 (historyIndex st).

Definition canNavigateForward (st : NavState) : bool :=
  Nat.ltb (historyIndex st) (List.length (history st) - 1).

(** [currentPath] is the entry of [history] that [historyIndex] names. *)
Definition navConsistent (st : NavState) : bool :=
  match currentPath st, nth_error (history st) (historyIndex st) with
  | Some cp, Some h => String.eqb cp h
  | _, _ => false
  end.


(** [getFileTypeFromExtension(fileName)] *)
Definition getFileTypeFromExtension (fileName : string) : string :=
  let ext :=
    match Js.orStr (option_map Js.toLowerCase
                      (Js.pop (Js.split "."%char fileName)))
            (Some "unknown") with
    | Some e => e
    | None => "unknown"
    end in
  if String.eqb ext "app" then "application"
  else if String.eqb ext "md" then "markdown"
  else if String.eqb ext "txt" then "text"
  else if String.eqb ext "png" then ext
  else if String.eqb ext "jpg" || String.eqb ext "jpeg" then "jpg"
  else if String.eqb ext "gif" then ext
  else if String.eqb ext "webp" then ext
  else if String.eqb ext "bmp" then ext
  else "unknown".

(** The buckets of the content store that [saveFile] picks from *)
Inductive ContentStore := DOCUMENTS | IMAGES | APPLETS.

(** [storeName] of [saveFile] *)
Definition storeNameOf (p : string) : option ContentStore :=
  if Js.startsWith p "/Documents/" then Some DOCUMENTS
  else if Js.startsWith p "/Images/" then Some IMAGES
  else if Js.startsWith p "/Applets/" then Some APPLETS
  else None.

(** How [saveFile] ends: in the [catch] of the metadata step, or at the
    content step, which writes under [key] into the bucket [storeName]
    when there is one for the path. *)
Inductive SaveOutcome :=
| MetadataFailed
| ContentStep (storeName : option ContentStore) (key : string).

(** A property that an object literal always has, with the value
    computed for it *)
Definition given {A : Type} (o : option A) : Prop3 A :=
  match o with
  | Some a => Present a
  | None => Undefined
  end.

(** [metadata] of [saveFile]; [fileSize] is the byte size computed from
    the content, [now] is its [Date.now()]. *)
Definition saveMetadata (p n : string) (fileSize : Z)
    (type_ icon_ shareId_ createdBy_ : option string) (now : Z)
    (existingItem : option FileSystemItem) : ItemData :=
  let fileType :=
    match Js.orStr type_ (Some (getFileTypeFromExtension n)) with
    | Some t => t
    | None => getFileTypeFromExtension n
    end in
  let existing {A : Type} (f : FileSystemItem -> option A) : option A :=
    match existingItem with
    | Some e => f e
    | None => None
    end in
  mkItemData p n false
    (given (Js.orStr icon_ (Some (getFileIcon fileType))))
    (Present fileType)
    Absent
    (given (existing uuid))
    (Present fileSize)
    (given (Js.orNum (existing createdAt) (Some now)))
    (Present now)
    Absent Absent
    (given (Js.orStr shareId_ (existing shareId)))
    (given (Js.orStr createdBy_ (existing createdBy)))
    Absent Absent Absent Absent Absent Absent.

(** [saveFile(fileData)]: the store after step 2 and how the function
    goes on; [storeNow] and [fresh] are the [Date.now()] and the
    [uuidv4()] of [addItem]. *)
Definition saveFile (p n : string) (fileSize : Z)
    (type_ icon_ shareId_ createdBy_ : option string)
    (now storeNow : Z) (fresh : string) (state : FilesStoreState)
    : FilesStoreState * SaveOutcome :=
  let existingItem := getItem p state in
  let metadata :=
    saveMetadata p n fileSize type_ icon_ shareId_ createdBy_ now
      existingItem in
  let state := addItem storeNow fresh metadata state in
  match getItem p state with
  | Some savedItem =>
      match Js.orStr (uuid savedItem) None with
      | Some u => (state, ContentStep (storeNameOf p) u)
      | None => (state, MetadataFailed)
      end
  | None => (state, MetadataFailed)
  end.


End FileSystem.

(** ** The instance store: the window manager of [useAppStore]

    An instance id is [nextNum.toString()]; the embedding keeps the
    number, for the ids that [toString] writes digit by digit (those
    below 10^21).  [nextInstanceId] is a double: the sum that makes the
    next id is rounded as a double rounds it, exact below 2^53.
    [track], [window.dispatchEvent] and the settings held in the same
    store do not enter the instance table and are left out. *)

Module AppStore.

(** A value of type [unknown], as far as the store looks at it: absent,
    or some value that an [if] takes as true or as false. *)
Inductive Unknown := JsUndefined | JsValue (payload : string) (truthy : bool).

Definition isTruthy (u : Unknown) : bool :=
  match u with
  | JsUndefined => false
  | JsValue _ t => t
  end.

(** Truthiness of an optional boolean *)
Definition flag (b : option bool) : bool :=
  match b with
  | Some true => true
  | _ => false
  end.

(** [interface AppInstance extends AppState] *)
Record AppInstance := mkInstance {
  instanceId : nat;
  appId : string;
  title : option string;
  displayTitle : option string;
  createdAt : Z;
  isLoading : option bool;
  isMinimized : option bool;
  isOpen : bool;
  position : option (Z * Z);
  size : option (Z * Z);
  isForeground : option bool;
  initialData : Unknown
}.

Definition Instances := list (nat * AppInstance).

Definition get (k : nat) (o : Instances) : option AppInstance :=
  obj_get Nat.eqb k o.

(** An id that [Object.keys] enumerates as an array index *)
Definition isArrayIndex (k : nat) : bool :=
  N.ltb (N.of_nat k) 4294967295.

(** Where a new id goes among the ids of the table *)
Definition before (k k' : nat) : bool :=
  isArrayIndex k && (negb (isArrayIndex k') || Nat.ltb k k').

Definition set (k : nat) (v : AppInstance) (o : Instances) : Instances :=
  obj_set Nat.eqb before k v o.
Definition delete (k : nat) (o : Instances) : Instances :=
  obj_delete Nat.eqb k o.

(** The instance part of [AppStoreState] *)
Record AppStoreState := mkState {
  instances : Instances;
  instanceOrder : list nat;
  foregroundInstanceId : option nat;
  nextInstanceId : nat
}.

Definition initialState : AppStoreState := mkState [] [] None 0.

(** What [createAppInstance] reads from its surroundings:
    [window.innerWidth] ([None] without a window) and
    [getWindowConfig(appId).defaultSize]. *)
Record Env := mkEnv {
  innerWidth : option Z;
  defaultSize : string -> Z * Z
}.

(** [{...inst, isForeground}] *)
Definition withForeground (fg : bool) (i : AppInstance) : AppInstance :=
  mkInstance (instanceId i) (appId i) (title i) (displayTitle i)
    (createdAt i) (isLoading i) (isMinimized i) (isOpen i) (position i)
    (size i) (Some fg) (initialData i).

(** [{...inst, isMinimized, isForeground}] *)
Definition withMinimized (mn fg : bool) (i : AppInstance) : AppInstance :=
  mkInstance (instanceId i) (appId i) (title i) (displayTitle i)
    (createdAt i) (isLoading i) (Some mn) (isOpen i) (position i)
    (size i) (Some fg) (initialData i).

(** [{...inst, isLoading: false, isForeground: true}] *)
Definition withLoaded (i : AppInstance) : AppInstance :=
  mkInstance (instanceId i) (appId i) (title i) (displayTitle i)
    (createdAt i) (Some false) (isMinimized i) (isOpen i) (position i)
    (size i) (Some true) (initialData i).

(** [{...inst, initialData}] *)
Definition withInitialData (d : Unknown) (i : AppInstance) : AppInstance :=
  mkInstance (instanceId i) (appId i) (title i) (displayTitle i)
    (createdAt i) (isLoading i) (isMinimized i) (isOpen i) (position i)
    (size i) (isForeground i) d.

(** [Object.keys(instances).forEach((id) => instances[id] =
    {...instances[id], isForeground: f(id)})] *)
Definition setForegroundAll (f : nat -> bool) (o : Instances) : Instances :=
  map (fun e => (fst e, withForeground (f (fst e)) (snd e))) o.

(** [[...order.filter((id) => id !== x), x]] *)
Definition moveToEnd (x : nat) (order : list nat) : list nat :=
  filter (fun id => negb (Nat.eqb id x)) order ++ [x].

Definition idIs (x : option nat) (id : nat) : bool :=
  match x with
  | Some y => Nat.eqb id y
  | None => false
  end.

(** [createAppInstance(appId, initialData, title)]: the state after and
    [createdId]; [now] is [Date.now()]. *)
Definition createAppInstance (env : Env) (now : Z) (appId_ : string)
    (initialData_ : Unknown) (title_ : option string)
    (state : AppStoreState) : AppStoreState * nat :=
  let nextNum := Js.toNumber (nextInstanceId state + 1) in
  let createdId := nextNum in
  let openInstances := Z.of_nat (List.length (instanceOrder state)) in
  let isMobile :=
    match innerWidth env with
    | Some w => Z.ltb w 768
    | None => false
    end in
  let position_ :=
    if isMobile then (0, 28 + openInstances * 32)%Z
    else (16 + openInstances * 32, 40 + openInstances * 20)%Z in
  let size_ :=
    if isMobile
    then (match innerWidth env with Some w => w | None => 0%Z end,
          snd (defaultSize env appId_))
    else defaultSize env appId_ in
  let isLazy := negb (String.eqb appId_ "finder") in
  let instances_ :=
    set createdId
      (mkInstance createdId appId_ title_ None now (Some isLazy) None true
         (Some position_) (Some size_) (Some (negb isLazy)) initialData_)
      (instances state) in
  let instances_ :=
    if negb isLazy
    then map (fun e => if negb (Nat.eqb (fst e) createdId)
                       then (fst e, withForeground false (snd e))
                       else e) instances_
    else instances_ in
  (mkState instances_ (moveToEnd createdId (instanceOrder state))
     (if isLazy then foregroundInstanceId state else Some createdId)
     nextNum,
   createdId).

(** [markInstanceAsLoaded(instanceId)] *)
Definition markInstanceAsLoaded (id : nat) (state : AppStoreState)
    : AppStoreState :=
  match get id (instances state) with
  | None => state
  | Some inst =>
      if negb (flag (isLoading inst)) then state
      else
        let instances_ :=
          setForegroundAll (fun k => Nat.eqb k id) (instances state) in
        let instances_ := set id (withLoaded inst) instances_ in
        mkState instances_ (moveToEnd id (instanceOrder state)) (Some id)
          (nextInstanceId state)
  end.

(** The two searches of [closeAppInstance] for the next foreground *)
Definition nextAfterClose (o : Instances) (order : list nat)
    (closedApp : string) : option nat :=
  match find (fun id => match get id o with
                        | Some i => String.eqb (appId i) closedApp && isOpen i
                        | None => false
                        end) (rev order) with
  | Some id => Some id
  | None =>
      match rev order with
      | [] => None
      | lst :: _ => Some lst
      end
  end.

(** [closeAppInstance(instanceId)] *)
Definition closeAppInstance (id : nat) (state : AppStoreState)
    : AppStoreState :=
  match get id (instances state) with
  | None => state
  | Some inst =>
      if negb (isOpen inst) then state
      else
        let instances_ := delete id (instances state) in
        let order := filter (fun k => negb (Nat.eqb k id))
                       (instanceOrder state) in
        let nextForeground := nextAfterClose instances_ order (appId inst) in
        let instances_ := setForegroundAll (idIs nextForeground) instances_ in
        let order :=
          match nextForeground with
          | Some nf => moveToEnd nf order
          | None => order
          end in
        mkState instances_ order nextForeground (nextInstanceId state)
  end.

(** [bringInstanceToForeground(instanceId)]; [None] is [null] or [""]. *)
Definition bringInstanceToForeground (id : option nat)
    (state : AppStoreState) : AppStoreState :=
  match id with
  | None =>
      mkState (setForegroundAll (fun _ => false) (instances state))
        (instanceOrder state) None (nextInstanceId state)
  | Some x =>
      match get x (instances state) with
      | None => state
      | Some _ =>
          mkState (setForegroundAll (fun k => Nat.eqb k x) (instances state))
            (moveToEnd x (instanceOrder state)) (Some x)
            (nextInstanceId state)
      end
  end.

(** The search of [minimizeInstance] for the next foreground *)
Definition nextAfterMinimize (o : Instances) (order : list nat) (id : nat)
    : option nat :=
  find (fun k => negb (Nat.eqb k id) &&
                 match get k o with
                 | Some i => isOpen i && negb (flag (isMinimized i))
                 | None => false
                 end) (rev order).

(** [minimizeInstance(instanceId)] *)
Definition minimizeInstance (id : nat) (state : AppStoreState)
    : AppStoreState :=
  match get id (instances state) with
  | None => state
  | Some inst =>
      if flag (isMinimized inst) then state
      else
        let instances_ :=
          set id (withMinimized true false inst) (instances state) in
        let nextForeground :=
          nextAfterMinimize instances_ (instanceOrder state) id in
        let instances_ :=
          match nextForeground with
          | Some nf =>
              match get nf instances_ with
              | Some i => set nf (withForeground true i) instances_
              | None => instances_
              end
          | None => instances_
          end in
        mkState instances_ (instanceOrder state) nextForeground
          (nextInstanceId state)
  end.

(** [restoreInstance(instanceId)] *)
Definition restoreInstance (id : nat) (state : AppStoreState)
    : AppStoreState :=
  match get id (instances state) with
  | None => state
  | Some inst =>
      if negb (flag (isMinimized inst)) then state
      else
        let instances_ :=
          setForegroundAll (fun _ => false) (instances state) in
        let instances_ := set id (withMinimized false true inst) instances_ in
        mkState instances_ (moveToEnd id (instanceOrder state)) (Some id)
          (nextInstanceId state)
  end.

(** [set((s) => ({instances: {...s.instances, [id]:
    {...s.instances[id], initialData}}}))], on an id of the table *)
Definition refreshInitialData (id : nat) (d : Unknown) (s : AppStoreState)
    : AppStoreState :=
  match get id (instances s) with
  | Some i =>
      mkState (set id (withInitialData d i) (instances s)) (instanceOrder s)
        (foregroundInstanceId s) (nextInstanceId s)
  | None => s
  end.

(** [supportsMultiWindow] of [launchApp] *)
Definition supportsMultiWindow (appId_ : string) (multiWindow : bool)
    : bool :=
  multiWindow || String.eqb appId_ "textedit" || String.eqb appId_ "finder"
  || false.

(** An instance of [appId] that is open: the test of the [filter] and
    of the [find] in [launchApp]. *)
Definition openOfApp (appId_ : string) (i : AppInstance) : bool :=
  String.eqb (appId i) appId_ && isOpen i.

(** [appInstances.forEach] in [launchApp]: the store and
    [lastRestoredId] after it. *)
Definition restoreAll (appInstances : list AppInstance)
    (live : AppStoreState) : AppStoreState * option nat :=
  fold_left
    (fun acc inst =>
       if flag (isMinimized inst)
       then (restoreInstance (instanceId inst) (fst acc),
             Some (instanceId inst))
       else acc)
    appInstances (live, None).

(** The focus of an existing instance in [launchApp]:
    [bringInstanceToForeground(id)], then [initialData] when it is given. *)
Definition focusExisting (id : nat) (initialData_ : Unknown)
    (live : AppStoreState) : AppStoreState :=
  let live := bringInstanceToForeground (Some id) live in
  if isTruthy initialData_ then refreshInitialData id initialData_ live
  else live.

(** [launchApp] from [const supportsMultiWindow] on *)
Definition launchOrFocus (env : Env) (now : Z) (appId_ : string)
    (initialData_ : Unknown) (title_ : option string) (multiWindow : bool)
    (state : AppStoreState) : AppStoreState * nat :=
  if supportsMultiWindow appId_ multiWindow
  then createAppInstance env now appId_ initialData_ title_ state
  else
    match find (openOfApp appId_) (obj_values (instances state)) with
    | Some existing =>
        (focusExisting (instanceId existing) initialData_ state,
         instanceId existing)
    | None => createAppInstance env now appId_ initialData_ title_ state
    end.

(** [launchApp(appId, initialData, title, multiWindow)]: the state after
    and the id returned.  [state] is [const state = get()]; the actions
    called on it work on the store as it is when they run, and an
    instance is stored under its own [instanceId]. *)
Definition launchApp (env : Env) (now : Z) (appId_ : string)
    (initialData_ : Unknown) (title_ : option string) (multiWindow : bool)
    (state : AppStoreState) : AppStoreState * nat :=
  let appInstances :=
    filter (openOfApp appId_) (obj_values (instances state)) in
  if Nat.ltb 0 (List.length appInstances) &&
     forallb (fun inst => flag (isMinimized inst)) appInstances
  then
    match restoreAll appInstances state with
    | (live, Some lastRestoredId) =>
        (focusExisting lastRestoredId initialData_ live, lastRestoredId)
    | (_, None) =>
        launchOrFocus env now appId_ initialData_ title_ multiWindow state
    end
  else launchOrFocus env now appId_ initialData_ title_ multiWindow state.

(** The actions of the window manager, to run them in sequence *)
Inductive Action :=
| CreateAppInstance (appId_ : string) (initialData_ : Unknown)
    (title_ : option string)
| LaunchApp (appId_ : string) (initialData_ : Unknown)
    (title_ : option string) (multiWindow : bool)
| BringInstanceToForeground (id : option nat)
| MarkInstanceAsLoaded (id : nat)
| MinimizeInstance (id : nat)
| RestoreInstance (id : nat)
| CloseAppInstance (id : nat).

Definition perform (env : Env) (now : Z) (state : AppStoreState)
    (a : Action) : AppStoreState :=
  match a with
  | CreateAppInstance ap d t => fst (createAppInstance env now ap d t state)
  | LaunchApp ap d t m => fst (launchApp env now ap d t m state)
  | BringInstanceToForeground id => bringInstanceToForeground id state
  | MarkInstanceAsLoaded id => markInstanceAsLoaded id state
  | MinimizeInstance id => minimizeInstance id state
  | RestoreInstance id => restoreInstance id state
  | CloseAppInstance id => closeAppInstance id state
  end.

Definition performAll (env : Env) (now : Z) (actions : list Action)
    (state : AppStoreState) : AppStoreState :=
  fold_left (perform env now) actions state.

(** The instances that carry [isForeground = true] *)
Definition foregroundInstances (state : AppStoreState) : list AppInstance :=
  filter (fun i => flag (isForeground i)) (obj_values (instances state)).

(** An instance with its two window flags blanked: what is left is
    every field that is neither [isMinimized] nor [isForeground]. *)
Definition eraseFlags (i : AppInstance) : AppInstance :=
  mkInstance (instanceId i) (appId i) (title i) (displayTitle i)
    (createdAt i) (isLoading i) None (isOpen i) (position i) (size i) None
    (initialData i).


(** A desktop-sized window and one default size for every application *)
Definition desktopEnv : Env := mkEnv (Some 1280%Z) (fun _ => (640, 480)%Z).

(** Two runs of the window manager from the empty store.  In the first
    a file manager is launched, then two text editors, and the second
    editor is minimized before either has finished loading.  In the
    second two file managers are launched, the first is minimized and
    the second closed. *)
Definition twoForegroundsRun : list Action :=
  [ LaunchApp "finder" JsUndefined None false;
    LaunchApp "textedit" JsUndefined None false;
    LaunchApp "textedit" JsUndefined None false;
    MinimizeInstance 3 ].

Definition minimizedForegroundRun : list Action :=
  [ LaunchApp "finder" JsUndefined None false;
    LaunchApp "finder" JsUndefined None false;
    MinimizeInstance 1;
    CloseAppInstance 2 ].

(** The foreground flag is carried by no instance other than the one
    [foregroundInstanceId] names. *)
Definition foregroundIsUnique (state : AppStoreState) : Prop :=
  forall k i, get k (instances state) = Some i ->
              flag (isForeground i) = true ->
              foregroundInstanceId state = Some k.

Definition isMinimizeAction (a : Action) : bool :=
  match a with
  | MinimizeInstance _ => true
  | _ => false
  end.


(** [_debugCheckInstanceIntegrity()] *)
Definition _debugCheckInstanceIntegrity (state : AppStoreState)
    : AppStoreState :=
  let openIds :=
    map instanceId (filter isOpen (obj_values (instances state))) in
  let filtered :=
    filter (fun id => existsb (Nat.eqb id) openIds) (instanceOrder state) in
  let missing :=
    filter (fun id => negb (existsb (Nat.eqb id) filtered)) openIds in
  if Nat.eqb (List.length missing) 0 &&
     Nat.eqb (List.length filtered) (List.length (instanceOrder state))
  then state
  else mkState (instances state) (filtered ++ missing)
         (foregroundInstanceId state) (nextInstanceId state).

(** [order.indexOf(x)]; [None] is [-1]. *)
Fixpoint indexOf (x : nat) (order : list nat) : option nat :=
  match order with
  | [] => None
  | y :: r => if Nat.eqb y x then Some 0 else option_map S (indexOf x r)
  end.

(** [navigateToNextInstance(currentId)] *)
Definition navigateToNextInstance (currentId : nat) (state : AppStoreState)
    : AppStoreState :=
  let order := instanceOrder state in
  if Nat.leb (List.length order) 1 then state
  else
    match indexOf currentId order with
    | None => state
    | Some idx =>
        bringInstanceToForeground
          (nth_error order ((idx + 1) mod List.length order)) state
    end.

(** [navigateToPreviousInstance(currentId)]; [idx - 1 + length] is
    never negative, and is written here with the sum first. *)
Definition navigateToPreviousInstance (currentId : nat)
    (state : AppStoreState) : AppStoreState :=
  let order := instanceOrder state in
  if Nat.leb (List.length order) 1 then state
  else
    match indexOf currentId order with
    | None => state
    | Some idx =>
        bringInstanceToForeground
          (nth_error order
             ((idx + List.length order - 1) mod List.length order)) state
    end.

(** The first two steps of [onRehydrateStorage]: [instanceOrder] keeps
    the ids that have an instance, and [nextInstanceId] is set to
    [max + 1] when [max], the largest [parseInt(id, 10)] of the table,
    has reached it. *)
Definition cleanInstanceOrder (state : AppStoreState) : list nat :=
  filter (fun id => match get id (instances state) with
                    | Some _ => true
                    | None => false
                    end) (instanceOrder state).

Definition fixNextInstanceId (state : AppStoreState) : nat :=
  match map Js.toNumber (obj_keys (instances state)) with
  | [] => nextInstanceId state
  | k :: ks =>
      let max := fold_left Nat.max ks k in
      if Nat.leb (nextInstanceId state) max then Js.toNumber (max + 1)
      else nextInstanceId state
  end.

(** The third step: an instance without [createdAt], [position] or
    [size] gets the number of its id and the defaults of its
    application; [innerWidth] is [window.innerWidth]. *)
Definition withDefaults (innerWidth : Z) (defaultSize : string -> Z * Z)
    (id : nat) (inst : AppInstance) : AppInstance :=
  let isMobile := Z.ltb innerWidth 768 in
  mkInstance (instanceId inst) (appId inst) (title inst) (displayTitle inst)
    (if Z.eqb (createdAt inst) 0 then Z.of_nat (Js.toNumber id)
     else createdAt inst)
    (isLoading inst) (isMinimized inst) (isOpen inst)
    (match position inst with
     | Some p => Some p
     | None => Some (if isMobile then (0, 28)%Z else (16, 40)%Z)
     end)
    (match size inst with
     | Some sz => Some sz
     | None =>
         Some (if isMobile then (innerWidth, snd (defaultSize (appId inst)))
               else defaultSize (appId inst))
     end)
    (isForeground inst) (initialData inst).

(** [onRehydrateStorage] on a state that has instances or no legacy
    application open, so that its last step, the migration of the
    legacy applications, does not run. *)
Definition onRehydrateStorage (innerWidth : Z)
    (defaultSize : string -> Z * Z) (state : AppStoreState)
    : AppStoreState :=
  mkState
    (map (fun e => (fst e, withDefaults innerWidth defaultSize (fst e) (snd e)))
       (instances state))
    (cleanInstanceOrder state)
    (foregroundInstanceId state)
    (fixNextInstanceId state).

(** [instanceOrder] names every instance of the table, once, and
    nothing else. *)
Definition orderComplete (state : AppStoreState) : Prop :=
  NoDup (instanceOrder state) /\
  forall k, In k (instanceOrder state) <-> get k (instances state) <> None.

(** Every instance is stored under its own id, is open, and has an id
    that the counter has passed. *)
Definition idsInUse (state : AppStoreState) : Prop :=
  forall k i, get k (instances state) = Some i ->
              instanceId i = k /\ isOpen i = true /\
              k <= nextInstanceId state.

(** [foregroundInstanceId] is [null] or the id of an instance. *)
Definition foregroundExists (state : AppStoreState) : Prop :=
  match foregroundInstanceId state with
  | Some f => get f (instances state) <> None
  | None => True
  end.

(** A table with a stale order and a stale counter, as a storage written
    by an older build may hold *)
Definition staleState : AppStoreState :=
  mkState
    [ (2, mkInstance 2 "finder" None None 0 None None true None None
            (Some true) JsUndefined);
      (5, mkInstance 5 "textedit" None None 7 None None true
            (Some (1, 1)%Z) (Some (2, 2)%Z) None JsUndefined) ]
    [9; 2; 5] (Some 2) 4.


End AppStore.

(* ================================================================== *)
(** * Part II: properties *)
(* ================================================================== *)

(** ** Reading an object after a write *)

Section JsObjectReads.

Variables (K V : Type).
Variable eqb : K -> K -> bool.
Hypothesis eqb_eq : forall a b, eqb a b = true <-> a = b.

Lemma eqb_refl_true (a : K) : eqb a a = true.
Proof. apply eqb_eq. reflexivity. Qed.

Lemma eqb_neq_false (a b : K) : a <> b -> eqb a b = false.
Proof.
  intro H. destruct (eqb a b) eqn:E; [|reflexivity].
  apply eqb_eq in E. contradiction.
Qed.

Lemma eqb_true_eq (a b : K) : eqb a b = true -> a = b.
Proof. apply eqb_eq. Qed.

Lemma obj_get_replace_same (k : K) (v v0 : V) (o : list (K * V)) :
  obj_get eqb k o = Some v0 -> obj_get eqb k (obj_replace eqb k v o) = Some v.
Proof.
  induction o as [|[k' v'] r IH]; simpl; [discriminate|].
  destruct (eqb k k') eqn:E; simpl.
  - rewrite eqb_refl_true. reflexivity.
  - rewrite E. exact IH.
Qed.

Lemma obj_get_replace_other (k k0 : K) (v : V) (o : list (K * V)) :
  k0 <> k -> obj_get eqb k0 (obj_replace eqb k v o) = obj_get eqb k0 o.
Proof.
  intro N. induction o as [|[k' v'] r IH]; simpl; [reflexivity|].
  destruct (eqb k k') eqn:E; simpl.
  - apply eqb_true_eq in E. subst k'.
    rewrite eqb_neq_false by exact N. reflexivity.
  - destruct (eqb k0 k'); [reflexivity | exact IH].
Qed.

Lemma obj_keys_replace (k : K) (v : V) (o : list (K * V)) :
  obj_keys (obj_replace eqb k v o) = obj_keys o.
Proof.
  induction o as [|[k' v'] r IH]; simpl; [reflexivity|].
  destruct (eqb k k') eqn:E; simpl.
  - apply eqb_true_eq in E. subst k'. reflexivity.
  - f_equal. exact IH.
Qed.

Lemma obj_get_delete_same (k : K) (o : list (K * V)) :
  obj_get eqb k (obj_delete eqb k o) = None.
Proof.
  induction o as [|[k' v'] r IH]; simpl; [reflexivity|].
  destruct (eqb k k') eqn:E; simpl; [exact IH|].
  rewrite E. exact IH.
Qed.

Lemma obj_get_delete_other (k k0 : K) (o : list (K * V)) :
  k0 <> k -> obj_get eqb k0 (obj_delete eqb k o) = obj_get eqb k0 o.
Proof.
  intro N. induction o as [|[k' v'] r IH]; simpl; [reflexivity|].
  destruct (eqb k k') eqn:E; simpl.
  - apply eqb_true_eq in E. subst k'.
    rewrite eqb_neq_false by exact N. exact IH.
  - destruct (eqb k0 k'); [reflexivity | exact IH].
Qed.

Lemma obj_get_In_keys (k : K) (v : V) (o : list (K * V)) :
  obj_get eqb k o = Some v -> In k (obj_keys o).
Proof.
  induction o as [|[k' v'] r IH]; simpl; [discriminate|].
  destruct (eqb k k') eqn:E.
  - apply eqb_true_eq in E. auto.
  - intro H. right. apply IH, H.
Qed.

Lemma obj_keys_get (k : K) (o : list (K * V)) :
  In k (obj_keys o) -> exists v, obj_get eqb k o = Some v.
Proof.
  induction o as [|[k' v'] r IH]; simpl; [tauto|].
  intros [H|H].
  - subst k'. rewrite eqb_refl_true. eauto.
  - destruct (eqb k k'); eauto.
Qed.

Lemma obj_get_In_values (k : K) (v : V) (o : list (K * V)) :
  obj_get eqb k o = Some v -> In v (obj_values o).
Proof.
  induction o as [|[k' v'] r IH]; simpl; [discriminate|].
  destruct (eqb k k').
  - intro H. injection H as ->. auto.
  - intro H. right. apply IH, H.
Qed.

End JsObjectReads.

Section JsObjectWrites.

Variables (K V : Type).
Variable eqb : K -> K -> bool.
Variable before : K -> K -> bool.
Hypothesis eqb_eq : forall a b, eqb a b = true <-> a = b.

Lemma obj_get_insert_same (k : K) (v : V) (o : list (K * V)) :
  obj_get eqb k o = None -> obj_get eqb k (obj_insert before k v o) = Some v.
Proof.
  induction o as [|[k' v'] r IH]; simpl.
  - rewrite (eqb_refl_true _ _ eqb_eq). reflexivity.
  - destruct (eqb k k') eqn:E; [discriminate|].
    intro H. destruct (before k k'); simpl.
    + rewrite (eqb_refl_true _ _ eqb_eq). reflexivity.
    + rewrite E. apply IH, H.
Qed.

Lemma obj_get_insert_other (k k0 : K) (v : V) (o : list (K * V)) :
  k0 <> k -> obj_get eqb k0 (obj_insert before k v o) = obj_get eqb k0 o.
Proof.
  intro N. induction o as [|[k' v'] r IH]; simpl.
  - rewrite (eqb_neq_false _ _ eqb_eq) by exact N. reflexivity.
  - destruct (before k k'); simpl.
    + rewrite (eqb_neq_false _ _ eqb_eq k0 k) by exact N. reflexivity.
    + destruct (eqb k0 k'); [reflexivity | exact IH].
Qed.

Lemma obj_get_set_same (k : K) (v : V) (o : list (K * V)) :
  obj_get eqb k (obj_set eqb before k v o) = Some v.
Proof.
  unfold obj_set. destruct (obj_get eqb k o) eqn:G.
  - eapply obj_get_replace_same; [exact eqb_eq | exact G].
  - apply obj_get_insert_same, G.
Qed.

Lemma obj_get_set_other (k k0 : K) (v : V) (o : list (K * V)) :
  k0 <> k -> obj_get eqb k0 (obj_set eqb before k v o) = obj_get eqb k0 o.
Proof.
  intro N. unfold obj_set. destruct (obj_get eqb k o).
  - apply obj_get_replace_other; [exact eqb_eq | exact N].
  - apply obj_get_insert_other, N.
Qed.

Lemma obj_keys_set_present (k : K) (v v0 : V) (o : list (K * V)) :
  obj_get eqb k o = Some v0 ->
  obj_keys (obj_set eqb before k v o) = obj_keys o.
Proof.
  intro G. unfold obj_set. rewrite G. apply obj_keys_replace, eqb_eq.
Qed.

End JsObjectWrites.

(** ** The window manager *)

Module AppStoreFacts.

Import AppStore.

Lemma instance_set_same (k : nat) (v : AppInstance) (o : Instances) :
  get k (set k v o) = Some v.
Proof. apply obj_get_set_same, Nat.eqb_eq. Qed.

Lemma instance_set_other (k k0 : nat) (v : AppInstance) (o : Instances) :
  k0 <> k -> get k0 (set k v o) = get k0 o.
Proof. apply obj_get_set_other, Nat.eqb_eq. Qed.

Lemma keys_set_present (k : nat) (v v0 : AppInstance) (o : Instances) :
  get k o = Some v0 -> obj_keys (set k v o) = obj_keys o.
Proof. apply obj_keys_set_present, Nat.eqb_eq. Qed.

Lemma get_setForegroundAll (f : nat -> bool) (k : nat) (o : Instances) :
  get k (setForegroundAll f o) = option_map (withForeground (f k)) (get k o).
Proof.
  induction o as [|[k' v'] r IH]; simpl; [reflexivity|].
  unfold get in *. simpl. destruct (Nat.eqb k k') eqn:E.
  - apply Nat.eqb_eq in E. subst k'. reflexivity.
  - exact IH.
Qed.


Lemma nextAfterMinimize_some (o : Instances) (order : list nat) (id nf : nat) :
  nextAfterMinimize o order id = Some nf ->
  nf <> id /\ exists i, get nf o = Some i.
Proof.
  unfold nextAfterMinimize. intro H. apply find_some in H.
  destruct H as [_ H]. apply andb_prop in H. destruct H as [H1 H2].
  split.
  - intro E. subst nf. rewrite Nat.eqb_refl in H1. discriminate.
  - destruct (get nf o); [eauto | discriminate].
Qed.

(** C10. [minimizeInstance] leaves [instanceOrder] (and so the place of
    the minimized instance in it), [nextInstanceId] and the set of
    instances as they are; every instance keeps every field other than
    [isMinimized] and [isForeground]; and [isMinimized] changes on the
    minimized instance only, where it becomes [true]. *)
Theorem minimizeInstance_frame (id : nat) (s : AppStoreState) :
  instanceOrder (minimizeInstance id s) = instanceOrder s /\
  nextInstanceId (minimizeInstance id s) = nextInstanceId s /\
  obj_keys (instances (minimizeInstance id s)) = obj_keys (instances s) /\
  (forall k,
     option_map eraseFlags (get k (instances (minimizeInstance id s))) =
     option_map eraseFlags (get k (instances s))) /\
  (forall k,
     option_map isMinimized (get k (instances (minimizeInstance id s))) =
     option_map
       (fun i => if Nat.eqb k id && negb (flag (isMinimized i))
                 then Some true else isMinimized i)
       (get k (instances s))).
Proof.
  unfold minimizeInstance.
  destruct (get id (instances s)) as [inst|] eqn:G.
  2:{ repeat split; try reflexivity.
      intro k. destruct (get k (instances s)) eqn:Gk; simpl; [|reflexivity].
      destruct (Nat.eqb k id) eqn:E; [|reflexivity].
      apply Nat.eqb_eq in E. subst k. congruence. }
  destruct (flag (isMinimized inst)) eqn:F.
  { repeat split; try reflexivity.
    intro k. destruct (get k (instances s)) eqn:Gk; simpl; [|reflexivity].
    destruct (Nat.eqb k id) eqn:E; [|reflexivity].
    apply Nat.eqb_eq in E. subst k.
    assert (a = inst) by congruence. subst a. rewrite F. reflexivity. }
  set (o1 := set id (withMinimized true false inst) (instances s)).
  assert (K1 : obj_keys o1 = obj_keys (instances s))
    by (eapply keys_set_present, G).
  assert (G1 : forall k, get k o1 =
                 if Nat.eqb k id then Some (withMinimized true false inst)
                 else get k (instances s)).
  { intro k. destruct (Nat.eqb k id) eqn:E.
    - apply Nat.eqb_eq in E. subst k. apply instance_set_same.
    - apply Nat.eqb_neq in E. apply instance_set_other, E. }
  destruct (nextAfterMinimize o1 (instanceOrder s) id) as [nf|] eqn:N; simpl.
  - destruct (nextAfterMinimize_some _ _ _ _ N) as [Nid [i Gi]].
    rewrite Gi.
    repeat split; try reflexivity.
    + rewrite (keys_set_present _ _ _ _ Gi). exact K1.
    + intro k. destruct (Nat.eq_dec k nf) as [->|Nk].
      * rewrite instance_set_same. rewrite G1 in Gi.
        apply Nat.eqb_neq in Nid. rewrite Nid in Gi. rewrite Gi.
        reflexivity.
      * rewrite instance_set_other by exact Nk. rewrite G1.
        destruct (Nat.eqb k id) eqn:E; [|reflexivity].
        apply Nat.eqb_eq in E. subst k. rewrite G. reflexivity.
    + intro k. destruct (Nat.eq_dec k nf) as [->|Nk].
      * rewrite instance_set_same. rewrite G1 in Gi.
        apply Nat.eqb_neq in Nid. rewrite Nid in Gi. rewrite Gi.
        simpl. rewrite Nid. reflexivity.
      * rewrite instance_set_other by exact Nk. rewrite G1.
        destruct (Nat.eqb k id) eqn:E; [|].
        -- apply Nat.eqb_eq in E. subst k. rewrite G. simpl.
           rewrite F. reflexivity.
        -- destruct (get k (instances s)); reflexivity.
  - repeat split; try reflexivity.
    + exact K1.
    + intro k. rewrite G1. destruct (Nat.eqb k id) eqn:E; [|reflexivity].
      apply Nat.eqb_eq in E. subst k. rewrite G. reflexivity.
    + intro k. rewrite G1. destruct (Nat.eqb k id) eqn:E.
      * apply Nat.eqb_eq in E. subst k. rewrite G. simpl.
        rewrite F. reflexivity.
      * destruct (get k (instances s)); reflexivity.
Qed.



Lemma get_clear_others (c k : nat) (o : Instances) :
  get k (map (fun e => if negb (Nat.eqb (fst e) c)
                       then (fst e, withForeground false (snd e))
                       else e) o) =
  option_map (fun v => if negb (Nat.eqb k c) then withForeground false v
                       else v) (get k o).
Proof.
  induction o as [|[k' v'] r IH]; simpl; [reflexivity|].
  unfold get in *. destruct (Nat.eqb k' c) eqn:C; simpl;
    destruct (Nat.eqb k k') eqn:E; simpl; try exact IH.
  - apply Nat.eqb_eq in E. subst k'. rewrite C. reflexivity.
  - apply Nat.eqb_eq in E. subst k'. rewrite C. reflexivity.
Qed.







(** *** What the other actions do and [minimizeInstance] does not *)

Lemma bringInstanceToForeground_unique (id : option nat) (s : AppStoreState) :
  foregroundIsUnique s -> foregroundIsUnique (bringInstanceToForeground id s).
Proof.
  intros U. unfold bringInstanceToForeground.
  destruct id as [x|].
  - destruct (get x (instances s)) eqn:G; [|exact U].
    intros k i Gk F. simpl in *. rewrite get_setForegroundAll in Gk.
    destruct (get k (instances s)); [|discriminate].
    simpl in Gk. injection Gk as <-. simpl in F.
    destruct (Nat.eqb k x) eqn:E; [|discriminate].
    apply Nat.eqb_eq in E. subst. reflexivity.
  - intros k i Gk F. simpl in *. rewrite get_setForegroundAll in Gk.
    destruct (get k (instances s)); [|discriminate].
    simpl in Gk. injection Gk as <-. discriminate.
Qed.

Lemma restoreInstance_unique (id : nat) (s : AppStoreState) :
  foregroundIsUnique s -> foregroundIsUnique (restoreInstance id s).
Proof.
  intros U. unfold restoreInstance.
  destruct (get id (instances s)) as [inst|]; [|exact U].
  destruct (negb (flag (isMinimized inst))); [exact U|].
  intros k i Gk F. simpl in *.
  destruct (Nat.eq_dec k id) as [->|N]; [reflexivity|].
  rewrite instance_set_other in Gk by exact N.
  rewrite get_setForegroundAll in Gk.
  destruct (get k (instances s)); [|discriminate].
  simpl in Gk. injection Gk as <-. discriminate.
Qed.

Lemma markInstanceAsLoaded_unique (id : nat) (s : AppStoreState) :
  foregroundIsUnique s -> foregroundIsUnique (markInstanceAsLoaded id s).
Proof.
  intros U. unfold markInstanceAsLoaded.
  destruct (get id (instances s)) as [inst|]; [|exact U].
  destruct (negb (flag (isLoading inst))); [exact U|].
  intros k i Gk F. simpl in *.
  destruct (Nat.eq_dec k id) as [->|N]; [reflexivity|].
  rewrite instance_set_other in Gk by exact N.
  rewrite get_setForegroundAll in Gk.
  destruct (get k (instances s)); [|discriminate].
  simpl in Gk. injection Gk as <-. simpl in F.
  destruct (Nat.eqb k id) eqn:E; [|discriminate].
  apply Nat.eqb_eq in E. contradiction.
Qed.

Lemma closeAppInstance_unique (id : nat) (s : AppStoreState) :
  foregroundIsUnique s -> foregroundIsUnique (closeAppInstance id s).
Proof.
  intros U. unfold closeAppInstance.
  destruct (get id (instances s)) as [inst|]; [|exact U].
  destruct (negb (isOpen inst)); [exact U|].
  intros k i Gk F. simpl in *. rewrite get_setForegroundAll in Gk.
  destruct (get k (delete id (instances s))); [|discriminate].
  simpl in Gk. injection Gk as <-. simpl in F. unfold idIs in F.
  destruct (nextAfterClose _ _ _) as [nf|]; [|discriminate].
  destruct (Nat.eqb k nf) eqn:E; [|discriminate].
  apply Nat.eqb_eq in E. subst. reflexivity.
Qed.

Lemma createAppInstance_unique (env : Env) (now : Z) (appId_ : string)
    (d : Unknown) (t : option string) (s : AppStoreState) :
  foregroundIsUnique s ->
  foregroundIsUnique (fst (createAppInstance env now appId_ d t s)).
Proof.
  intros U. unfold createAppInstance. cbn [fst].
  destruct (negb (String.eqb appId_ "finder")) eqn:L; cbn [negb];
    intros k i Gk F; cbn [instances foregroundInstanceId] in *.
  - destruct (Nat.eq_dec k (Js.toNumber (nextInstanceId s + 1))) as [->|N].
    + rewrite instance_set_same in Gk. injection Gk as <-. discriminate.
    + rewrite instance_set_other in Gk by exact N. apply (U k i Gk F).
  - rewrite get_clear_others in Gk.
    destruct (Nat.eq_dec k (Js.toNumber (nextInstanceId s + 1))) as [->|N];
      [reflexivity|].
    rewrite instance_set_other in Gk by exact N.
    destruct (get k (instances s)); [|discriminate].
    apply Nat.eqb_neq in N. simpl in Gk. rewrite N in Gk. simpl in Gk.
    injection Gk as <-. discriminate.
Qed.

Lemma refreshInitialData_unique (id : nat) (d : Unknown) (s : AppStoreState) :
  foregroundIsUnique s -> foregroundIsUnique (refreshInitialData id d s).
Proof.
  intros U. unfold refreshInitialData.
  destruct (get id (instances s)) as [i0|] eqn:G; [|exact U].
  intros k i Gk F. simpl in *.
  destruct (Nat.eq_dec k id) as [->|N].
  - rewrite instance_set_same in Gk. injection Gk as <-.
    apply (U id i0 G F).
  - rewrite instance_set_other in Gk by exact N. apply (U k i Gk F).
Qed.

Lemma focusExisting_unique (id : nat) (d : Unknown) (s : AppStoreState) :
  foregroundIsUnique s -> foregroundIsUnique (focusExisting id d s).
Proof.
  intros U. unfold focusExisting.
  destruct (isTruthy d).
  - apply refreshInitialData_unique, bringInstanceToForeground_unique, U.
  - apply bringInstanceToForeground_unique, U.
Qed.

Lemma restoreAll_unique (l : list AppInstance) (s : AppStoreState) :
  foregroundIsUnique s -> foregroundIsUnique (fst (restoreAll l s)).
Proof.
  unfold restoreAll. generalize (@None nat).
  revert s. induction l as [|x l IH]; intros s o U; simpl; [exact U|].
  destruct (flag (isMinimized x)).
  - apply IH. simpl. apply restoreInstance_unique, U.
  - apply IH, U.
Qed.

Lemma launchApp_unique (env : Env) (now : Z) (appId_ : string)
    (d : Unknown) (t : option string) (m : bool) (s : AppStoreState) :
  foregroundIsUnique s ->
  foregroundIsUnique (fst (launchApp env now appId_ d t m s)).
Proof.
  intros U.
  assert (T : foregroundIsUnique (fst (launchOrFocus env now appId_ d t m s))).
  { unfold launchOrFocus. destruct (supportsMultiWindow appId_ m).
    - apply createAppInstance_unique, U.
    - destruct (find _ _).
      + simpl. apply focusExisting_unique, U.
      + apply createAppInstance_unique, U. }
  unfold launchApp. destruct (_ && _); [|exact T].
  pose proof (restoreAll_unique
                (filter (openOfApp appId_) (obj_values (instances s))) s U)
    as R.
  destruct (restoreAll _ s) as [live [lastId|]]; [|exact T].
  simpl in *. apply focusExisting_unique, R.
Qed.

(** X7.  Every action but [minimizeInstance] keeps the foreground flag
    on the instance that [foregroundInstanceId] names, and on no other. *)
Lemma other_actions_keep_foreground_unique (env : Env) (now : Z)
    (a : Action) (s : AppStoreState) :
  isMinimizeAction a = false ->
  foregroundIsUnique s -> foregroundIsUnique (perform env now s a).
Proof.
  intros M U. destruct a; simpl; try discriminate.
  - apply createAppInstance_unique, U.
  - apply launchApp_unique, U.
  - apply bringInstanceToForeground_unique, U.
  - apply markInstanceAsLoaded_unique, U.
  - apply restoreInstance_unique, U.
  - apply closeAppInstance_unique, U.
Qed.

(** C1. Foreground exclusivity does not survive every sequence of
    actions.  After [twoForegroundsRun] the instances 1 and 2 both carry
    [isForeground = true]: [minimizeInstance] hands the foreground to
    instance 2 and does not take it from instance 1.  After
    [minimizedForegroundRun] the only instance left is in the foreground
    and minimized: [closeAppInstance] picks it without looking at
    [isMinimized]. *)
Theorem foreground_exclusivity_runs :
  map instanceId
    (foregroundInstances
       (performAll desktopEnv 0 twoForegroundsRun initialState)) = [1; 2] /\
  foregroundInstanceId
    (performAll desktopEnv 0 twoForegroundsRun initialState) = Some 2 /\
  map (fun i => (instanceId i, isOpen i, isMinimized i))
    (foregroundInstances
       (performAll desktopEnv 0 minimizedForegroundRun initialState)) =
    [(1, true, Some true)].
Proof. repeat split; reflexivity. Qed.

End AppStoreFacts.

(** ** Strings *)

Module JsFacts.

Lemma append_assoc (a b c : string) : ((a ++ b) ++ c = a ++ (b ++ c))%string.
Proof. induction a as [|x a IH]; simpl; [reflexivity | rewrite IH; reflexivity]. Qed.

Lemma length_append (a b : string) :
  String.length (a ++ b) = String.length a + String.length b.
Proof. induction a as [|x a IH]; simpl; [reflexivity | rewrite IH; reflexivity]. Qed.

Lemma append_empty_r (a : string) : (a ++ "")%string = a.
Proof. induction a as [|x a IH]; simpl; [reflexivity | rewrite IH; reflexivity]. Qed.

Lemma append_inv_head (a b c : string) : (a ++ b = a ++ c)%string -> b = c.
Proof.
  induction a as [|x a IH]; simpl; [auto|].
  intro H. injection H as H. apply IH, H.
Qed.

Lemma append_eq_self (a b : string) : (a ++ b)%string = a -> b = ""%string.
Proof.
  intro H. apply (append_inv_head a). rewrite append_empty_r. exact H.
Qed.

Lemma startsWith_append (p r : string) : Js.startsWith (p ++ r) p = true.
Proof.
  unfold Js.startsWith. induction p as [|x p IH]; simpl.
  - destruct r; reflexivity.
  - destruct (ascii_dec x x); [exact IH | contradiction].
Qed.

Lemma startsWith_split (s p : string) :
  Js.startsWith s p = true ->
  s = (p ++ Js.substringFrom (String.length p) s)%string.
Proof.
  unfold Js.startsWith. revert s. induction p as [|x p IH]; intros s H.
  - reflexivity.
  - destruct s as [|y s]; simpl in H; [discriminate|].
    destruct (ascii_dec x y); [|discriminate]. subst y.
    simpl. f_equal. apply IH, H.
Qed.

Lemma substringFrom_append (a b : string) :
  Js.substringFrom (String.length a) (a ++ b) = b.
Proof. induction a as [|x a IH]; simpl; [destruct b; reflexivity | exact IH]. Qed.

Lemma startsWith_trans (s p q : string) :
  Js.startsWith s p = true -> Js.startsWith p q = true ->
  Js.startsWith s q = true.
Proof.
  intros H1 H2. apply startsWith_split in H1. apply startsWith_split in H2.
  rewrite H1, H2, append_assoc. apply startsWith_append.
Qed.

(** The part of a key below [dir + "/"], as [renameItem] and [moveItem]
    cut it off: it starts with the slash. *)
Lemma relative_suffix (k dir : string) :
  Js.startsWith k (dir ++ "/") = true ->
  exists r, k = (dir ++ "/" ++ r)%string /\
            Js.substringFrom (String.length dir) k = ("/" ++ r)%string.
Proof.
  intro H. apply startsWith_split in H.
  exists (Js.substringFrom (String.length (dir ++ "/")) k).
  rewrite append_assoc in H. split; [exact H|].
  rewrite H at 1. apply substringFrom_append.
Qed.

Lemma append_inv_tail (a b c : string) : (a ++ c = b ++ c)%string -> a = b.
Proof.
  revert b. induction a as [|x a IH]; intros b H.
  - destruct b as [|y b]; [reflexivity|].
    apply (f_equal String.length) in H. simpl in H.
    rewrite length_append in H. lia.
  - destruct b as [|y b].
    + apply (f_equal String.length) in H. simpl in H.
      rewrite length_append in H. lia.
    + simpl in H. injection H as -> H. f_equal. apply IH, H.
Qed.

Lemma toString_inj (n m : nat) : Js.toString n = Js.toString m -> n = m.
Proof.
  unfold Js.toString. intro H.
  apply DecimalNat.Unsigned.to_uint_inj.
  pose proof (DecimalString.NilEmpty.usu (Nat.to_uint n)) as A.
  pose proof (DecimalString.NilEmpty.usu (Nat.to_uint m)) as B.
  rewrite H in A. rewrite A in B. injection B as B. exact B.
Qed.

(** *** Integers held as doubles *)

Lemma roundToDouble_small (m : N) :
  (m < 9007199254740992)%N -> Js.roundToDouble m = m.
Proof.
  intro H. unfold Js.roundToDouble.
  destruct (N.ltb_spec (N.log2 m) 53) as [L|L]; [reflexivity|].
  exfalso. destruct (N.eq_dec m 0) as [->|Z]; [cbn in L; lia|].
  assert (P : (0 < m)%N) by lia.
  change 9007199254740992%N with (2 ^ 53)%N in H.
  apply (N.log2_lt_pow2 m 53 P) in H. lia.
Qed.

Lemma roundToDouble_ge (m : N) :
  (9007199254740992 <= m)%N -> (9007199254740992 <= Js.roundToDouble m)%N.
Proof.
  intro H. unfold Js.roundToDouble.
  destruct (N.ltb_spec (N.log2 m) 53) as [L|L]; [exact H|].
  set (k := (N.log2 m - 52)%N).
  set (q := N.shiftr m k).
  assert (P : (0 < m)%N) by lia.
  destruct (N.log2_spec m P) as [Lo _].
  assert (K1 : (1 <= k)%N) by (unfold k; lia).
  assert (E : N.log2 m = (52 + k)%N) by (unfold k; lia).
  rewrite E, N.pow_add_r in Lo.
  assert (Q : (2 ^ 52 <= q)%N).
  { unfold q. rewrite N.shiftr_div_pow2.
    apply N.div_le_lower_bound; [apply N.pow_nonzero; discriminate|].
    rewrite N.mul_comm. exact Lo. }
  assert (K2 : (2 ^ 1 <= 2 ^ k)%N) by (apply N.pow_le_mono_r; [discriminate|exact K1]).
  rewrite N.shiftl_mul_pow2.
  change 9007199254740992%N with (2 ^ 52 * 2 ^ 1)%N.
  apply N.mul_le_mono; [|exact K2].
  destruct (_ || _); lia.
Qed.

Lemma toNumber_exact (n : nat) :
  (N.of_nat n <= 9007199254740992)%N -> Js.toNumber n = n.
Proof.
  intro H. unfold Js.toNumber.
  destruct (N.eq_dec (N.of_nat n) 9007199254740992) as [E|E].
  - rewrite E. change (Js.roundToDouble 9007199254740992) with 9007199254740992%N.
    rewrite <- E. apply Nat2N.id.
  - rewrite roundToDouble_small by lia. apply Nat2N.id.
Qed.

Lemma toNumber_succ_safe (n : nat) :
  Js.isSafeInteger n = true -> Js.toNumber (n + 1) = n + 1.
Proof.
  unfold Js.isSafeInteger. intro H. apply N.ltb_lt in H.
  apply toNumber_exact. lia.
Qed.

Lemma toNumber_succ_unsafe (n : nat) :
  Js.isSafeInteger n = false ->
  Js.isSafeInteger (Js.toNumber (n + 1)) = false.
Proof.
  unfold Js.isSafeInteger, Js.toNumber. intro H. apply N.ltb_ge in H.
  apply N.ltb_ge. rewrite N2Nat.id. apply roundToDouble_ge. lia.
Qed.

Lemma toNumber_past_safe (n : nat) :
  N.of_nat n = 9007199254740992%N -> Js.toNumber (n + 1) = n.
Proof.
  intro E. unfold Js.toNumber.
  replace (N.of_nat (n + 1)) with 9007199254740993%N by lia.
  change (Js.roundToDouble 9007199254740993) with 9007199254740992%N.
  rewrite <- E. apply Nat2N.id.
Qed.

End JsFacts.

(** ** The metadata store *)

Module FilesStoreFacts.

Import FilesStore.
Import JsFacts.

Lemma get_set_same (k : string) (v : FileSystemItem) (o : Items) :
  get k (set k v o) = Some v.
Proof. apply obj_get_set_same, String.eqb_eq. Qed.

Lemma get_set_other (k k0 : string) (v : FileSystemItem) (o : Items) :
  k0 <> k -> get k0 (set k v o) = get k0 o.
Proof. apply obj_get_set_other, String.eqb_eq. Qed.

Lemma get_delete_same (k : string) (o : Items) : get k (delete k o) = None.
Proof. apply obj_get_delete_same. Qed.

Lemma get_delete_other (k k0 : string) (o : Items) :
  k0 <> k -> get k0 (delete k o) = get k0 o.
Proof. apply obj_get_delete_other, String.eqb_eq. Qed.

Lemma get_set (k k0 : string) (v : FileSystemItem) (o : Items) :
  get k0 (set k v o) = if String.eqb k0 k then Some v else get k0 o.
Proof.
  destruct (String.eqb_spec k0 k) as [->|N].
  - apply get_set_same.
  - apply get_set_other, N.
Qed.

Lemma get_delete (k k0 : string) (o : Items) :
  get k0 (delete k o) = if String.eqb k0 k then None else get k0 o.
Proof.
  destruct (String.eqb_spec k0 k) as [->|N].
  - apply get_delete_same.
  - apply get_delete_other, N.
Qed.

Lemma get_In_keys (k : string) (v : FileSystemItem) (o : Items) :
  get k o = Some v -> In k (obj_keys o).
Proof. apply obj_get_In_keys, String.eqb_eq. Qed.

Lemma keys_get (k : string) (o : Items) :
  In k (obj_keys o) -> exists v, get k o = Some v.
Proof. apply obj_keys_get, String.eqb_eq. Qed.

Lemma status_eqb_eq (a b : Status) : status_eqb a b = true <-> a = b.
Proof. destruct a, b; simpl; split; congruence. Qed.

(** A loop keeps what each of its rounds keeps. *)
Lemma fold_left_keeps {A B : Type} (P : A -> Prop) (f : A -> B -> A)
    (l : list B) (init : A) :
  P init -> (forall acc e, In e l -> P acc -> P (f acc e)) ->
  P (fold_left f l init).
Proof.
  revert init. induction l as [|x l IH]; intros init H0 Hstep; simpl.
  - exact H0.
  - apply IH.
    + apply Hstep; [left; reflexivity | exact H0].
    + intros acc e Hin. apply Hstep. right. exact Hin.
Qed.

(** *** [addItem] *)

Lemma parentUnusable_iff (o : Items) (parentPath : string) :
  parentUnusable o parentPath = true <->
  parentPath <> "/"%string /\
  (get parentPath o = None \/
   exists par, get parentPath o = Some par /\
               (isDirectory par = false \/ status par = trashed)).
Proof.
  unfold parentUnusable.
  destruct (String.eqb_spec parentPath "/") as [->|N]; simpl.
  - split; [discriminate | intros [H _]; contradiction].
  - destruct (get parentPath o) as [par|].
    + split.
      * intro H. split; [exact N|]. right. exists par. split; [reflexivity|].
        apply orb_prop in H. destruct H as [H|H].
        -- left. destruct (isDirectory par); [discriminate | reflexivity].
        -- right. apply status_eqb_eq, H.
      * intros [_ [H|[par' [E [H|H]]]]]; [discriminate| |];
          injection E as <-.
        -- rewrite H. reflexivity.
        -- rewrite H. simpl. apply orb_true_r.
    + split; [|reflexivity]. intros _. split; [exact N | left; reflexivity].
Qed.

Lemma orNum_twice (a : option Z) (now : Z) :
  Js.orNum (Js.orNum a (Some now)) (Some now) = Js.orNum a (Some now).
Proof.
  destruct a as [z|]; simpl.
  - destruct (Z.eqb z 0) eqn:E; simpl; [|rewrite E; reflexivity].
    destruct (Z.eqb now 0); reflexivity.
  - destruct (Z.eqb now 0); reflexivity.
Qed.

(** C7, as the code has it.  [addItem] returns the state unchanged
    exactly when the parent path is not ["/"] and is missing, not a
    directory, or trashed; an item directly under ["/"] is added without
    any test of its parent.  Otherwise the library becomes [loaded] and
    the path holds an active item: the new item if the path was free,
    else the existing one overlaid with the new one, with the existing
    [uuid] and [createdAt] kept and [modifiedAt] set to the one passed
    or to the current time. *)
Theorem addItem_contract (now : Z) (fresh : string) (d : ItemData)
    (s : FilesStoreState) :
  (parentUnusable (items s) (getParentPath (d_path d)) = true <->
   getParentPath (d_path d) <> "/"%string /\
   (get (getParentPath (d_path d)) (items s) = None \/
    exists par, get (getParentPath (d_path d)) (items s) = Some par /\
                (isDirectory par = false \/ status par = trashed))) /\
  (if parentUnusable (items s) (getParentPath (d_path d))
   then addItem now fresh d s = s
   else
     libraryState (addItem now fresh d s) = loaded /\
     match get (d_path d) (items s) with
     | None =>
         get (d_path d) (items (addItem now fresh d s)) =
           Some (newItemOf now fresh d) /\
         status (newItemOf now fresh d) = active
     | Some existing =>
         exists it,
           get (d_path d) (items (addItem now fresh d s)) = Some it /\
           it = mergeItem now d existing (newItemOf now fresh d) /\
           status it = active /\
           (forall u, uuid existing = Some u -> u <> ""%string ->
                      uuid it = Some u) /\
           (forall c, createdAt existing = Some c -> c <> 0%Z ->
                      createdAt it = Some c) /\
           modifiedAt it = Js.orNum (read (d_modifiedAt d)) (Some now)
     end).
Proof.
  split; [apply parentUnusable_iff|].
  unfold addItem.
  change (path (newItemOf now fresh d)) with (d_path d).
  destruct (parentUnusable (items s) (getParentPath (d_path d)));
    [reflexivity|].
  destruct (get (d_path d) (items s)) as [existing|] eqn:G.
  - split; [reflexivity|]. simpl. rewrite get_set_same.
    eexists. split; [reflexivity|]. split; [reflexivity|].
    split; [reflexivity|]. simpl. split; [|split].
    + intros u Hu Hne. rewrite Hu. simpl.
      apply String.eqb_neq in Hne. unfold Js.truthy. rewrite Hne. reflexivity.
    + intros c Hc Hne. rewrite Hc. simpl.
      apply Z.eqb_neq in Hne. rewrite Hne. reflexivity.
    + apply orNum_twice.
  - split.
    + destruct (get "/Trash" (items s)) as [tr|]; [|reflexivity].
      destruct (_ && _); reflexivity.
    + split; [|reflexivity].
      destruct (get "/Trash" (items s)) as [tr|]; simpl;
        [|apply get_set_same].
      destruct (String.eqb (getParentPath (d_path d)) "/Trash") eqn:E;
        simpl; [|apply get_set_same].
      destruct (negb _); [|apply get_set_same].
      rewrite get_set_other; [apply get_set_same|].
      intro Heq. rewrite Heq in E. discriminate.
Qed.

Lemma addItem_contract_witness :
  getParentPath "/Notes.txt" = "/"%string /\
  get "/Notes.txt"
    (items (addItem 7 "uuid-1" (plainData "/Notes.txt" "Notes.txt" false)
              clearedStore)) =
    Some (newItemOf 7 "uuid-1" (plainData "/Notes.txt" "Notes.txt" false)).
Proof.
  split; [reflexivity|].
  exact (proj1 (proj2 (proj2 (addItem_contract 7 "uuid-1"
                                (plainData "/Notes.txt" "Notes.txt" false)
                                clearedStore)))).
Defined.

(** C7, as stated, fails in a cleared store: the parent ["/"] of
    ["/Notes.txt"] does not exist, and the item is added all the same. *)
Lemma addItem_root_parent_missing :
  get (getParentPath "/Notes.txt") (items clearedStore) = None /\
  addItem 7 "uuid-1" (plainData "/Notes.txt" "Notes.txt" false) clearedStore
    <> clearedStore.
Proof. split; [reflexivity | discriminate]. Qed.

(** *** [moveItem] *)


Lemma moveItem_refused (src dst : string) (s : FilesStoreState) :
  moveRefused (items s) src dst = true -> moveItem src dst s = (s, false).
Proof.
  unfold moveRefused, moveItem.
  destruct (get src (items s)) as [it|]; [|reflexivity].
  destruct (negb (status_eqb (status it) active)); [reflexivity|]. simpl.
  destruct (get (getParentPath dst) (items s)) as [par|]; [|reflexivity].
  destruct (negb (isDirectory par)); [reflexivity|]. simpl.
  destruct (get dst (items s)); [reflexivity|]. simpl.
  destruct (isDirectory it && Js.startsWith dst (src ++ "/"));
    [reflexivity | discriminate].
Qed.

(** The items of the store after a move that is not refused *)
Lemma moveItem_moved (src dst : string) (s : FilesStoreState) :
  moveRefused (items s) src dst = false ->
  exists it,
    get src (items s) = Some it /\ get dst (items s) = None /\
    moveItem src dst s =
      (mkStore
         (if isDirectory it
          then fold_left (moveChild (items s) src dst)
                 (obj_keys (items s))
                 (set dst (withPath dst it) (delete src (items s)))
          else set dst (withPath dst it) (delete src (items s)))
         (libraryState s), true).
Proof.
  unfold moveRefused, moveItem.
  destruct (get src (items s)) as [it|]; [|discriminate].
  destruct (negb (status_eqb (status it) active)); [discriminate|]. simpl.
  destruct (get (getParentPath dst) (items s)) as [par|]; [|discriminate].
  destruct (negb (isDirectory par)); [discriminate|]. simpl.
  destruct (get dst (items s)); [discriminate|]. simpl.
  destruct (isDirectory it && Js.startsWith dst (src ++ "/")) eqn:E;
    [discriminate|].
  intros _. exists it. auto.
Qed.

Lemma child_path_longer (dst k src : string) :
  Js.startsWith k (src ++ "/") = true ->
  (dst ++ Js.substringFrom (String.length src) k)%string <> dst.
Proof.
  intros H E. destruct (relative_suffix _ _ H) as [r [_ R]].
  rewrite R in E. apply append_eq_self in E. discriminate.
Qed.

Lemma child_path_below (dst k src : string) :
  Js.startsWith k (src ++ "/") = true ->
  Js.startsWith (dst ++ Js.substringFrom (String.length src) k) (dst ++ "/")
  = true.
Proof.
  intro H. destruct (relative_suffix _ _ H) as [r [_ R]].
  rewrite R. rewrite <- append_assoc. apply startsWith_append.
Qed.

Lemma moveChild_keeps_destination (o acc : Items) (src dst k : string)
    (v : FileSystemItem) :
  get dst o = None -> In k (obj_keys o) ->
  get dst acc = Some v -> get dst (moveChild o src dst acc k) = Some v.
Proof.
  intros Hfree Hin Hacc. unfold moveChild.
  destruct (Js.startsWith k (src ++ "/")) eqn:P; [|exact Hacc].
  destruct (get k o) as [c|] eqn:Gk; [|exact Hacc].
  rewrite get_set_other.
  - rewrite get_delete_other; [exact Hacc|].
    intro E. subst k. congruence.
  - intro E. symmetry in E. revert E. apply child_path_longer, P.
Qed.


(** *** [removeItem] and [restoreItem] *)

Lemma existsb_eqb_In (k : string) (ps : list string) :
  existsb (String.eqb k) ps = true <-> In k ps.
Proof.
  rewrite existsb_exists. split.
  - intros [x [Hin E]]. apply String.eqb_eq in E. subst x. exact Hin.
  - intro H. exists k. split; [exact H | apply String.eqb_refl].
Qed.

Lemma removeOne_get (perm : bool) (now : string -> Z) (acc : Items)
    (p k : string) :
  get k (removeOne perm now acc p) =
  if String.eqb k p then removedAs perm now k (get k acc) else get k acc.
Proof.
  unfold removeOne, removedAs.
  destruct (String.eqb_spec k p) as [->|N].
  - destruct (get p acc) as [c|] eqn:G; [|exact G].
    destruct perm; [apply get_delete_same|].
    destruct (status_eqb (status c) active); [apply get_set_same | exact G].
  - destruct (get p acc) as [c|]; [|reflexivity].
    destruct perm; [apply get_delete_other, N|].
    destruct (status_eqb (status c) active);
      [apply get_set_other, N | reflexivity].
Qed.

Lemma removedAs_twice (perm : bool) (now : string -> Z) (k : string)
    (x : option FileSystemItem) :
  removedAs perm now k (removedAs perm now k x) = removedAs perm now k x.
Proof.
  unfold removedAs. destruct x as [c|]; [|reflexivity].
  destruct perm; [reflexivity|].
  destruct (status_eqb (status c) active) eqn:E; simpl; [reflexivity|].
  rewrite E. reflexivity.
Qed.

Lemma fold_removeOne_get (perm : bool) (now : string -> Z)
    (ps : list string) (acc : Items) (k : string) :
  get k (fold_left (removeOne perm now) ps acc) =
  if existsb (String.eqb k) ps then removedAs perm now k (get k acc)
  else get k acc.
Proof.
  revert acc. induction ps as [|p ps IH]; intro acc; simpl; [reflexivity|].
  rewrite IH, removeOne_get.
  destruct (String.eqb k p); simpl; [|reflexivity].
  destruct (existsb (String.eqb k) ps); [apply removedAs_twice | reflexivity].
Qed.

Lemma itemsToDelete_spec (o : Items) (p : string) (it : FileSystemItem)
    (k : string) :
  existsb (String.eqb k) (itemsToDelete o p it) =
  String.eqb k p ||
  (isDirectory it && Js.startsWith k (p ++ "/") &&
   existsb (String.eqb k) (obj_keys o)).
Proof.
  unfold itemsToDelete. simpl. f_equal.
  destruct (isDirectory it); simpl; [|reflexivity].
  destruct (existsb (String.eqb k) (filter _ _)) eqn:E.
  - apply existsb_eqb_In in E. apply filter_In in E. destruct E as [E1 E2].
    rewrite E2. simpl. symmetry. apply existsb_eqb_In, E1.
  - destruct (Js.startsWith k (p ++ "/")) eqn:P; simpl; [|reflexivity].
    destruct (existsb (String.eqb k) (obj_keys o)) eqn:E'; [|reflexivity].
    apply existsb_eqb_In in E'.
    assert (In k (filter (fun q => Js.startsWith q (p ++ "/")) (obj_keys o)))
      by (apply filter_In; auto).
    apply existsb_eqb_In in H. congruence.
Qed.

Lemma not_key_get_none (o : Items) (k : string) :
  existsb (String.eqb k) (obj_keys o) = false -> get k o = None.
Proof.
  intro H. destruct (get k o) eqn:G; [|reflexivity].
  apply get_In_keys, existsb_eqb_In in G. congruence.
Qed.

Lemma updateTrashIcon_get (o : Items) (k : string) :
  get k (updateTrashIcon o) =
  if String.eqb k "/Trash"
  then option_map
         (withIcon (Some (if trashIsEmpty o then trashEmpty else trashFull)))
         (get k o)
  else get k o.
Proof.
  unfold updateTrashIcon.
  destruct (String.eqb_spec k "/Trash") as [->|N].
  - destruct (get "/Trash" o) as [tr|] eqn:G; simpl; [|exact G].
    apply get_set_same.
  - destruct (get "/Trash" o); [apply get_set_other, N | reflexivity].
Qed.

(** The items under every key after the loop of [removeItem] *)
Lemma removeItem_loop_get (o : Items) (p : string) (it : FileSystemItem)
    (perm : bool) (now : string -> Z) (k : string) :
  get k (fold_left (removeOne perm now) (itemsToDelete o p it) o) =
  if inSubtree p it k then removedAs perm now k (get k o) else get k o.
Proof.
  rewrite fold_removeOne_get, itemsToDelete_spec. unfold inSubtree.
  destruct (String.eqb k p); simpl; [reflexivity|].
  destruct (isDirectory it && Js.startsWith k (p ++ "/")); simpl;
    [|reflexivity].
  destruct (existsb (String.eqb k) (obj_keys o)) eqn:E; [reflexivity|].
  rewrite (not_key_get_none _ _ E). reflexivity.
Qed.



Lemma restoreOne_get (acc : Items) (p k : string) :
  get k (restoreOne acc p) =
  if String.eqb k p then restoredAs (get k acc) else get k acc.
Proof.
  unfold restoreOne, restoredAs.
  destruct (String.eqb_spec k p) as [->|N].
  - destruct (get p acc) as [c|] eqn:G; simpl; [|exact G].
    destruct (status_eqb (status c) trashed); [apply get_set_same | exact G].
  - destruct (get p acc) as [c|]; [|reflexivity].
    destruct (status_eqb (status c) trashed);
      [apply get_set_other, N | reflexivity].
Qed.

Lemma restoredAs_twice (x : option FileSystemItem) :
  restoredAs (restoredAs x) = restoredAs x.
Proof.
  unfold restoredAs. destruct x as [c|]; [|reflexivity]. simpl.
  destruct (status_eqb (status c) trashed) eqn:E; simpl;
    [reflexivity | rewrite E; reflexivity].
Qed.

Lemma fold_restoreOne_get (ps : list string) (acc : Items) (k : string) :
  get k (fold_left restoreOne ps acc) =
  if existsb (String.eqb k) ps then restoredAs (get k acc) else get k acc.
Proof.
  revert acc. induction ps as [|p ps IH]; intro acc; simpl; [reflexivity|].
  rewrite IH, restoreOne_get.
  destruct (String.eqb k p); simpl; [|reflexivity].
  destruct (existsb (String.eqb k) ps); [apply restoredAs_twice | reflexivity].
Qed.

Lemma itemsToRestore_spec (o : Items) (p : string) (it : FileSystemItem)
    (k : string) :
  existsb (String.eqb k) (itemsToRestore o p it) =
  String.eqb k p ||
  (isDirectory it && Js.startsWith k (p ++ "/") &&
   match get k o with
   | Some c => status_eqb (status c) trashed
   | None => false
   end).
Proof.
  unfold itemsToRestore. simpl. f_equal.
  destruct (isDirectory it); simpl; [|reflexivity].
  destruct (existsb (String.eqb k) (filter _ _)) eqn:E.
  - apply existsb_eqb_In in E. apply filter_In in E. destruct E as [_ E].
    symmetry. exact E.
  - destruct (Js.startsWith k (p ++ "/")) eqn:P; simpl; [|reflexivity].
    destruct (get k o) as [c|] eqn:G; [|reflexivity].
    destruct (status_eqb (status c) trashed) eqn:T; [|reflexivity].
    assert (In k (filter
                    (fun q => Js.startsWith q (p ++ "/") &&
                              match get q o with
                              | Some c => status_eqb (status c) trashed
                              | None => false
                              end) (obj_keys o))).
    { apply filter_In. split; [eapply get_In_keys, G|].
      rewrite P, G, T. reflexivity. }
    apply existsb_eqb_In in H. congruence.
Qed.

(** The items under every key after the loop of [restoreItem] *)
Lemma restoreItem_loop_get (o : Items) (p : string) (it : FileSystemItem)
    (k : string) :
  get k (fold_left restoreOne (itemsToRestore o p it) o) =
  if inSubtree p it k then restoredAs (get k o) else get k o.
Proof.
  rewrite fold_restoreOne_get, itemsToRestore_spec. unfold inSubtree.
  destruct (String.eqb k p); simpl; [reflexivity|].
  destruct (isDirectory it && Js.startsWith k (p ++ "/")); simpl;
    [|reflexivity].
  unfold restoredAs. destruct (get k o) as [c|]; [|reflexivity]. simpl.
  destruct (status_eqb (status c) trashed); reflexivity.
Qed.

Lemma restoreItem_get (p : string) (s : FilesStoreState)
    (it : FileSystemItem) (k : string) :
  get p (items s) = Some it -> status it = trashed ->
  get k (items (restoreItem p s)) =
  (if String.eqb k "/Trash"
   then option_map
          (withIcon
             (Some (if trashIsEmpty
                         (fold_left restoreOne
                            (itemsToRestore (items s) p it) (items s))
                    then trashEmpty else trashFull)))
   else fun x => x)
    (if inSubtree p it k then restoredAs (get k (items s))
     else get k (items s)).
Proof.
  intros G T. unfold restoreItem. rewrite G, T.
  cbn [status_eqb negb items].
  rewrite updateTrashIcon_get, restoreItem_loop_get.
  destruct (String.eqb k "/Trash"); reflexivity.
Qed.

Lemma removeItem_get (p : string) (permanent : bool) (now : string -> Z)
    (s : FilesStoreState) (it : FileSystemItem) (k : string) :
  get p (items s) = Some it ->
  get k (items (fst (removeItem p permanent now s))) =
  (if String.eqb k "/Trash"
   then option_map
          (withIcon
             (Some (if trashIsEmpty
                         (fold_left
                            (removeOne
                               (permanent || status_eqb (status it) trashed)
                               now)
                            (itemsToDelete (items s) p it) (items s))
                    then trashEmpty else trashFull)))
   else fun x => x)
    (if inSubtree p it k
     then removedAs (permanent || status_eqb (status it) trashed) now k
            (get k (items s))
     else get k (items s)).
Proof.
  intro G. unfold removeItem. rewrite G. cbn [fst items].
  rewrite updateTrashIcon_get, removeItem_loop_get.
  destruct (String.eqb k "/Trash"); reflexivity.
Qed.

(** *** Renaming and moving a directory *)

Lemma startsWith_self_slash (p : string) :
  Js.startsWith p (p ++ "/") = false.
Proof.
  destruct (Js.startsWith p (p ++ "/")) eqn:E; [|reflexivity].
  apply startsWith_split in E.
  apply (f_equal String.length) in E.
  rewrite !length_append in E. simpl in E. lia.
Qed.

Lemma below_split (k p : string) :
  Js.startsWith k (p ++ "/") = true ->
  k = (p ++ Js.substringFrom (String.length p) k)%string.
Proof.
  intro H. destruct (relative_suffix _ _ H) as [r [E R]].
  rewrite R. exact E.
Qed.

Lemma image_source (src dst k : string) :
  Js.startsWith k (src ++ "/") = true ->
  sourceOf src dst (dst ++ Js.substringFrom (String.length src) k) = k.
Proof.
  intro H. unfold sourceOf. rewrite substringFrom_append.
  symmetry. apply below_split, H.
Qed.

Lemma source_image (src dst q : string) :
  Js.startsWith q (dst ++ "/") = true ->
  (dst ++ Js.substringFrom (String.length src) (sourceOf src dst q))%string
  = q /\
  Js.startsWith (sourceOf src dst q) (src ++ "/") = true.
Proof.
  intro H. unfold sourceOf. rewrite substringFrom_append. split.
  - symmetry. apply below_split, H.
  - destruct (relative_suffix _ _ H) as [r [_ R]]. rewrite R.
    rewrite <- append_assoc. apply startsWith_append.
Qed.

Lemma nothingBelow_key (o : Items) (p k : string) :
  nothingBelow o p = true -> In k (obj_keys o) ->
  Js.startsWith k (p ++ "/") = false.
Proof.
  unfold nothingBelow. rewrite forallb_forall. intros H Hin.
  apply H in Hin. destruct (Js.startsWith k (p ++ "/")); [discriminate|].
  reflexivity.
Qed.

(** The items under every key after the loop of [renameItem] or
    [moveItem], when nothing was below the destination. *)
Lemma fold_relocate_get (g : string -> FileSystemItem -> FileSystemItem)
    (o : Items) (src dst : string) :
  nothingBelow o dst = true ->
  forall ks, incl ks (obj_keys o) ->
  forall acc q,
    get q (fold_left (relocateChild g o src dst) ks acc) =
    if Js.startsWith q (dst ++ "/") &&
       existsb (String.eqb (sourceOf src dst q)) ks
    then option_map (g q) (get (sourceOf src dst q) o)
    else if Js.startsWith q (src ++ "/") && existsb (String.eqb q) ks
         then None
         else get q acc.
Proof.
  intros Hfree ks. induction ks as [|k0 ks IH]; intros Hincl acc q.
  - simpl. rewrite !andb_false_r. reflexivity.
  - assert (Hk0 : In k0 (obj_keys o)) by (apply Hincl; left; reflexivity).
    assert (Hks : incl ks (obj_keys o))
      by (intros x Hx; apply Hincl; right; exact Hx).
    cbn [fold_left existsb]. rewrite (IH Hks). clear IH.
    unfold relocateChild.
    destruct (Js.startsWith k0 (src ++ "/")) eqn:K0.
    + (* k0 lies below the source: it moves *)
      destruct (keys_get _ _ Hk0) as [c Gc]. rewrite Gc.
      remember (dst ++ Js.substringFrom (String.length src) k0)%string
        as q0 eqn:Q0.
      assert (F1 : Js.startsWith q0 (dst ++ "/") = true)
        by (subst q0; apply child_path_below, K0).
      assert (F2 : sourceOf src dst q0 = k0)
        by (subst q0; apply image_source, K0).
      rewrite get_set, get_delete.
      destruct (String.eqb_spec q q0) as [->|Nq0].
      * (* q is the new place of k0 *)
        rewrite F1, F2, String.eqb_refl, Gc. cbn [andb orb option_map].
        destruct (existsb (String.eqb k0) ks); [reflexivity|].
        destruct (Js.startsWith q0 (src ++ "/") &&
                  existsb (String.eqb q0) ks) eqn:C; [|reflexivity].
        exfalso. apply andb_prop in C. destruct C as [_ C].
        apply existsb_eqb_In in C. apply Hks in C.
        pose proof (nothingBelow_key _ _ _ Hfree C) as F.
        congruence.
      * assert (P : Js.startsWith q (dst ++ "/") &&
                    (String.eqb (sourceOf src dst q) k0 ||
                     existsb (String.eqb (sourceOf src dst q)) ks) =
                    Js.startsWith q (dst ++ "/") &&
                    existsb (String.eqb (sourceOf src dst q)) ks).
        { destruct (Js.startsWith q (dst ++ "/")) eqn:Sq; [|reflexivity].
          cbn [andb].
          destruct (String.eqb_spec (sourceOf src dst q) k0) as [E|_];
            [|reflexivity].
          exfalso. apply Nq0. rewrite Q0, <- E.
          symmetry. apply (source_image src dst q Sq). }
        rewrite P. clear P.
        destruct (Js.startsWith q (dst ++ "/") &&
                  existsb (String.eqb (sourceOf src dst q)) ks) eqn:C1;
          [reflexivity|].
        destruct (String.eqb_spec q k0) as [->|Nk0].
        -- rewrite K0. cbn [andb orb].
           destruct (existsb (String.eqb k0) ks); reflexivity.
        -- cbn [orb]. reflexivity.
    + (* k0 stays *)
      assert (P : Js.startsWith q (dst ++ "/") &&
                  (String.eqb (sourceOf src dst q) k0 ||
                   existsb (String.eqb (sourceOf src dst q)) ks) =
                  Js.startsWith q (dst ++ "/") &&
                  existsb (String.eqb (sourceOf src dst q)) ks).
      { destruct (Js.startsWith q (dst ++ "/")) eqn:Sq; [|reflexivity].
        cbn [andb].
        destruct (String.eqb_spec (sourceOf src dst q) k0) as [E|_];
          [|reflexivity].
        exfalso. rewrite <- E in K0.
        rewrite (proj2 (source_image src dst q Sq)) in K0. discriminate. }
      rewrite P. clear P.
      assert (T : Js.startsWith q (src ++ "/") &&
                  (String.eqb q k0 || existsb (String.eqb q) ks) =
                  Js.startsWith q (src ++ "/") && existsb (String.eqb q) ks).
      { destruct (Js.startsWith q (src ++ "/")) eqn:Tq; [|reflexivity].
        cbn [andb].
        destruct (String.eqb_spec q k0) as [E|_]; [|reflexivity].
        exfalso. rewrite E in Tq. congruence. }
      rewrite T. reflexivity.
Qed.

(** Where a directory and an item below it end up after the loop *)
Lemma relocate_subtree (g : string -> FileSystemItem -> FileSystemItem)
    (o : Items) (src dst : string) (D D' c : FileSystemItem) (k : string) :
  nothingBelow o dst = true ->
  get src o = Some D -> get dst o = None ->
  get k o = Some c -> Js.startsWith k (src ++ "/") = true ->
  let final :=
    fold_left (relocateChild g o src dst) (obj_keys o)
      (set dst D' (delete src o)) in
  get dst final = Some D' /\
  get (dst ++ Js.substringFrom (String.length src) k) final =
    Some (g (dst ++ Js.substringFrom (String.length src) k)%string c) /\
  get k final = None /\
  get src final = None.
Proof.
  intros Hfree GD Gdst Gk Below final. unfold final.
  assert (Hincl : incl (obj_keys o) (obj_keys o)) by apply incl_refl.
  assert (Kin : existsb (String.eqb k) (obj_keys o) = true)
    by (eapply existsb_eqb_In, get_In_keys, Gk).
  repeat split.
  - rewrite (fold_relocate_get g o src dst Hfree _ Hincl).
    rewrite startsWith_self_slash. cbn [andb].
    destruct (existsb (String.eqb dst) (obj_keys o)) eqn:E.
    + apply existsb_eqb_In, keys_get in E. destruct E as [v E]. congruence.
    + rewrite andb_false_r. apply get_set_same.
  - rewrite (fold_relocate_get g o src dst Hfree _ Hincl).
    rewrite (child_path_below dst k src Below).
    rewrite (image_source _ _ _ Below), Kin, Gk. reflexivity.
  - rewrite (fold_relocate_get g o src dst Hfree _ Hincl).
    rewrite (nothingBelow_key _ _ _ Hfree (get_In_keys _ _ _ Gk)).
    rewrite Below, Kin. reflexivity.
  - rewrite (fold_relocate_get g o src dst Hfree _ Hincl).
    rewrite (nothingBelow_key _ _ _ Hfree (get_In_keys _ _ _ GD)).
    rewrite startsWith_self_slash. cbn [andb].
    rewrite get_set_other by (intro E; subst; congruence).
    apply get_delete_same.
Qed.

Lemma renameItem_renamed (old new nm : string) (s : FilesStoreState)
    (D : FileSystemItem) :
  get old (items s) = Some D -> status D = active ->
  get new (items s) = None ->
  renameItem old new nm s =
  mkStore
    (let first :=
       set new
         (withFields D new nm (icon D) (status D) (originalPath D) (deletedAt D))
         (delete old (items s)) in
     if isDirectory D
     then fold_left (relocateChild renamedChild (items s) old new)
            (obj_keys (items s)) first
     else first)
    (libraryState s).
Proof.
  intros G A N. unfold renameItem. rewrite G, A, N. reflexivity.
Qed.

Lemma retouched_status (b : bool) (ic : option string)
    (x : option FileSystemItem) (c' : FileSystemItem) :
  (if b then option_map (withIcon ic) else fun y => y) x = Some c' ->
  exists c0, x = Some c0 /\ status c' = status c0 /\
             withIcon None c' = withIcon None c0.
Proof.
  destruct b, x as [c0|]; simpl; intro H; try discriminate;
    injection H as <-; exists c0; auto.
Qed.

(** The whole table after a move that is not refused.  For a
    directory it is given when nothing lies below the destination, as in
    a tree in which every item has its parent. *)
Lemma moveItem_table (src dst : string) (s : FilesStoreState)
    (it : FileSystemItem) :
  moveRefused (items s) src dst = false ->
  get src (items s) = Some it ->
  (isDirectory it = true -> nothingBelow (items s) dst = true) ->
  forall q,
    get q (items (fst (moveItem src dst s))) =
    if String.eqb q dst
    then Some (withFields it dst (name it) (icon it) (status it)
                 (originalPath it) (deletedAt it))
    else if isDirectory it && Js.startsWith q (dst ++ "/")
    then option_map
           (fun c => withFields c q (name c) (icon c) (status c)
                       (originalPath c) (deletedAt c))
           (get (sourceOf src dst q) (items s))
    else if String.eqb q src ||
            (isDirectory it && Js.startsWith q (src ++ "/"))
    then None
    else get q (items s).
Proof.
  intros R G Hfree q.
  destruct (moveItem_moved _ _ _ R) as [it0 [G0 [N M]]].
  rewrite G in G0. injection G0 as <-. rewrite M. cbn [fst items].
  destruct (isDirectory it) eqn:D; cbn [andb orb].
  - specialize (Hfree eq_refl).
    change (moveChild (items s) src dst)
      with (relocateChild withPath (items s) src dst).
    rewrite (fold_relocate_get withPath (items s) src dst Hfree _
               (incl_refl _)).
    assert (Kdst : existsb (String.eqb dst) (obj_keys (items s)) = false).
    { destruct (existsb (String.eqb dst) (obj_keys (items s))) eqn:E;
        [|reflexivity].
      apply existsb_eqb_In, keys_get in E. destruct E as [v E].
      congruence. }
    destruct (String.eqb_spec q dst) as [->|Nd].
    + rewrite startsWith_self_slash, Kdst, andb_false_r. cbn [andb].
      apply get_set_same.
    + destruct (Js.startsWith q (dst ++ "/")) eqn:Bd; cbn [andb].
      * assert (Kq : existsb (String.eqb q) (obj_keys (items s)) = false).
        { destruct (existsb (String.eqb q) (obj_keys (items s))) eqn:E;
            [|reflexivity].
          apply existsb_eqb_In in E.
          pose proof (nothingBelow_key _ _ _ Hfree E). congruence. }
        destruct (existsb (String.eqb (sourceOf src dst q))
                    (obj_keys (items s))) eqn:Ks; [reflexivity|].
        rewrite (not_key_get_none _ _ Ks), Kq, andb_false_r.
        rewrite get_set_other by exact Nd. rewrite get_delete.
        rewrite (not_key_get_none _ _ Kq).
        now destruct (String.eqb q src).
      * destruct (Js.startsWith q (src ++ "/")) eqn:Bs; cbn [andb].
        -- rewrite orb_true_r.
           destruct (existsb (String.eqb q) (obj_keys (items s))) eqn:Kq;
             [reflexivity|].
           rewrite get_set_other by exact Nd. rewrite get_delete.
           rewrite (not_key_get_none _ _ Kq).
           now destruct (String.eqb q src).
        -- rewrite orb_false_r. rewrite get_set_other by exact Nd.
           apply get_delete.
  - rewrite get_set, get_delete, !orb_false_r. reflexivity.
Qed.



(** X6.  Where descendants do follow their directory.  Let [D] be a
    directory of the store and [c] an item under a key [k] that starts
    with the path of [D] and a slash.  Trashing [D] leaves both trashed,
    restoring [D] leaves both active.  Renaming or moving [D] to a free
    path with nothing below it puts [D] there and [c] under the same
    relative suffix below it, with its [path] rewritten (after a move
    no other field differs), and frees the keys they had. *)
Theorem descendants_follow_directory (s : FilesStoreState) (d k : string)
    (D c : FileSystemItem)
    (HD : get d (items s) = Some D) (Hdir : isDirectory D = true)
    (Hk : get k (items s) = Some c)
    (Hbelow : Js.startsWith k (d ++ "/") = true) :
  (forall now, status D = active ->
     exists D' c',
       get d (items (fst (removeItem d false now s))) = Some D' /\
       status D' = trashed /\
       get k (items (fst (removeItem d false now s))) = Some c' /\
       status c' = trashed /\
       withIcon None c' =
         withIcon None (if status_eqb (status c) active
                        then markTrashed k (now k) c else c)) /\
  (status D = trashed ->
     exists D' c',
       get d (items (restoreItem d s)) = Some D' /\ status D' = active /\
       get k (items (restoreItem d s)) = Some c' /\ status c' = active /\
       withIcon None c' =
         withIcon None (if status_eqb (status c) trashed
                        then markActive c else c)) /\
  (forall newPath newName,
     status D = active -> get newPath (items s) = None ->
     nothingBelow (items s) newPath = true ->
     get newPath (items (renameItem d newPath newName s)) =
       Some (withFields D newPath newName (icon D) (status D) (originalPath D)
               (deletedAt D)) /\
     get (newPath ++ Js.substringFrom (String.length d) k)
       (items (renameItem d newPath newName s)) =
       Some (renamedChild
               (newPath ++ Js.substringFrom (String.length d) k)%string c) /\
     get k (items (renameItem d newPath newName s)) = None /\
     get d (items (renameItem d newPath newName s)) = None) /\
  (forall dst,
     moveRefused (items s) d dst = false ->
     nothingBelow (items s) dst = true ->
     get dst (items (fst (moveItem d dst s))) =
       Some (withFields D dst (name D) (icon D) (status D) (originalPath D)
               (deletedAt D)) /\
     get (dst ++ Js.substringFrom (String.length d) k)
       (items (fst (moveItem d dst s))) =
       Some (withFields c (dst ++ Js.substringFrom (String.length d) k)
               (name c) (icon c) (status c) (originalPath c) (deletedAt c))
     /\
     get k (items (fst (moveItem d dst s))) = None /\
     get d (items (fst (moveItem d dst s))) = None).
Proof.
  assert (Sub_d : inSubtree d D d = true)
    by (unfold inSubtree; rewrite String.eqb_refl; reflexivity).
  assert (Sub_k : inSubtree d D k = true)
    by (unfold inSubtree; rewrite Hdir, Hbelow; apply orb_true_r).
  split; [|split; [|split]].
  - (* trash *)
    intros now A.
    pose proof (removeItem_get d false now s D d HD) as Ed.
    pose proof (removeItem_get d false now s D k HD) as Ek.
    rewrite Sub_d, HD in Ed. rewrite Sub_k, Hk in Ek.
    rewrite A in Ed, Ek. cbn [status_eqb orb removedAs] in Ed, Ek.
    destruct (get d (items (fst (removeItem d false now s)))) as [D'|];
      [|destruct (String.eqb d "/Trash"); discriminate].
    destruct (get k (items (fst (removeItem d false now s)))) as [c'|];
      [|destruct (String.eqb k "/Trash"); discriminate].
    symmetry in Ed, Ek.
    apply retouched_status in Ed. destruct Ed as [D0 [E1 [E2 _]]].
    apply retouched_status in Ek. destruct Ek as [c0 [E3 [E4 E5]]].
    injection E1 as <-. injection E3 as <-.
    exists D', c'. split; [reflexivity|].
    split; [rewrite E2, A; reflexivity|].
    split; [reflexivity|]. split; [|exact E5].
    rewrite E4. destruct (status c) eqn:Sc; [reflexivity | exact Sc].
  - (* restore *)
    intro T.
    pose proof (restoreItem_get d s D d HD T) as Ed.
    pose proof (restoreItem_get d s D k HD T) as Ek.
    rewrite Sub_d, HD in Ed. rewrite Sub_k, Hk in Ek.
    unfold restoredAs in Ed, Ek. cbn [option_map] in Ed, Ek.
    rewrite T in Ed. cbn [status_eqb] in Ed.
    destruct (get d (items (restoreItem d s))) as [D'|];
      [|destruct (String.eqb d "/Trash"); discriminate].
    destruct (get k (items (restoreItem d s))) as [c'|];
      [|destruct (String.eqb k "/Trash"); discriminate].
    symmetry in Ed, Ek.
    apply retouched_status in Ed. destruct Ed as [D0 [E1 [E2 _]]].
    apply retouched_status in Ek. destruct Ek as [c0 [E3 [E4 E5]]].
    injection E1 as <-. injection E3 as <-.
    exists D', c'. split; [reflexivity|]. split; [exact E2|].
    split; [reflexivity|]. split; [|exact E5].
    rewrite E4. destruct (status c) eqn:Sc; [exact Sc | reflexivity].
  - (* rename *)
    intros newPath newName A N Hfree.
    rewrite (renameItem_renamed _ _ _ _ _ HD A N). cbn [items].
    rewrite Hdir.
    apply (relocate_subtree renamedChild (items s) d newPath D _ c k
             Hfree HD N Hk Hbelow).
  - (* move *)
    intros dst R Hfree.
    destruct (moveItem_moved _ _ _ R) as [D0 [G0 [N M]]].
    rewrite HD in G0. injection G0 as <-.
    rewrite M. cbn [fst items]. rewrite Hdir.
    apply (relocate_subtree withPath (items s) d dst D _ c k
             Hfree HD N Hk Hbelow).
Qed.

Lemma descendants_follow_directory_witness :
  (get "/Documents/Sub" (items sampleStore) =
     Some (dirItem "/Documents/Sub" "Sub") /\
   get "/Documents/Sub/b.txt" (items sampleStore) =
     Some (fileItem "/Documents/Sub/b.txt" "b.txt" "uuid-b") /\
   Js.startsWith "/Documents/Sub/b.txt" ("/Documents/Sub" ++ "/") = true /\
   get "/Documents/Sub2" (items sampleStore) = None /\
   nothingBelow (items sampleStore) "/Documents/Sub2" = true /\
   moveRefused (items sampleStore) "/Documents/Sub" "/Images/Sub" = false /\
   nothingBelow (items sampleStore) "/Images/Sub" = true) /\
  get "/Documents/Sub2/b.txt"
    (items (renameItem "/Documents/Sub" "/Documents/Sub2" "Sub2"
              sampleStore)) =
    Some (fileItem "/Documents/Sub2/b.txt" "b.txt" "uuid-b") /\
  get "/Images/Sub/b.txt"
    (items (fst (moveItem "/Documents/Sub" "/Images/Sub" sampleStore))) =
    Some (fileItem "/Images/Sub/b.txt" "b.txt" "uuid-b") /\
  (exists D' c',
     get "/Documents/Sub"
       (items (fst (removeItem "/Documents/Sub" false noon sampleStore))) =
       Some D' /\ status D' = trashed /\
     get "/Documents/Sub/b.txt"
       (items (fst (removeItem "/Documents/Sub" false noon sampleStore))) =
       Some c' /\ status c' = trashed) /\
  (exists D' c',
     get "/Documents/Sub"
       (items (restoreItem "/Documents/Sub"
                 (fst (removeItem "/Documents/Sub" false noon sampleStore))))
       = Some D' /\ status D' = active /\
     get "/Documents/Sub/b.txt"
       (items (restoreItem "/Documents/Sub"
                 (fst (removeItem "/Documents/Sub" false noon sampleStore))))
       = Some c' /\ status c' = active).
Proof.
  split; [repeat split; reflexivity|].
  pose proof (descendants_follow_directory sampleStore "/Documents/Sub"
                "/Documents/Sub/b.txt" _ _ eq_refl eq_refl eq_refl eq_refl)
    as [Tr [_ [Rn Mv]]].
  pose proof (descendants_follow_directory
                (fst (removeItem "/Documents/Sub" false noon sampleStore))
                "/Documents/Sub" "/Documents/Sub/b.txt" _ _
                eq_refl eq_refl eq_refl eq_refl)
    as [_ [Rs _]].
  split; [exact (proj1 (proj2 (Rn "/Documents/Sub2" "Sub2"
                                  eq_refl eq_refl eq_refl)))|].
  split; [exact (proj1 (proj2 (Mv "/Images/Sub" eq_refl eq_refl)))|].
  split.
  - destruct (Tr noon eq_refl) as [D' [c' [H1 [H2 [H3 [H4 _]]]]]].
    exists D', c'. auto.
  - destruct (Rs eq_refl) as [D' [c' [H1 [H2 [H3 [H4 _]]]]]].
    exists D', c'. auto.
Defined.

(** C5.  Descendant consistency fails for [renameItem] when an item
    lies below the new path.  [strayStore] comes from a library with a
    folder ["/a"] and a file ["/a/x"] in it by one [renameItem], which
    takes a new path in a folder that does not exist.  Renaming ["/a"]
    to ["/a/a"] then succeeds, and afterwards nothing is at ["/a/a/x"]
    and no item has the [uuid] of ["/a/x"]: the loop wrote the file to
    ["/a/a/x"] and, one round later, deleted that key as the old place
    of the stray item.  [moveItem] refuses a destination below the
    source or without a parent directory; [renameItem] tests neither. *)
Lemma rename_loses_descendant :
  strayStore = renameItem "/c" "/a/a/x" "x" folderStore /\
  get "/a" (items strayStore) = Some (dirItem "/a" "a") /\
  get "/a/x" (items strayStore) = Some (fileItem "/a/x" "x" "uuid-x") /\
  Js.startsWith "/a/x" ("/a" ++ "/") = true /\
  obj_keys (items (renameItem "/a" "/a/a" "a" strayStore)) =
    ["/"; "/a/a"; "/a/a/a/x"]%string /\
  get ("/a/a" ++ Js.substringFrom (String.length "/a") "/a/x")
    (items (renameItem "/a" "/a/a" "a" strayStore)) = None /\
  withUuid "uuid-x" (items (renameItem "/a" "/a/a" "a" strayStore)) = [].
Proof. repeat split; reflexivity. Qed.

(** *** [createAlias] *)

Lemma aliasCandidate_inj (name : string) (n m : nat) :
  aliasCandidate name n = aliasCandidate name m -> n = m.
Proof.
  unfold aliasCandidate. intro H.
  apply append_inv_head in H. apply append_inv_head in H.
  apply append_inv_head in H. apply append_inv_tail in H.
  apply toString_inj, H.
Qed.

Lemma isActiveAtPath_key (o : Items) (p : string) :
  isActiveAtPath o p = true -> In p (obj_keys o).
Proof.
  unfold isActiveAtPath. destruct (get p o) eqn:G; [|discriminate].
  intros _. eapply get_In_keys, G.
Qed.

(** A loop that has used up its tests has found an active item at
    every path it tried. *)
Lemma uniqueAliasPath_none (fuel : nat) (o : Items) (name final : string)
    (counter : nat) :
  uniqueAliasPath fuel o name final counter = None ->
  forall i, i < fuel - 1 ->
            isActiveAtPath o (aliasCandidate name (counter + i)) = true.
Proof.
  revert final counter. induction fuel as [|fuel IH]; intros final counter H i Hi.
  - simpl in Hi. lia.
  - simpl in H. destruct (isActiveAtPath o final); [|discriminate].
    destruct fuel as [|fuel']; [simpl in Hi; lia|].
    destruct i as [|j].
    + rewrite Nat.add_0_r. simpl in H.
      destruct (isActiveAtPath o (aliasCandidate name counter));
        [reflexivity | discriminate].
    + replace (counter + S j) with (S counter + j) by lia.
      apply (IH _ _ H). simpl in *. lia.
Qed.

Lemma NoDup_map_injective {A B : Type} (f : A -> B) (l : list A) :
  (forall a b, f a = f b -> a = b) -> NoDup l -> NoDup (map f l).
Proof.
  intros Inj N. induction N as [|x l Hx N IH]; simpl; constructor.
  - intro Hin. apply in_map_iff in Hin. destruct Hin as [y [E Hy]].
    apply Inj in E. subst y. contradiction.
  - exact IH.
Qed.

(** No more paths can hold an active item than the store has keys. *)
Lemma active_candidates_bounded (o : Items) (name : string)
    (counter n : nat) :
  (forall i, i < n ->
             isActiveAtPath o (aliasCandidate name (counter + i)) = true) ->
  n <= List.length o.
Proof.
  intro H.
  pose (l := map (fun i => aliasCandidate name (counter + i)) (seq 0 n)).
  assert (L : List.length l = n) by (unfold l; rewrite length_map, length_seq; reflexivity).
  rewrite <- L.
  replace (List.length o) with (List.length (obj_keys o))
    by (unfold obj_keys; apply length_map).
  apply NoDup_incl_length.
  - unfold l. apply NoDup_map_injective; [|apply seq_NoDup].
    intros a b E. apply aliasCandidate_inj in E. lia.
  - intros p Hp. unfold l in Hp. apply in_map_iff in Hp.
    destruct Hp as [i [<- Hi]]. apply in_seq in Hi.
    apply isActiveAtPath_key, H. lia.
Qed.

Lemma uniqueAliasPath_terminates (fuel : nat) (o : Items)
    (name final : string) (counter : nat) :
  List.length o + 2 <= fuel ->
  exists p, uniqueAliasPath fuel o name final counter = Some p.
Proof.
  intro Hf.
  destruct (uniqueAliasPath fuel o name final counter) as [p|] eqn:U;
    [eauto|].
  exfalso.
  pose proof (active_candidates_bounded o name counter (fuel - 1)
                (uniqueAliasPath_none _ _ _ _ _ U)).
  lia.
Qed.

(** The path the loop ends on: the first that holds no active item
    among the preferred one and the numbered ones after it. *)
Lemma uniqueAliasPath_some (fuel : nat) (o : Items) (name final : string)
    (counter : nat) (p : string) :
  uniqueAliasPath fuel o name final counter = Some p ->
  isActiveAtPath o p = false /\
  ((isActiveAtPath o final = false /\ p = final) \/
   (isActiveAtPath o final = true /\
    exists n, p = aliasCandidate name (counter + n) /\
              forall i, i < n ->
                isActiveAtPath o (aliasCandidate name (counter + i)) = true)).
Proof.
  revert final counter. induction fuel as [|fuel IH]; intros final counter H.
  - discriminate.
  - simpl in H. destruct (isActiveAtPath o final) eqn:A.
    + apply IH in H. destruct H as [Hp [[Hc ->]|[Hc [n [-> Hn]]]]].
      * split; [exact Hp|]. right. split; [reflexivity|].
        exists 0. rewrite Nat.add_0_r. split; [reflexivity|].
        intros i Hi. lia.
      * split; [exact Hp|]. right. split; [reflexivity|].
        exists (S n). split; [f_equal; lia|].
        intros i Hi. destruct i as [|j].
        -- rewrite Nat.add_0_r. exact Hc.
        -- replace (counter + S j) with (S counter + j) by lia.
           apply Hn. lia.
    + injection H as <-. split; [exact A|]. left. auto.
Qed.

Lemma uniqueAliasPath_more_fuel (fuel fuel' : nat) (o : Items)
    (name final : string) (counter : nat) (p : string) :
  uniqueAliasPath fuel o name final counter = Some p -> fuel <= fuel' ->
  uniqueAliasPath fuel' o name final counter = Some p.
Proof.
  revert fuel' final counter.
  induction fuel as [|fuel IH]; intros fuel' final counter H Hle.
  - discriminate.
  - destruct fuel' as [|fuel']; [lia|]. simpl in *.
    destruct (isActiveAtPath o final); [|exact H].
    apply IH; [exact H | lia].
Qed.

Lemma length_delete (k : string) (o : Items) :
  List.length (delete k o) <= List.length o.
Proof.
  induction o as [|[k' v'] r IH]; simpl; [lia|].
  unfold delete in *. simpl. destruct (String.eqb k k'); simpl; lia.
Qed.

Lemma isActiveAtPath_reclaimed (o : Items) (aliasPath p : string) :
  isActiveAtPath (reclaimed o aliasPath) p = isActiveAtPath o p.
Proof.
  unfold reclaimed, isActiveAtPath.
  destruct (get aliasPath o) as [e|] eqn:G; [|reflexivity].
  destruct (status_eqb (status e) trashed) eqn:T; [|reflexivity].
  rewrite get_delete. destruct (String.eqb_spec p aliasPath) as [->|N];
    [|reflexivity].
  rewrite G. apply status_eqb_eq in T. rewrite T. reflexivity.
Qed.

Lemma get_reclaimed_active (o : Items) (aliasPath : string) :
  isActiveAtPath o aliasPath = true -> reclaimed o aliasPath = o.
Proof.
  unfold reclaimed, isActiveAtPath.
  destruct (get aliasPath o) as [e|]; [|reflexivity].
  intro A. apply status_eqb_eq in A. rewrite A. reflexivity.
Qed.

Lemma get_reclaimed_other (o : Items) (aliasPath k : string) :
  k <> aliasPath -> get k (reclaimed o aliasPath) = get k o.
Proof.
  intro N. unfold reclaimed.
  destruct (get aliasPath o) as [e|]; [|reflexivity].
  destruct (status_eqb (status e) trashed); [|reflexivity].
  apply get_delete_other, N.
Qed.

Lemma length_reclaimed (o : Items) (aliasPath : string) :
  List.length (reclaimed o aliasPath) <= List.length o.
Proof.
  unfold reclaimed. destruct (get aliasPath o) as [e|]; [|lia].
  destruct (status_eqb (status e) trashed); [apply length_delete | lia].
Qed.

Lemma createAliasFuel_unfold (fuel : nat) (targetPath aliasName : string)
    (ty : AliasType) (targetAppId : option string) (now : Z)
    (s : FilesStoreState) (desktop : FileSystemItem) :
  get "/Desktop" (items s) = Some desktop -> isDirectory desktop = true ->
  createAliasFuel fuel targetPath aliasName ty targetAppId now s =
  let name := aliasDisplayName (items s) targetPath aliasName ty targetAppId in
  let aliasPath := ("/Desktop/" ++ name)%string in
  match uniqueAliasPath fuel (reclaimed (items s) aliasPath) name aliasPath 1
  with
  | None => None
  | Some finalAliasPath =>
      Some (mkStore
              (set finalAliasPath
                 (aliasItemOf (items s) targetPath name ty targetAppId
                    finalAliasPath now)
                 (reclaimed (items s) aliasPath))
              (libraryState s))
  end.
Proof.
  intros G D. unfold createAliasFuel. rewrite G, D. reflexivity.
Qed.

(** The loop of [createAlias] always ends: the bound on its tests in
    the embedding is never reached. *)
Lemma createAlias_terminates (targetPath aliasName : string)
    (ty : AliasType) (targetAppId : option string) (now : Z)
    (s : FilesStoreState) :
  exists s', createAlias targetPath aliasName ty targetAppId now s = Some s'.
Proof.
  unfold createAlias.
  destruct (get "/Desktop" (items s)) as [desktop|] eqn:G.
  2:{ unfold createAliasFuel. rewrite G. eauto. }
  destruct (isDirectory desktop) eqn:D.
  2:{ unfold createAliasFuel. rewrite G, D. simpl. eauto. }
  rewrite (createAliasFuel_unfold _ _ _ _ _ _ _ _ G D). cbv zeta.
  match goal with
  | |- context [uniqueAliasPath ?f ?o ?n ?p ?c] =>
      destruct (uniqueAliasPath_terminates f o n p c) as [q U]
  end.
  - pose proof (length_reclaimed (items s)
                  ("/Desktop/" ++ aliasDisplayName (items s) targetPath
                                    aliasName ty targetAppId)).
    lia.
  - rewrite U. eauto.
Qed.

(** More tests than [createAlias] allows itself change nothing. *)
Lemma createAliasFuel_enough (fuel : nat) (targetPath aliasName : string)
    (ty : AliasType) (targetAppId : option string) (now : Z)
    (s : FilesStoreState) :
  S (S (List.length (items s))) <= fuel ->
  createAliasFuel fuel targetPath aliasName ty targetAppId now s =
  createAlias targetPath aliasName ty targetAppId now s.
Proof.
  intro Hle. unfold createAlias.
  destruct (get "/Desktop" (items s)) as [desktop|] eqn:G.
  2:{ unfold createAliasFuel. rewrite G. reflexivity. }
  destruct (isDirectory desktop) eqn:D.
  2:{ unfold createAliasFuel. rewrite G, D. reflexivity. }
  rewrite !(createAliasFuel_unfold _ _ _ _ _ _ _ _ G D). cbv zeta.
  set (name := aliasDisplayName (items s) targetPath aliasName ty targetAppId).
  set (aliasPath := ("/Desktop/" ++ name)%string).
  destruct (uniqueAliasPath_terminates (S (S (List.length (items s))))
              (reclaimed (items s) aliasPath) name aliasPath 1)
    as [final U].
  { pose proof (length_reclaimed (items s) aliasPath). lia. }
  rewrite U, (uniqueAliasPath_more_fuel _ fuel _ _ _ _ _ U Hle).
  reflexivity.
Qed.

(** C3, as the code has it.  With a directory at ["/Desktop"],
    [createAlias] ends and adds an active alias below ["/Desktop/"], at
    the first path that holds no active item among the preferred path
    ["/Desktop/" + name] and the numbered ones that follow it, whose
    suffixes start at [" 1"]: ["/Desktop/" + base + " 1" + ext], then
    [" 2"], and so on.  Whatever the chosen path held, a trashed item
    then, is overwritten; every other item stays as it is. *)
Theorem createAlias_contract (targetPath aliasName : string)
    (ty : AliasType) (targetAppId : option string) (now : Z)
    (s : FilesStoreState) (desktop : FileSystemItem)
    (Hdesktop : get "/Desktop" (items s) = Some desktop)
    (Hdir : isDirectory desktop = true) :
  exists s' final,
    createAlias targetPath aliasName ty targetAppId now s = Some s' /\
    libraryState s' = libraryState s /\
    get final (items s') =
      Some (aliasItemOf (items s) targetPath
              (aliasDisplayName (items s) targetPath aliasName ty targetAppId)
              ty targetAppId final now) /\
    (exists alias, get final (items s') = Some alias /\ path alias = final /\
                   status alias = active /\ isDirectory alias = false /\
                   aliasType alias = Some ty) /\
    Js.startsWith final "/Desktop/" = true /\
    isActiveAtPath (items s) final = false /\
    (let name :=
       aliasDisplayName (items s) targetPath aliasName ty targetAppId in
     (isActiveAtPath (items s) ("/Desktop/" ++ name) = false /\
      final = ("/Desktop/" ++ name)%string) \/
     (isActiveAtPath (items s) ("/Desktop/" ++ name) = true /\
      exists n, final = aliasCandidate name (1 + n) /\
                forall i, i < n ->
                  isActiveAtPath (items s) (aliasCandidate name (1 + i))
                  = true)) /\
    (forall k, k <> final -> get k (items s') = get k (items s)).
Proof.
  unfold createAlias.
  rewrite (createAliasFuel_unfold _ _ _ _ _ _ _ _ Hdesktop Hdir). cbv zeta.
  set (name := aliasDisplayName (items s) targetPath aliasName ty targetAppId).
  set (aliasPath := ("/Desktop/" ++ name)%string).
  destruct (uniqueAliasPath_terminates (S (S (List.length (items s))))
              (reclaimed (items s) aliasPath) name aliasPath 1)
    as [final U].
  { pose proof (length_reclaimed (items s) aliasPath). lia. }
  rewrite U.
  destruct (uniqueAliasPath_some _ _ _ _ _ _ U) as [Free Which].
  rewrite isActiveAtPath_reclaimed in Free.
  eexists. exists final. split; [reflexivity|]. cbn [items libraryState].
  split; [reflexivity|]. split; [apply get_set_same|].
  split; [eexists; split; [apply get_set_same|]; repeat split|].
  split.
  { destruct Which as [[_ ->]|[_ [n [-> _]]]].
    - apply startsWith_append.
    - unfold aliasCandidate. apply startsWith_append. }
  split; [exact Free|]. split.
  - destruct Which as [[A ->]|[A [n [-> Hn]]]];
      rewrite isActiveAtPath_reclaimed in A.
    + left. auto.
    + right. split; [exact A|]. exists n. split; [reflexivity|].
      intros i Hi. rewrite <- (isActiveAtPath_reclaimed _ aliasPath).
      apply Hn, Hi.
  - intros k Nk. rewrite get_set_other by exact Nk.
    destruct Which as [[_ ->]|[A _]].
    + apply get_reclaimed_other, Nk.
    + rewrite isActiveAtPath_reclaimed in A.
      rewrite (get_reclaimed_active _ _ A). reflexivity.
Qed.

Lemma createAlias_contract_witness :
  get "/Desktop" (items sampleStore) = Some (dirItem "/Desktop" "Desktop") /\
  isDirectory (dirItem "/Desktop" "Desktop") = true /\
  exists s' final,
    createAlias "/Documents/a.txt" "a.txt" aliasFile None 5 sampleStore
      = Some s' /\
    Js.startsWith final "/Desktop/" = true /\
    isActiveAtPath (items sampleStore) final = false.
Proof.
  split; [reflexivity|]. split; [reflexivity|].
  destruct (createAlias_contract "/Documents/a.txt" "a.txt" aliasFile None 5
              sampleStore (dirItem "/Desktop" "Desktop") eq_refl eq_refl)
    as [s' [final [H1 [_ [_ [_ [H2 [H3 _]]]]]]]].
  exists s', final. auto.
Defined.

(** C3, as stated, fails on the second alias of the same name: it is
    made at ["/Desktop/a 1.txt"], and nothing is at ["/Desktop/a 2.txt"].
    The counter of the loop starts at 1. *)
Lemma createAlias_second_suffix :
  exists s1 s2,
    createAlias "/Documents/a.txt" "a.txt" aliasFile None 5 sampleStore
      = Some s1 /\
    createAlias "/Documents/a.txt" "a.txt" aliasFile None 6 s1 = Some s2 /\
    obj_keys (items s1) =
      (obj_keys (items sampleStore) ++ ["/Desktop/a.txt"%string])%list /\
    obj_keys (items s2) =
      (obj_keys (items sampleStore) ++
         ["/Desktop/a.txt"%string; "/Desktop/a 1.txt"%string])%list /\
    get "/Desktop/a 2.txt" (items s2) = None.
Proof.
  eexists. eexists. split; [reflexivity|]. split; [reflexivity|].
  repeat split; reflexivity.
Qed.

End FilesStoreFacts.

(** ** The facade *)

Module FileSystemFacts.

Import FilesStore.
Import FileSystem.
Import FilesStoreFacts.

Lemma markActive_markTrashed (p : string) (t : Z) (it : FileSystemItem) :
  markActive (markTrashed p t it) = markActive it.
Proof. reflexivity. Qed.

(** C4. An active item of the store, stored under its absolute path,
    comes back from [moveToTrash] followed by [restoreFromTrash] under
    the same path, active, with [originalPath] and [deletedAt] cleared
    and every other field, timestamps included, as it was.  (For ["/"]
    and ["/Trash"] both steps do nothing.) *)
Theorem trash_round_trip (s : FilesStoreState) (it : FileSystemItem)
    (now : string -> Z)
    (Hstored : get (path it) (items s) = Some it)
    (Hactive : status it = active)
    (Habsolute : Js.startsWith (path it) "/" = true) :
  exists r,
    get (path it)
      (items (restoreFromTrash (path it) (moveToTrash (Some it) now s))) =
      Some r /\
    r = (if String.eqb (path it) "/" || String.eqb (path it) "/Trash"
         then it else markActive it) /\
    status r = active /\
    path r = path it /\ name r = name it /\ uuid r = uuid it /\
    type r = type it /\ size r = size it /\
    isDirectory r = isDirectory it /\
    createdAt r = createdAt it /\ modifiedAt r = modifiedAt it /\
    markActive r = markActive it.
Proof.
  assert (Hpath : path it <> ""%string).
  { intro E. rewrite E in Habsolute. discriminate. }
  unfold moveToTrash. rewrite Hactive. cbn [status_eqb].
  rewrite orb_false_r.
  destruct (String.eqb (path it) "/" || String.eqb (path it) "/Trash")
    eqn:Guard.
  - (* the guard of moveToTrash: nothing is trashed, nothing to restore *)
    exists it. unfold restoreFromTrash, getItem. rewrite Hstored, Hactive.
    cbn [status_eqb negb orb]. rewrite Hstored.
    repeat split; reflexivity.
  - apply orb_false_elim in Guard. destruct Guard as [_ NotTrash].
    assert (G1 : get (path it) (items (fst (removeItem (path it) false now s)))
                 = Some (markTrashed (path it) (now (path it)) it)).
    { rewrite (removeItem_get _ _ _ _ it _ Hstored). rewrite NotTrash.
      unfold inSubtree. rewrite String.eqb_refl. cbn [orb].
      rewrite Hstored. unfold removedAs. rewrite Hactive. reflexivity. }
    unfold restoreFromTrash, getItem. rewrite G1.
    cbn [status markTrashed withFields status_eqb negb orb originalPath path].
    assert (T : Js.orStr (Some (path it)) None = Some (path it)).
    { unfold Js.orStr, Js.truthy.
      apply String.eqb_neq in Hpath. rewrite Hpath. reflexivity. }
    rewrite T.
    rewrite (restoreItem_get _ _ _ (path it) G1 eq_refl).
    rewrite NotTrash. unfold inSubtree. rewrite String.eqb_refl. cbn [orb].
    rewrite G1. unfold restoredAs. cbn [option_map status markTrashed withFields
                                        status_eqb].
    rewrite markActive_markTrashed.
    exists (markActive it). repeat split; reflexivity.
Qed.

Lemma trash_round_trip_witness :
  get "/Documents/a.txt" (items sampleStore) =
    Some (fileItem "/Documents/a.txt" "a.txt" "uuid-a") /\
  status (fileItem "/Documents/a.txt" "a.txt" "uuid-a") = active /\
  Js.startsWith "/Documents/a.txt" "/" = true /\
  get "/Documents/a.txt"
    (items (FileSystem.moveToTrash
              (Some (fileItem "/Documents/a.txt" "a.txt" "uuid-a")) noon
              sampleStore)) =
    Some (markTrashed "/Documents/a.txt" 1200
            (fileItem "/Documents/a.txt" "a.txt" "uuid-a")) /\
  get "/Documents/a.txt"
    (items (restoreFromTrash "/Documents/a.txt"
              (FileSystem.moveToTrash
                 (Some (fileItem "/Documents/a.txt" "a.txt" "uuid-a")) noon
                 sampleStore))) =
    Some (fileItem "/Documents/a.txt" "a.txt" "uuid-a").
Proof.
  do 4 (split; [reflexivity|]).
  destruct (trash_round_trip sampleStore
              (fileItem "/Documents/a.txt" "a.txt" "uuid-a") noon
              eq_refl eq_refl eq_refl)
    as [r [G [E _]]].
  rewrite E in G. exact G.
Defined.

End FileSystemFacts.

(** ** Objects entry by entry *)

Section JsObjectEntries.

Variables (K V : Type).
Variable eqb : K -> K -> bool.
Hypothesis eqb_eq : forall a b, eqb a b = true <-> a = b.

Lemma obj_get_In_entry (k : K) (v : V) (o : list (K * V)) :
  obj_get eqb k o = Some v -> In (k, v) o.
Proof.
  induction o as [|[k' v'] r IH]; simpl; [discriminate|].
  destruct (eqb k k') eqn:E.
  - intros [= ->]. apply eqb_eq in E. subst. now left.
  - intro H. right. now apply IH.
Qed.

Lemma obj_In_entry_get (k : K) (v : V) (o : list (K * V)) :
  NoDup (obj_keys o) -> In (k, v) o -> obj_get eqb k o = Some v.
Proof.
  induction o as [|[k' v'] r IH]; simpl; [intros _ []|].
  intros N [H|H].
  - injection H as -> ->. now rewrite (eqb_refl_true _ eqb eqb_eq).
  - inversion N as [|? ? Nk Nr]; subst.
    destruct (eqb k k') eqn:E.
    + apply eqb_eq in E. subst. exfalso. apply Nk.
      change (In (fst (k', v)) (map fst r)). now apply in_map.
    + now apply IH.
Qed.

Lemma obj_In_values_get (v : V) (o : list (K * V)) :
  NoDup (obj_keys o) -> In v (obj_values o) ->
  exists k, obj_get eqb k o = Some v.
Proof.
  intros N H. unfold obj_values in H. apply in_map_iff in H.
  destruct H as [[k v'] [E H]]. simpl in E. subst v'.
  exists k. now apply obj_In_entry_get.
Qed.

Lemma obj_In_keys_delete (k k0 : K) (o : list (K * V)) :
  In k0 (obj_keys (obj_delete eqb k o)) -> In k0 (obj_keys o).
Proof.
  induction o as [|[k' v'] r IH]; simpl; [easy|].
  destruct (eqb k k'); simpl; intuition.
Qed.

Lemma obj_NoDup_delete (k : K) (o : list (K * V)) :
  NoDup (obj_keys o) -> NoDup (obj_keys (obj_delete eqb k o)).
Proof.
  induction o as [|[k' v'] r IH]; simpl; [easy|].
  intro N. inversion N as [|? ? Nk Nr]; subst.
  destruct (eqb k k'); simpl; [now apply IH|].
  constructor; [|now apply IH].
  intro H. apply Nk. now apply obj_In_keys_delete in H.
Qed.

Lemma obj_NoDup_replace (k : K) (v : V) (o : list (K * V)) :
  NoDup (obj_keys o) -> NoDup (obj_keys (obj_replace eqb k v o)).
Proof. now rewrite (obj_keys_replace _ _ eqb eqb_eq). Qed.

Lemma obj_Forall_delete (P : K * V -> Prop) (k : K) (o : list (K * V)) :
  Forall P o -> Forall P (obj_delete eqb k o).
Proof.
  induction 1 as [|[k' v'] r HP HF IH]; simpl; [constructor|].
  destruct (eqb k k'); [exact IH|now constructor].
Qed.

Lemma obj_Forall_replace (P : K * V -> Prop) (k : K) (v : V)
    (o : list (K * V)) :
  P (k, v) -> Forall P o -> Forall P (obj_replace eqb k v o).
Proof.
  intro Pk. induction 1 as [|[k' v'] r HP HF IH]; simpl; [constructor|].
  destruct (eqb k k'); now constructor.
Qed.

End JsObjectEntries.

Section JsObjectInserts.

Variables (K V : Type).
Variable eqb : K -> K -> bool.
Variable before : K -> K -> bool.
Hypothesis eqb_eq : forall a b, eqb a b = true <-> a = b.

Lemma obj_In_keys_insert (k k0 : K) (v : V) (o : list (K * V)) :
  In k0 (obj_keys (obj_insert before k v o)) <-> k0 = k \/ In k0 (obj_keys o).
Proof.
  induction o as [|[k' v'] r IH]; simpl; [intuition|].
  destruct (before k k'); simpl; [intuition|].
  rewrite IH. intuition.
Qed.

Lemma obj_NoDup_insert (k : K) (v : V) (o : list (K * V)) :
  ~ In k (obj_keys o) -> NoDup (obj_keys o) ->
  NoDup (obj_keys (obj_insert before k v o)).
Proof.
  induction o as [|[k' v'] r IH]; simpl.
  - intros _ _. constructor; [easy|constructor].
  - intros Nk N. inversion N as [|? ? Nk' Nr]; subst.
    destruct (before k k'); simpl.
    + constructor; [exact Nk|exact N].
    + constructor.
      * rewrite obj_In_keys_insert. intros [->|H]; [apply Nk; now left|].
        now apply Nk'.
      * apply IH; [|exact Nr]. intro H. apply Nk. now right.
Qed.

Lemma obj_NoDup_set (k : K) (v : V) (o : list (K * V)) :
  NoDup (obj_keys o) -> NoDup (obj_keys (obj_set eqb before k v o)).
Proof.
  intro N. unfold obj_set. destruct (obj_get eqb k o) eqn:G.
  - now apply obj_NoDup_replace.
  - apply obj_NoDup_insert; [|exact N].
    intro H. apply (obj_keys_get _ _ eqb eqb_eq) in H.
    destruct H as [v0 H]. congruence.
Qed.

Lemma obj_Forall_insert (P : K * V -> Prop) (k : K) (v : V)
    (o : list (K * V)) :
  P (k, v) -> Forall P o -> Forall P (obj_insert before k v o).
Proof.
  intro Pk. induction 1 as [|[k' v'] r HP HF IH]; simpl.
  - now repeat constructor.
  - destruct (before k k'); repeat constructor; assumption.
Qed.

Lemma obj_Forall_set (P : K * V -> Prop) (k : K) (v : V) (o : list (K * V)) :
  P (k, v) -> Forall P o -> Forall P (obj_set eqb before k v o).
Proof.
  intros Pk F. unfold obj_set. destruct (obj_get eqb k o).
  - now apply obj_Forall_replace.
  - now apply obj_Forall_insert.
Qed.

End JsObjectInserts.

(** ** Paths and their parents *)

Module PathFacts.

Import FilesStore JsFacts.

Lemma split_nonempty (sep : ascii) (s : string) : Js.split sep s <> [].
Proof.
  induction s as [|c r IH]; simpl; [discriminate|].
  destruct (Ascii.eqb c sep); [discriminate|].
  destruct (Js.split sep r); discriminate.
Qed.

Lemma split_append (sep : ascii) (a b : string) :
  Js.split sep (a ++ String sep b) = (Js.split sep a ++ Js.split sep b)%list.
Proof.
  induction a as [|c r IH]; simpl.
  - now rewrite Ascii.eqb_refl.
  - rewrite IH. destruct (Ascii.eqb c sep); [reflexivity|].
    destruct (Js.split sep r) as [|h t] eqn:E; [|reflexivity].
    now apply split_nonempty in E.
Qed.

Lemma split_plain (sep : ascii) (n : string) :
  Js.includes sep n = false -> Js.split sep n = [n].
Proof.
  induction n as [|c r IH]; simpl; [reflexivity|].
  destruct (Ascii.eqb c sep); simpl; [discriminate|].
  intro H. now rewrite (IH H).
Qed.

Lemma validName_spec (n : string) :
  validName n = true -> n <> "" /\ Js.includes "/"%char n = false.
Proof.
  unfold validName, Js.truthy. intro H.
  apply andb_true_iff in H. destruct H as [T I].
  apply negb_true_iff in T, I. split; [|exact I].
  intros ->. discriminate.
Qed.

Lemma split_join (segs : list string) :
  forallb validName segs = true -> segs <> [] ->
  Js.split "/"%char (String.concat "/" segs) = segs.
Proof.
  induction segs as [|a r IH]; [easy|].
  intros F _. simpl in F. apply andb_true_iff in F. destruct F as [Fa Fr].
  apply validName_spec in Fa. destruct Fa as [_ Ia].
  destruct r as [|b r'].
  - simpl. now apply split_plain.
  - change (String.concat "/" (a :: b :: r'))
      with (a ++ String "/"%char (String.concat "/" (b :: r'))).
    rewrite split_append, (split_plain _ _ Ia), IH; [reflexivity|exact Fr|].
    discriminate.
Qed.

Lemma filter_truthy_valid (segs : list string) :
  forallb validName segs = true -> filter Js.truthy segs = segs.
Proof.
  induction segs as [|a r IH]; simpl; [reflexivity|].
  intro F. apply andb_true_iff in F. destruct F as [Fa Fr].
  unfold validName in Fa. apply andb_true_iff in Fa. destruct Fa as [T _].
  rewrite T. now rewrite IH.
Qed.

Lemma segments_joinPath (segs : list string) :
  forallb validName segs = true ->
  filter Js.truthy (Js.split "/"%char (joinPath segs)) = segs.
Proof.
  intro F. unfold joinPath.
  change ("/" ++ String.concat "/" segs)
    with ("" ++ String "/"%char (String.concat "/" segs)).
  rewrite split_append. destruct segs as [|a r]; [reflexivity|].
  rewrite split_join; [|exact F|discriminate].
  simpl (Js.split _ ""). simpl app.
  change (filter Js.truthy ("" :: a :: r)) with (filter Js.truthy (a :: r)).
  now apply filter_truthy_valid.
Qed.

Lemma joinPath_not_root (segs : list string) :
  forallb validName segs = true -> segs <> [] -> joinPath segs <> "/".
Proof.
  intros F N E. pose proof (segments_joinPath _ F) as S.
  rewrite E in S. simpl in S. now subst segs.
Qed.

Lemma parent_of_joinPath (segs : list string) (n : string) :
  forallb validName (segs ++ [n]) = true ->
  getParentPath (joinPath (segs ++ [n])) = joinPath segs.
Proof.
  intro F. unfold getParentPath.
  pose proof (segments_joinPath _ F) as S.
  destruct (String.eqb (joinPath (segs ++ [n])) "/") eqn:E.
  - apply String.eqb_eq in E. exfalso.
    apply (joinPath_not_root _ F); [now destruct segs|exact E].
  - cbv zeta. rewrite S. rewrite length_app. simpl List.length.
    destruct segs as [|a r].
    + reflexivity.
    + replace (Nat.leb (List.length (a :: r) + 1) 1) with false.
      * now rewrite removelast_last.
      * symmetry. apply Nat.leb_gt. simpl. lia.
Qed.

Lemma concat_last (segs : list string) (n : string) :
  segs <> [] ->
  String.concat "/" (segs ++ [n]) = String.concat "/" segs ++ "/" ++ n.
Proof.
  induction segs as [|a r IH]; [easy|]. intros _.
  destruct r as [|b r'].
  - reflexivity.
  - change (String.concat "/" ((a :: b :: r') ++ [n]))
      with (a ++ "/" ++ String.concat "/" ((b :: r') ++ [n])).
    rewrite IH; [|discriminate].
    change (String.concat "/" (a :: b :: r'))
      with (a ++ "/" ++ String.concat "/" (b :: r')).
    now rewrite !append_assoc.
Qed.

(** X1.  The parent of a path is the path without its last segment:
    for names that are not empty and hold no ["/"],
    [getParentPath("/" + [s1, ..., sk, n].join("/"))] is
    ["/" + [s1, ..., sk].join("/")]; the parent of a top-level path is
    the root ["/"], and the root is its own parent. *)
Theorem getParentPath_child (segs : list string) (n : string)
    (Hvalid : forallb validName (segs ++ [n]) = true) :
  getParentPath (joinPath (segs ++ [n])) = joinPath segs /\
  getParentPath (joinPath [n]) = "/" /\
  getParentPath (joinPath []) = joinPath [].
Proof.
  split; [now apply parent_of_joinPath|]. split; [|reflexivity].
  apply (parent_of_joinPath [] n). rewrite forallb_app in Hvalid.
  apply andb_true_iff in Hvalid. now destruct Hvalid.
Qed.

Lemma getParentPath_child_witness :
  forallb validName (["Documents"; "Sub"] ++ ["b.txt"]) = true /\
  getParentPath "/Documents/Sub/b.txt" = "/Documents/Sub".
Proof.
  split; [reflexivity|].
  exact (proj1 (getParentPath_child ["Documents"; "Sub"] "b.txt" eq_refl)).
Defined.

End PathFacts.

(** ** Items under their paths *)

Module FilesInvariants.

Import FilesStore JsFacts FilesStoreFacts.

Lemma distinct_NoDup (ks : list string) : distinct ks = true <-> NoDup ks.
Proof.
  induction ks as [|k r IH]; simpl.
  - split; [constructor|reflexivity].
  - rewrite andb_true_iff, negb_true_iff, IH. split.
    + intros [E N]. constructor; [|exact N].
      intro H. apply existsb_eqb_In in H. congruence.
    + intro N. inversion N as [|? ? Nk Nr]; subst. split; [|exact Nr].
      destruct (existsb (String.eqb k) r) eqn:E; [|reflexivity].
      apply existsb_eqb_In in E. contradiction.
Qed.

Lemma wellKeyed_spec (o : Items) :
  wellKeyed o = true <->
  NoDup (obj_keys o) /\ Forall (fun e => path (snd e) = fst e) o.
Proof.
  unfold wellKeyed. rewrite andb_true_iff, distinct_NoDup, forallb_forall,
    Forall_forall.
  split; intros [N F]; (split; [exact N|]); intros e He.
  - now apply String.eqb_eq, F.
  - now apply String.eqb_eq, F.
Qed.

Lemma wk_set (k : string) (v : FileSystemItem) (o : Items) :
  wellKeyed o = true -> path v = k -> wellKeyed (set k v o) = true.
Proof.
  rewrite !wellKeyed_spec. intros [N F] P. split.
  - now apply obj_NoDup_set; [apply String.eqb_eq|].
  - now apply obj_Forall_set.
Qed.

Lemma wk_delete (k : string) (o : Items) :
  wellKeyed o = true -> wellKeyed (delete k o) = true.
Proof.
  rewrite !wellKeyed_spec. intros [N F]. split.
  - now apply obj_NoDup_delete.
  - now apply obj_Forall_delete.
Qed.

Lemma wk_get_path (o : Items) (k : string) (v : FileSystemItem) :
  wellKeyed o = true -> get k o = Some v -> path v = k.
Proof.
  rewrite wellKeyed_spec. intros [_ F] G.
  apply (obj_get_In_entry _ _ _ String.eqb_eq) in G.
  rewrite Forall_forall in F. exact (F _ G).
Qed.

Lemma wk_value_stored (o : Items) (v : FileSystemItem) :
  wellKeyed o = true -> In v (obj_values o) -> get (path v) o = Some v.
Proof.
  intros W H. pose proof W as W'. apply wellKeyed_spec in W'.
  destruct W' as [N _].
  destruct (obj_In_values_get _ _ _ String.eqb_eq v o N H) as [k G].
  now rewrite (wk_get_path _ _ _ W G).
Qed.

Lemma get_In_values (o : Items) (k : string) (v : FileSystemItem) :
  get k o = Some v -> In v (obj_values o).
Proof. apply obj_get_In_values. Qed.

Lemma wk_updateTrashIcon (o : Items) :
  wellKeyed o = true -> wellKeyed (updateTrashIcon o) = true.
Proof.
  intro W. unfold updateTrashIcon. destruct (get "/Trash" o) eqn:G; [|exact W].
  apply wk_set; [exact W|]. simpl. now apply (wk_get_path o).
Qed.

Lemma wk_removeOne (perm : bool) (now : string -> Z) (o : Items) (p : string) :
  wellKeyed o = true -> wellKeyed (removeOne perm now o p) = true.
Proof.
  intro W. unfold removeOne. destruct (get p o) eqn:G; [|exact W].
  destruct perm; [now apply wk_delete|].
  destruct (status_eqb (status f) active); [|exact W].
  apply wk_set; [exact W|]. simpl. now apply (wk_get_path o).
Qed.

Lemma wk_restoreOne (o : Items) (p : string) :
  wellKeyed o = true -> wellKeyed (restoreOne o p) = true.
Proof.
  intro W. unfold restoreOne. destruct (get p o) eqn:G; [|exact W].
  destruct (status_eqb (status f) trashed); [|exact W].
  apply wk_set; [exact W|]. simpl. now apply (wk_get_path o).
Qed.

Lemma wk_removeItem (p : string) (permanent : bool) (now : string -> Z)
    (s : FilesStoreState) :
  wellKeyed (items s) = true ->
  wellKeyed (items (fst (removeItem p permanent now s))) = true.
Proof.
  intro W. unfold removeItem. destruct (get p (items s)); [|exact W].
  cbn [fst items]. apply wk_updateTrashIcon.
  apply fold_left_keeps; [exact W|].
  intros acc e _. apply wk_removeOne.
Qed.

Lemma wk_restoreItem (p : string) (s : FilesStoreState) :
  wellKeyed (items s) = true -> wellKeyed (items (restoreItem p s)) = true.
Proof.
  intro W. unfold restoreItem. destruct (get p (items s)); [|exact W].
  destruct (negb (status_eqb (status f) trashed)); [exact W|].
  cbn [items]. apply wk_updateTrashIcon.
  apply fold_left_keeps; [exact W|].
  intros acc e _. apply wk_restoreOne.
Qed.

Lemma wk_addItem (now : Z) (fresh : string) (d : ItemData)
    (s : FilesStoreState) :
  wellKeyed (items s) = true ->
  wellKeyed (items (addItem now fresh d s)) = true.
Proof.
  intro W. unfold addItem.
  destruct (parentUnusable _ _); [exact W|].
  destruct (get (path (newItemOf now fresh d)) (items s)) eqn:G; cbn [items].
  - now apply wk_set.
  - assert (W1 : wellKeyed (set (path (newItemOf now fresh d))
                              (newItemOf now fresh d) (items s)) = true)
      by now apply wk_set.
    destruct (get "/Trash" (items s)) eqn:T; [|exact W1].
    match goal with |- context [if ?c then _ else _] => destruct c end;
      [|exact W1].
    apply wk_set; [exact W1|]. simpl. now apply (wk_get_path (items s)).
Qed.

Lemma wk_renameItem (oldPath newPath newName : string)
    (s : FilesStoreState) :
  wellKeyed (items s) = true ->
  wellKeyed (items (renameItem oldPath newPath newName s)) = true.
Proof.
  intro W. unfold renameItem.
  destruct (get oldPath (items s)); [|exact W].
  destruct (negb (status_eqb (status f) active)); [exact W|].
  destruct (get newPath (items s)); [exact W|]. cbn [items].
  assert (W1 : wellKeyed
                 (set newPath
                    (withFields f newPath newName (icon f) (status f)
                       (originalPath f) (deletedAt f))
                    (delete oldPath (items s))) = true)
    by (apply wk_set; [now apply wk_delete|reflexivity]).
  destruct (isDirectory f); [|exact W1].
  apply fold_left_keeps; [exact W1|].
  intros acc e _ Wacc. unfold renameChild.
  destruct (Js.startsWith e (oldPath ++ "/")); [|exact Wacc].
  destruct (get e (items s)); [|exact Wacc].
  apply wk_set; [now apply wk_delete|reflexivity].
Qed.

Lemma wk_moveItem (src dst : string) (s : FilesStoreState) :
  wellKeyed (items s) = true ->
  wellKeyed (items (fst (moveItem src dst s))) = true.
Proof.
  intro W. unfold moveItem.
  destruct (get src (items s)); [|exact W].
  destruct (negb (status_eqb (status f) active)); [exact W|].
  destruct (get (getParentPath dst) (items s)); [|exact W].
  destruct (negb (isDirectory f0)); [exact W|].
  destruct (get dst (items s)); [exact W|].
  destruct (isDirectory f && Js.startsWith dst (src ++ "/")); [exact W|].
  cbn [fst items].
  assert (W1 : wellKeyed (set dst (withPath dst f) (delete src (items s)))
               = true)
    by (apply wk_set; [now apply wk_delete|reflexivity]).
  destruct (isDirectory f); [|exact W1].
  apply fold_left_keeps; [exact W1|].
  intros acc e _ Wacc. unfold moveChild.
  destruct (Js.startsWith e (src ++ "/")); [|exact Wacc].
  destruct (get e (items s)); [|exact Wacc].
  apply wk_set; [now apply wk_delete|reflexivity].
Qed.

Lemma wk_createAliasFuel (fuel : nat) (targetPath aliasName : string)
    (ty : AliasType) (targetAppId : option string) (now : Z)
    (s s' : FilesStoreState) :
  wellKeyed (items s) = true ->
  createAliasFuel fuel targetPath aliasName ty targetAppId now s = Some s' ->
  wellKeyed (items s') = true.
Proof.
  intro W. unfold createAliasFuel.
  destruct (get "/Desktop" (items s)); [|now intros [= <-]].
  destruct (negb (isDirectory f)); [now intros [= <-]|].
  match goal with
  | |- context [uniqueAliasPath fuel ?o ?n ?a 1] =>
      assert (W1 : wellKeyed o = true);
      [|destruct (uniqueAliasPath fuel o n a 1); [|discriminate]]
  end.
  { destruct (get _ (items s)); [|exact W].
    destruct (status_eqb (status f0) trashed); [now apply wk_delete|exact W]. }
  intros [= <-]. cbn [items]. apply wk_set; [exact W1|reflexivity].
Qed.

Lemma wk_emptyTrash_fold (now : string -> Z) (ts : list FileSystemItem) :
  forall acc : FilesStoreState * list string,
    wellKeyed (items (fst acc)) = true ->
    wellKeyed
      (items
         (fst (fold_left
                 (fun acc item =>
                    (fst (removeItem (path item) true now (fst acc)),
                     if negb (isDirectory item)
                     then match Js.orStr (uuid item) None with
                          | Some u => (snd acc ++ [u])%list
                          | None => snd acc
                          end
                     else snd acc)) ts acc))) = true.
Proof.
  induction ts as [|t r IH]; intros acc W; [exact W|].
  simpl fold_left. apply IH. cbn [fst]. now apply wk_removeItem.
Qed.

(** X2.  Every action of the store keeps the table well keyed: no path
    twice, and each item under the key that is its own [path]. *)
Theorem actions_keep_items_under_their_paths
    (s : FilesStoreState) (Hs : wellKeyed (items s) = true) :
  (forall now fresh d, wellKeyed (items (addItem now fresh d s)) = true) /\
  (forall p permanent now,
     wellKeyed (items (fst (removeItem p permanent now s))) = true) /\
  (forall p, wellKeyed (items (restoreItem p s)) = true) /\
  (forall oldPath newPath newName,
     wellKeyed (items (renameItem oldPath newPath newName s)) = true) /\
  (forall src dst, wellKeyed (items (fst (moveItem src dst s))) = true) /\
  (forall targetPath aliasName ty targetAppId now,
     exists s',
       createAlias targetPath aliasName ty targetAppId now s = Some s' /\
       wellKeyed (items s') = true) /\
  (forall now, wellKeyed (items (fst (emptyTrash now s))) = true).
Proof.
  repeat split.
  - intros. now apply wk_addItem.
  - intros. now apply wk_removeItem.
  - intros. now apply wk_restoreItem.
  - intros. now apply wk_renameItem.
  - intros. now apply wk_moveItem.
  - intros targetPath aliasName ty targetAppId now.
    destruct (createAlias_terminates targetPath aliasName ty targetAppId now s)
      as [s' E].
    exists s'. split; [exact E|].
    exact (wk_createAliasFuel _ _ _ _ _ _ _ _ Hs E).
  - intro now. unfold emptyTrash. now apply wk_emptyTrash_fold.
Qed.

Lemma actions_keep_items_under_their_paths_witness :
  wellKeyed (items sampleStore) = true /\
  wellKeyed
    (items (renameItem "/Documents/Sub" "/Documents/Sub2" "Sub2" sampleStore))
  = true.
Proof.
  split; [reflexivity|].
  exact (proj1 (proj2 (proj2 (proj2
           (actions_keep_items_under_their_paths sampleStore eq_refl))))
           "/Documents/Sub" "/Documents/Sub2" "Sub2").
Defined.

End FilesInvariants.

(** ** Alias resolution in [handleFileOpen] *)

Module AliasFacts.

Import FilesStore FileSystem FilesStoreFacts FilesInvariants.

Lemma iterHop_add (state : FilesStoreState) (a b : nat) (p : string) :
  iterHop state (a + b) p =
  match iterHop state a p with
  | Some q => iterHop state b q
  | None => None
  end.
Proof.
  revert p. induction a as [|a IH]; intro p; simpl; [reflexivity|].
  destruct (aliasHop state p); [apply IH | reflexivity].
Qed.

Lemma iterHop_prefix (state : FilesStoreState) (a b : nat) (p : string) :
  a <= b -> iterHop state b p <> None -> iterHop state a p <> None.
Proof.
  intros Hle H E. apply H.
  replace b with (a + (b - a)) by lia.
  rewrite iterHop_add, E. reflexivity.
Qed.

(** A chain that comes back to a path never ends. *)
Lemma revisit_endless (state : FilesStoreState) (a b : nat) (p x : string) :
  a < b -> iterHop state a p = Some x -> iterHop state b p = Some x ->
  forall n, iterHop state n p <> None.
Proof.
  intros Hlt Ha Hb.
  assert (Hd : iterHop state (b - a) x = Some x).
  { replace b with (a + (b - a)) in Hb by lia.
    rewrite iterHop_add, Ha in Hb. exact Hb. }
  assert (Hx : forall n, iterHop state n x <> None).
  { intro n. induction n as [n IH] using lt_wf_ind.
    destruct (Nat.lt_ge_cases n (b - a)) as [L|G].
    - apply (iterHop_prefix state n (b - a)); [lia|]. rewrite Hd. discriminate.
    - replace n with ((b - a) + (n - (b - a))) by lia.
      rewrite iterHop_add, Hd. apply IH. lia. }
  intro n. destruct (Nat.le_gt_cases n a) as [L|G].
  - apply (iterHop_prefix state n a); [exact L|]. rewrite Ha. discriminate.
  - replace n with (a + (n - a)) by lia.
    rewrite iterHop_add, Ha. apply Hx.
Qed.

Lemma aliasHop_some (state : FilesStoreState) (p q : string) :
  aliasHop state p = Some q ->
  exists target targetFile,
    aliasOf (getItem p state) = Some (aliasFile, target) /\
    getItem target state = Some targetFile /\ path targetFile = q.
Proof.
  unfold aliasHop. destruct (aliasOf (getItem p state)) as [[[|] target]|];
    simpl; try discriminate.
  destruct (getItem target state) as [tf|] eqn:G; simpl; [|discriminate].
  intro H. injection H as <-. exists target, tf. auto.
Qed.

Lemma existsb_eqb_false (p : string) (l : list string) :
  ~ In p l -> existsb (String.eqb p) l = false.
Proof.
  intro H. destruct (existsb (String.eqb p) l) eqn:E; [|reflexivity].
  apply FilesStoreFacts.existsb_eqb_In in E. contradiction.
Qed.

(** The target of a link is stored under the path the chain goes on
    with. *)
Lemma hop_target_stored (state : FilesStoreState) (target : string)
    (targetFile : FileSystemItem) :
  wellKeyed (items state) = true ->
  getItem target state = Some targetFile ->
  getItem (path targetFile) state = Some targetFile.
Proof.
  intros W G. unfold getItem in *.
  now rewrite (wk_get_path _ _ _ W G).
Qed.

(** [getFileIcon] on an item of a chain that never ends: every stack
    is too small. *)
Lemma getFileIconRec_endless (appIcon : string -> option string)
    (state : FilesStoreState) (frames : nat) :
  wellKeyed (items state) = true ->
  forall item,
    getItem (path item) state = Some item ->
    (forall n, iterHop state n (path item) <> None) ->
    getFileIconRec frames appIcon state item = None.
Proof.
  intro W. induction frames as [|f IH]; intros item G E; [reflexivity|].
  assert (H1 := E 1). cbn [iterHop] in H1.
  destruct (aliasHop state (path item)) as [q|] eqn:Hop; [|congruence].
  destruct (aliasHop_some _ _ _ Hop) as [target [tf [A [Gt P]]]].
  rewrite G in A. cbn [getFileIconRec]. rewrite A, Gt.
  apply IH.
  - apply (hop_target_stored state target tf W Gt).
  - intro n. specialize (E (S n)). cbn [iterHop] in E. rewrite Hop in E.
    rewrite P. exact E.
Qed.

(** [getFileIcon] on an item from which [m] links lead to an item that
    is no alias: [m + 1] calls. *)
Lemma getFileIconRec_chain (appIcon : string -> option string)
    (state : FilesStoreState) (t : string) :
  wellKeyed (items state) = true ->
  aliasOf (getItem t state) = None ->
  forall m frames item,
    getItem (path item) state = Some item ->
    iterHop state m (path item) = Some t ->
    m < frames ->
    exists ic, getFileIconRec frames appIcon state item = Some ic.
Proof.
  intros W Hend. induction m as [|m IH]; intros frames item G Hm Hf;
    (destruct frames as [|f]; [lia|]); cbn [getFileIconRec].
  - cbn [iterHop] in Hm. injection Hm as <-. rewrite G in Hend.
    rewrite Hend. eauto.
  - cbn [iterHop] in Hm.
    destruct (aliasHop state (path item)) as [q|] eqn:Hop; [|discriminate].
    destruct (aliasHop_some _ _ _ Hop) as [target [tf [A [Gt P]]]].
    rewrite G in A. rewrite A, Gt. apply IH.
    + apply (hop_target_stored state target tf W Gt).
    + rewrite P. exact Hm.
    + lia.
Qed.

(** The loop never runs more rounds than its condition allows. *)
Lemma resolveLoop_depth (frames : nat) (appIcon : string -> option string)
    (remaining : nat) (state : FilesStoreState)
    (currentFile : DisplayFile) (visited : list string) (depth : nat) :
  match resolveLoop remaining frames appIcon state currentFile visited depth
  with
  | Returned _ d => d <= depth + remaining
  | Exited _ resolved d =>
      d <= depth + remaining /\ (resolved = false -> d = depth + remaining)
  | Threw d => d <= depth + remaining
  end.
Proof.
  revert currentFile visited depth.
  induction remaining as [|r IH]; intros cf visited depth;
    cbn [resolveLoop].
  - split; [lia | intros _; lia].
  - destruct (aliasOf (getItem (f_path cf) state)) as [[ty target]|].
    + destruct (existsb (String.eqb (f_path cf)) visited); [lia|].
      destruct ty.
      * destruct (getItem target state) as [tf|]; [|lia].
        destruct (getFileIconRec frames appIcon state tf) as [ic|]; [|lia].
        specialize (IH (displayOf tf ic) (f_path cf :: visited) (S depth)).
        destruct (resolveLoop r frames appIcon state (displayOf tf ic)
                    (f_path cf :: visited) (S depth)); [lia| |lia].
        destruct IH as [I1 I2]. split; [lia|]. intro E. rewrite (I2 E). lia.
      * lia.
    + split; [lia | discriminate].
Qed.

(** A chain of [m] links that ends on an item that is no alias is
    followed to its end, in [m + 1] rounds, when the stack has room for
    the [m] calls that the icon of the first target takes. *)
Lemma resolveLoop_chain (frames : nat) (appIcon : string -> option string)
    (state : FilesStoreState) (t : string) (m : nat) :
  wellKeyed (items state) = true ->
  m <= frames ->
  forall (remaining : nat) (cf : DisplayFile) (visited : list string)
         (depth : nat),
    iterHop state m (f_path cf) = Some t ->
    aliasOf (getItem t state) = None ->
    m < remaining ->
    (forall i q, i <= m -> iterHop state i (f_path cf) = Some q ->
                 ~ In q visited) ->
    exists f,
      resolveLoop remaining frames appIcon state cf visited depth =
        Exited f true (depth + m + 1) /\
      f_path f = t /\ (m = 0 -> f = cf).
Proof.
  intro W.
  induction m as [|m IH];
    intros Hfr remaining cf visited depth Hm Hend Hrem Hvis.
  - cbn [iterHop] in Hm. injection Hm as <-.
    destruct remaining as [|r]; [lia|]. cbn [resolveLoop]. rewrite Hend.
    exists cf. replace (depth + 0 + 1) with (S depth) by lia. auto.
  - destruct remaining as [|r]; [lia|].
    assert (Hend' : iterHop state (S (S m)) (f_path cf) = None).
    { replace (S (S m)) with (S m + 1) by lia.
      rewrite iterHop_add, Hm. cbn [iterHop]. unfold aliasHop.
      rewrite Hend. reflexivity. }
    cbn [iterHop] in Hm.
    destruct (aliasHop state (f_path cf)) as [q|] eqn:Hop; [|discriminate].
    destruct (aliasHop_some _ _ _ Hop) as [target [tf [A [G P]]]].
    cbn [resolveLoop]. rewrite A.
    rewrite existsb_eqb_false by (apply (Hvis 0); [lia | reflexivity]).
    rewrite G.
    destruct (getFileIconRec_chain appIcon state t W Hend m frames tf)
      as [ic Ic].
    { apply (hop_target_stored state target tf W G). }
    { rewrite P. exact Hm. }
    { lia. }
    rewrite Ic.
    destruct (IH ltac:(lia) r (displayOf tf ic) (f_path cf :: visited)
                (S depth))
      as [f [R [Pf _]]].
    + cbn [displayOf f_path]. rewrite P. exact Hm.
    + exact Hend.
    + lia.
    + intros i q' Hi Hq' [E|Hin].
      * (* the chain would come back to its start *)
        subst q'. cbn [displayOf f_path] in Hq'. rewrite P in Hq'.
        apply (revisit_endless state 0 (S i) (f_path cf) (f_path cf)
                 ltac:(lia) eq_refl) with (n := S (S m)).
        -- cbn [iterHop]. rewrite Hop. exact Hq'.
        -- exact Hend'.
      * apply (Hvis (S i) q'); [lia| |exact Hin].
        cbn [iterHop]. rewrite Hop. cbn [displayOf f_path] in Hq'.
        rewrite P in Hq'. exact Hq'.
    + exists f. rewrite R. split; [f_equal; lia|]. split; [exact Pf|].
      intro E. lia.
Qed.

(** On a chain that never ends the first round calls [getFileIcon] on
    the target, and that is where the function is left. *)
Lemma resolveLoop_endless (frames : nat) (appIcon : string -> option string)
    (state : FilesStoreState) (remaining : nat) (cf : DisplayFile)
    (depth : nat) :
  wellKeyed (items state) = true ->
  (forall n, iterHop state n (f_path cf) <> None) ->
  resolveLoop (S remaining) frames appIcon state cf [] depth =
    Threw (S depth).
Proof.
  intros W E.
  assert (H1 := E 1). cbn [iterHop] in H1.
  destruct (aliasHop state (f_path cf)) as [q|] eqn:Hop; [|congruence].
  destruct (aliasHop_some _ _ _ Hop) as [target [tf [A [G P]]]].
  cbn [resolveLoop existsb]. rewrite A, G.
  rewrite (getFileIconRec_endless appIcon state frames W tf);
    [reflexivity| |].
  - apply (hop_target_stored state target tf W G).
  - intro n. specialize (E (S n)). cbn [iterHop] in E. rewrite Hop in E.
    rewrite P. exact E.
Qed.

(** C8. Step 0 of [handleFileOpen] never takes more than [maxDepth]
    rounds of its loop.  In a store that keeps every item under its
    path, a chain of [m] alias links that ends on an item that is no
    alias, [m + 1] items in all with [m + 1] below [maxDepth], is
    resolved to that item in [m + 1] rounds when the stack has room for
    [m] calls of [getFileIcon].  A chain that comes back to a path it
    has been on is not detected: in the first round [getFileIcon] is
    called on the target, follows the aliases without end, and
    whatever room the stack has, the function is left by the
    [RangeError], in round one, with no warning.  An alias of itself
    and two aliases of each other end so. *)
Theorem alias_cycle_overflows :
  (forall frames appIcon state file,
     depthOf (resolveAliases frames appIcon state file) <= maxDepth) /\
  (forall frames appIcon state file m t,
     wellKeyed (items state) = true ->
     iterHop state m (f_path file) = Some t ->
     aliasOf (getItem t state) = None ->
     m + 1 < maxDepth ->
     m <= frames ->
     exists f, resolveAliases frames appIcon state file = Proceeds f (m + 1) /\
               f_path f = t /\ (m = 0 -> f = file)) /\
  (forall frames appIcon state file a b x,
     wellKeyed (items state) = true ->
     a < b ->
     iterHop state a (f_path file) = Some x ->
     iterHop state b (f_path file) = Some x ->
     resolveAliases frames appIcon state file = Rejected 1) /\
  (forall frames appIcon,
     resolveAliases frames appIcon chainStore (display "/Desktop/loop" "loop")
       = Rejected 1 /\
     resolveAliases frames appIcon chainStore (display "/Desktop/ping" "ping")
       = Rejected 1).
Proof.
  assert (Cycle : forall frames appIcon state file a b x,
             wellKeyed (items state) = true ->
             a < b ->
             iterHop state a (f_path file) = Some x ->
             iterHop state b (f_path file) = Some x ->
             resolveAliases frames appIcon state file = Rejected 1).
  { intros frames appIcon state file a b x W Hab Ha Hb.
    pose proof (revisit_endless state a b (f_path file) x Hab Ha Hb) as Hend.
    unfold resolveAliases, maxDepth.
    now rewrite (resolveLoop_endless frames appIcon state 9 file 0 W Hend). }
  split; [|split; [|split]].
  - intros frames appIcon state file. unfold resolveAliases.
    pose proof (resolveLoop_depth frames appIcon maxDepth state file [] 0)
      as D.
    destruct (resolveLoop maxDepth frames appIcon state file [] 0)
      as [log d|cf r d|d].
    + exact D.
    + destruct (Nat.leb maxDepth d); cbn [depthOf]; apply D.
    + exact D.
  - intros frames appIcon state file m t W Hm Hend Hlt Hfr.
    unfold resolveAliases.
    destruct (resolveLoop_chain frames appIcon state t m W Hfr maxDepth file
                [] 0 Hm Hend)
      as [f [R [P Z]]].
    + unfold maxDepth in *. lia.
    + intros i q _ _ [].
    + change (0 + m + 1) with (m + 1) in R. rewrite R.
      assert (L : Nat.leb maxDepth (m + 1) = false)
        by (apply Nat.leb_gt; exact Hlt).
      rewrite L. exists f. auto.
  - exact Cycle.
  - intros frames appIcon. split.
    + apply (Cycle frames appIcon chainStore _ 0 1 "/Desktop/loop"%string);
        [reflexivity|lia|reflexivity|reflexivity].
    + apply (Cycle frames appIcon chainStore _ 0 2 "/Desktop/ping"%string);
        [reflexivity|lia|reflexivity|reflexivity].
Qed.

Lemma alias_cycle_overflows_witness :
  (wellKeyed (items chainStore) = true /\
   iterHop chainStore 2 "/Desktop/a 1.txt" = Some "/Documents/a.txt"%string /\
   aliasOf (getItem "/Documents/a.txt" chainStore) = None /\
   2 + 1 < maxDepth /\
   exists f, resolveAliases 2 (fun _ => None) chainStore
               (display "/Desktop/a 1.txt" "a 1.txt") = Proceeds f 3 /\
             f_path f = "/Documents/a.txt"%string) /\
  (iterHop chainStore 0 "/Desktop/loop" = Some "/Desktop/loop"%string /\
   iterHop chainStore 1 "/Desktop/loop" = Some "/Desktop/loop"%string /\
   resolveAliases 1000 (fun _ => None) chainStore
     (display "/Desktop/loop" "loop") = Rejected 1).
Proof.
  destruct alias_cycle_overflows as [_ [Chain [Cycle _]]].
  split.
  - split; [reflexivity|]. split; [reflexivity|]. split; [reflexivity|].
    split; [unfold maxDepth; lia|].
    destruct (Chain 2 (fun _ => None) chainStore
                (display "/Desktop/a 1.txt" "a 1.txt") 2
                "/Documents/a.txt"%string eq_refl eq_refl eq_refl
                ltac:(unfold maxDepth; lia) ltac:(lia))
      as [f [R [P _]]].
    exists f. auto.
  - split; [reflexivity|]. split; [reflexivity|].
    exact (Cycle 1000 (fun _ => None) chainStore
             (display "/Desktop/loop" "loop") 0 1
             "/Desktop/loop"%string eq_refl ltac:(lia) eq_refl eq_refl).
Defined.

End AliasFacts.

(** ** The trash *)

Module TrashFacts.

Import FilesStore JsFacts FilesStoreFacts FilesInvariants.

Lemma modIcon_retouch (k : string) (ic : option string)
    (x : option FileSystemItem) :
  modIcon k ((if String.eqb k "/Trash" then option_map (withIcon ic)
              else fun y => y) x) = modIcon k x.
Proof.
  unfold modIcon. destruct (String.eqb k "/Trash"); [|reflexivity].
  now destruct x.
Qed.

Lemma modIcon_none (k : string) (x : option FileSystemItem) :
  modIcon k x = None -> x = None.
Proof.
  unfold modIcon. destruct (String.eqb k "/Trash"); [|easy].
  now destruct x.
Qed.

Lemma modIcon_some (k : string) (x : option FileSystemItem)
    (c : FileSystemItem) :
  modIcon k x = modIcon k (Some c) ->
  exists c', x = Some c' /\ status c' = status c /\
             isDirectory c' = isDirectory c /\ path c' = path c /\
             uuid c' = uuid c.
Proof.
  unfold modIcon. destruct (String.eqb k "/Trash").
  - destruct x as [c'|]; [|discriminate]. simpl. intro E.
    exists c'. split; [reflexivity|].
    unfold withIcon, withFields in E. injection E. intros. now repeat split.
  - intros ->. now exists c.
Qed.

Lemma removedAs_permanent (now : string -> Z) (k : string)
    (x : option FileSystemItem) :
  removedAs true now k x = None.
Proof. now destruct x. Qed.

Lemma keys_set_present_item (k : string) (v v0 : FileSystemItem)
    (o : Items) :
  get k o = Some v0 -> obj_keys (set k v o) = obj_keys o.
Proof. apply obj_keys_set_present, String.eqb_eq. Qed.

Lemma keys_updateTrashIcon (o : Items) :
  obj_keys (updateTrashIcon o) = obj_keys o.
Proof.
  unfold updateTrashIcon. destruct (get "/Trash" o) eqn:G; [|reflexivity].
  now apply keys_set_present_item with (v0 := f).
Qed.

Lemma keys_delete (k : string) (o : Items) :
  obj_keys (delete k o) =
  filter (fun k' => negb (String.eqb k' k)) (obj_keys o).
Proof.
  induction o as [|[k' v'] r IH]; simpl; [reflexivity|].
  rewrite (String.eqb_sym k' k).
  destruct (String.eqb k k'); simpl; now rewrite <- IH.
Qed.

Lemma filter_absent (k : string) (ks : list string) :
  ~ In k ks -> filter (fun k' => negb (String.eqb k' k)) ks = ks.
Proof.
  induction ks as [|a r IH]; simpl; [reflexivity|].
  intro N. destruct (String.eqb a k) eqn:E.
  - apply String.eqb_eq in E. subst. exfalso. apply N. now left.
  - simpl. rewrite IH; [reflexivity|]. intro H. apply N. now right.
Qed.

Lemma keys_removeOne (perm : bool) (now : string -> Z) (o : Items)
    (p : string) :
  obj_keys (removeOne perm now o p) =
  if perm then filter (fun k' => negb (String.eqb k' p)) (obj_keys o)
  else obj_keys o.
Proof.
  unfold removeOne. destruct (get p o) eqn:G.
  - destruct perm; [apply keys_delete|].
    destruct (status_eqb (status f) active); [|reflexivity].
    now apply keys_set_present_item with (v0 := f).
  - destruct perm; [|reflexivity]. symmetry. apply filter_absent.
    intro H. apply keys_get in H. destruct H as [v H]. congruence.
Qed.

Lemma keys_fold_removeOne (perm : bool) (now : string -> Z)
    (ps : list string) :
  forall o,
    obj_keys (fold_left (removeOne perm now) ps o) =
    if perm
    then filter (fun k => negb (existsb (String.eqb k) ps)) (obj_keys o)
    else obj_keys o.
Proof.
  induction ps as [|p r IH]; intro o; simpl fold_left.
  - destruct perm; [|reflexivity]. simpl. induction (obj_keys o); simpl;
      [reflexivity|now f_equal].
  - rewrite IH, keys_removeOne. destruct perm; [|reflexivity].
    induction (obj_keys o) as [|a l IHl]; simpl; [reflexivity|].
    destruct (String.eqb a p); simpl; [exact IHl|].
    destruct (existsb (String.eqb a) r); simpl; [exact IHl|now f_equal].
Qed.

Lemma keys_restoreOne (o : Items) (p : string) :
  obj_keys (restoreOne o p) = obj_keys o.
Proof.
  unfold restoreOne. destruct (get p o) eqn:G; [|reflexivity].
  destruct (status_eqb (status f) trashed); [|reflexivity].
  now apply keys_set_present_item with (v0 := f).
Qed.

(** X3.  The paths a store holds after [removeItem] and [restoreItem],
    in the order of [Object.keys]: moving an item to the trash and
    restoring it keep every path where it is, and a permanent removal
    takes out the path and, below a directory, every path under it, and
    nothing else. *)
Theorem trash_keeps_paths (p : string) (permanent : bool)
    (now : string -> Z) (s : FilesStoreState) :
  obj_keys (items (fst (removeItem p permanent now s))) =
    match get p (items s) with
    | None => obj_keys (items s)
    | Some it =>
        if permanent || status_eqb (status it) trashed
        then filter (fun k => negb (inSubtree p it k)) (obj_keys (items s))
        else obj_keys (items s)
    end /\
  obj_keys (items (restoreItem p s)) = obj_keys (items s).
Proof.
  split.
  - unfold removeItem. destruct (get p (items s)) as [it|] eqn:G;
      [|reflexivity].
    cbn [fst items]. rewrite keys_updateTrashIcon, keys_fold_removeOne.
    destruct (permanent || status_eqb (status it) trashed); [|reflexivity].
    apply filter_ext_in. intros k Hk. f_equal.
    rewrite itemsToDelete_spec. unfold inSubtree.
    destruct (existsb (String.eqb k) (obj_keys (items s))) eqn:E.
    + now rewrite andb_true_r.
    + exfalso. apply existsb_eqb_In in Hk. congruence.
  - unfold restoreItem. destruct (get p (items s)) as [it|]; [|reflexivity].
    destruct (negb (status_eqb (status it) trashed)); [reflexivity|].
    cbn [items]. rewrite keys_updateTrashIcon.
    apply (fold_left_keeps (fun o => obj_keys o = obj_keys (items s)));
      [reflexivity|].
    intros acc e _ H. now rewrite keys_restoreOne.
Qed.

(** X4.  Trashing what is already in the trash deletes it: after two
    [removeItem(path)] in a row on an active item the path and, for a
    directory, everything below it are gone from the store, and every
    other item is as it was (the icon of ["/Trash"] apart). *)
Theorem trashing_twice_deletes (p : string) (now1 now2 : string -> Z)
    (s : FilesStoreState) (it : FileSystemItem)
    (Hstored : get p (items s) = Some it)
    (Hactive : status it = active) :
  forall k,
    modIcon k
      (get k (items (fst (removeItem p false now2
                            (fst (removeItem p false now1 s)))))) =
    if inSubtree p it k then None else modIcon k (get k (items s)).
Proof.
  intro k.
  pose proof (removeItem_get p false now1 s it) as G1.
  rewrite Hactive in G1. cbn [status_eqb orb] in G1.
  assert (E1 : modIcon p (get p (items (fst (removeItem p false now1 s)))) =
               modIcon p (Some (markTrashed p (now1 p) it))).
  { rewrite (G1 p Hstored), modIcon_retouch. unfold inSubtree.
    rewrite String.eqb_refl. cbn [orb]. rewrite Hstored. simpl.
    now rewrite Hactive. }
  apply modIcon_some in E1. destruct E1 as [it1 [S1 [St [Dir _]]]].
  rewrite (removeItem_get p false now2 _ it1 k S1), modIcon_retouch.
  simpl in St. rewrite St. cbn [status_eqb orb].
  unfold inSubtree. rewrite Dir. cbn [isDirectory markTrashed withFields].
  fold (inSubtree p it k).
  destruct (inSubtree p it k) eqn:I.
  - rewrite removedAs_permanent. unfold modIcon.
    now destruct (String.eqb k "/Trash").
  - rewrite (G1 k Hstored), I. apply modIcon_retouch.
Qed.

Lemma trashing_twice_deletes_witness :
  get "/Documents/Sub" (items sampleStore) =
    Some (dirItem "/Documents/Sub" "Sub") /\
  status (dirItem "/Documents/Sub" "Sub") = active /\
  get "/Documents/Sub/b.txt"
    (items (fst (removeItem "/Documents/Sub" false noon
                   (fst (removeItem "/Documents/Sub" false noon
                           sampleStore))))) = None.
Proof.
  split; [reflexivity|]. split; [reflexivity|].
  exact (trashing_twice_deletes "/Documents/Sub" noon noon sampleStore
           (dirItem "/Documents/Sub" "Sub") eq_refl eq_refl
           "/Documents/Sub/b.txt").
Defined.

(** X5.  Restoring undoes a move to the trash, for a whole directory:
    after [removeItem(path)] on an active item and then
    [restoreItem(path)] the item and everything below it are active with
    [originalPath] and [deletedAt] cleared, every other field as before;
    this includes what lay below it in the trash already.  The other
    items are as they were (the icon of ["/Trash"] apart). *)
Theorem restore_undoes_trash (p : string) (now : string -> Z)
    (s : FilesStoreState) (it : FileSystemItem)
    (Hstored : get p (items s) = Some it)
    (Hactive : status it = active) :
  forall k,
    modIcon k
      (get k (items (restoreItem p (fst (removeItem p false now s))))) =
    modIcon k
      (if inSubtree p it k then option_map markActive (get k (items s))
       else get k (items s)).
Proof.
  intro k.
  pose proof (removeItem_get p false now s it) as G1.
  rewrite Hactive in G1. cbn [status_eqb orb] in G1.
  assert (E1 : modIcon p (get p (items (fst (removeItem p false now s)))) =
               modIcon p (Some (markTrashed p (now p) it))).
  { rewrite (G1 p Hstored), modIcon_retouch. unfold inSubtree.
    rewrite String.eqb_refl. cbn [orb]. rewrite Hstored. simpl.
    now rewrite Hactive. }
  apply modIcon_some in E1. destruct E1 as [it1 [S1 [St [Dir _]]]].
  simpl in St.
  rewrite (restoreItem_get p _ it1 k S1 St), modIcon_retouch.
  unfold inSubtree. rewrite Dir. cbn [isDirectory markTrashed withFields].
  fold (inSubtree p it k).
  rewrite (G1 k Hstored).
  destruct (inSubtree p it k) eqn:I; [|apply modIcon_retouch].
  destruct (get k (items s)) as [c|]; simpl.
  - unfold modIcon. destruct (String.eqb k "/Trash"); simpl.
    + destruct (status_eqb (status c) active) eqn:A; simpl.
      * reflexivity.
      * destruct (status c); [discriminate|]. reflexivity.
    + destruct (status_eqb (status c) active) eqn:A; simpl.
      * reflexivity.
      * destruct (status c) eqn:Sc; [discriminate|]. simpl. reflexivity.
  - unfold modIcon. now destruct (String.eqb k "/Trash").
Qed.

Lemma restore_undoes_trash_witness :
  get "/Documents/Sub" (items sampleStore) =
    Some (dirItem "/Documents/Sub" "Sub") /\
  status (dirItem "/Documents/Sub" "Sub") = active /\
  get "/Documents/Sub/b.txt"
    (items (restoreItem "/Documents/Sub"
              (fst (removeItem "/Documents/Sub" false noon sampleStore)))) =
    Some (fileItem "/Documents/Sub/b.txt" "b.txt" "uuid-b").
Proof.
  split; [reflexivity|]. split; [reflexivity|].
  exact (restore_undoes_trash "/Documents/Sub" noon sampleStore
           (dirItem "/Documents/Sub" "Sub") eq_refl eq_refl
           "/Documents/Sub/b.txt").
Defined.

End TrashFacts.

(** ** Emptying the trash *)

Module EmptyTrashFacts.

Import FilesStore JsFacts FilesStoreFacts FilesInvariants TrashFacts.

Lemma below_below (k p a : string) :
  Js.startsWith k (p ++ "/") = true -> Js.startsWith p (a ++ "/") = true ->
  Js.startsWith k (a ++ "/") = true.
Proof.
  intros Hk Hp. apply startsWith_trans with (p := p); [|exact Hp].
  apply startsWith_trans with (p := p ++ "/"); [exact Hk|].
  apply startsWith_append.
Qed.

Lemma coveredBy_app (l1 l2 : list FileSystemItem) (k : string) :
  coveredBy (l1 ++ l2) k = coveredBy l1 k || coveredBy l2 k.
Proof. apply existsb_app. Qed.

Lemma covered_subtree (s0 : FilesStoreState) (done : list FileSystemItem)
    (t : FileSystemItem) (k : string) :
  (forall a, In a done -> get (path a) (items s0) = Some a) ->
  get (path t) (items s0) = Some t ->
  coveredBy done (path t) = true -> inSubtree (path t) t k = true ->
  coveredBy done k = true.
Proof.
  intros Hd Ht C I. unfold coveredBy in *.
  apply existsb_exists in C. destruct C as [a [Ha Ca]].
  apply existsb_exists. exists a. split; [exact Ha|].
  unfold inSubtree in *.
  apply orb_true_iff in I. destruct I as [I|I].
  - apply String.eqb_eq in I. now subst k.
  - apply andb_true_iff in I. destruct I as [Dt Bk].
    apply orb_true_iff in Ca. destruct Ca as [Ca|Ca].
    + apply String.eqb_eq in Ca. pose proof (Hd a Ha) as Sa.
      rewrite <- Ca, Ht in Sa. injection Sa as <-.
      now rewrite Dt, Bk, orb_true_r.
    + apply andb_true_iff in Ca. destruct Ca as [Da Bp].
      now rewrite Da, (below_below _ _ _ Bk Bp), orb_true_r.
Qed.

Lemma libraryState_removeItem (p : string) (permanent : bool)
    (now : string -> Z) (s : FilesStoreState) :
  libraryState (fst (removeItem p permanent now s)) = libraryState s.
Proof. unfold removeItem. now destruct (get p (items s)). Qed.

Lemma emptyTrash_fold (now : string -> Z) (s0 : FilesStoreState)
    (ts : list FileSystemItem) :
  forall (done : list FileSystemItem) (acc : FilesStoreState * list string),
    (forall t, In t (done ++ ts) -> get (path t) (items s0) = Some t) ->
    (forall k, modIcon k (get k (items (fst acc))) =
               if coveredBy done k then None
               else modIcon k (get k (items s0))) ->
    libraryState (fst acc) = libraryState s0 ->
    let r :=
      fold_left
        (fun acc item =>
           (fst (removeItem (path item) true now (fst acc)),
            if negb (isDirectory item)
            then match Js.orStr (uuid item) None with
                 | Some u => (snd acc ++ [u])%list
                 | None => snd acc
                 end
            else snd acc)) ts acc in
    (forall k, modIcon k (get k (items (fst r))) =
               if coveredBy (done ++ ts) k then None
               else modIcon k (get k (items s0))) /\
    libraryState (fst r) = libraryState s0 /\
    snd r =
      (snd acc ++
       flat_map (fun t => if negb (isDirectory t)
                          then match Js.orStr (uuid t) None with
                               | Some u => [u]
                               | None => []
                               end
                          else []) ts)%list.
Proof.
  induction ts as [|t r IH]; intros done acc Hst Inv Lib.
  - cbn zeta. simpl fold_left. rewrite !app_nil_r. now repeat split.
  - cbn zeta. simpl fold_left.
    set (acc' := (fst (removeItem (path t) true now (fst acc)),
                  if negb (isDirectory t)
                  then match Js.orStr (uuid t) None with
                       | Some u => (snd acc ++ [u])%list
                       | None => snd acc
                       end
                  else snd acc)).
    assert (Hst' : forall a, In a ((done ++ [t]) ++ r) ->
                             get (path a) (items s0) = Some a)
      by (intros a Ha; apply Hst; now rewrite <- app_assoc in Ha).
    assert (Ht : get (path t) (items s0) = Some t)
      by (apply Hst, in_or_app; right; now left).
    assert (Hd : forall a, In a done -> get (path a) (items s0) = Some a)
      by (intros a Ha; apply Hst, in_or_app; now left).
    assert (Inv' : forall k,
               modIcon k (get k (items (fst acc'))) =
               if coveredBy (done ++ [t]) k then None
               else modIcon k (get k (items s0))).
    { intro k. unfold acc'. cbn [fst]. rewrite coveredBy_app.
      change (coveredBy [t] k) with (inSubtree (path t) t k || false).
      rewrite orb_false_r.
      pose proof (Inv (path t)) as Ip. rewrite Ht in Ip.
      destruct (get (path t) (items (fst acc))) as [u|] eqn:G.
      - destruct (coveredBy done (path t)) eqn:C.
        + unfold modIcon in Ip. now destruct (String.eqb (path t) "/Trash").
        + apply modIcon_some in Ip.
          destruct Ip as [u' [E [_ [Dir _]]]]. injection E as <-.
          rewrite (removeItem_get (path t) true now (fst acc) u k G),
            modIcon_retouch.
          cbn [orb]. unfold inSubtree at 1. rewrite Dir.
          fold (inSubtree (path t) t k).
          destruct (inSubtree (path t) t k) eqn:I.
          * rewrite removedAs_permanent, orb_true_r. unfold modIcon.
            now destruct (String.eqb k "/Trash").
          * rewrite orb_false_r. apply Inv.
      - unfold removeItem. rewrite G. cbn [fst]. rewrite Inv.
        destruct (coveredBy done k) eqn:C; [reflexivity|]. cbn [orb].
        destruct (inSubtree (path t) t k) eqn:I; [|reflexivity].
        destruct (coveredBy done (path t)) eqn:Cp.
        + now rewrite (covered_subtree s0 done t k Hd Ht Cp I) in C.
        + unfold modIcon in Ip.
          now destruct (String.eqb (path t) "/Trash"). }
    assert (Lib' : libraryState (fst acc') = libraryState s0)
      by (unfold acc'; cbn [fst]; now rewrite libraryState_removeItem).
    destruct (IH (done ++ [t])%list acc' Hst' Inv' Lib') as [R1 [R2 R3]].
    cbn zeta in R1, R2, R3. rewrite <- app_assoc in R1. simpl app in R1.
    split; [exact R1|]. split; [exact R2|].
    rewrite R3. unfold acc'. cbn [snd]. simpl flat_map.
    destruct (negb (isDirectory t)); [|reflexivity].
    destruct (Js.orStr (uuid t) None); [|reflexivity].
    now rewrite <- app_assoc.
Qed.

(** X8.  [emptyTrash()] on a well-keyed store: afterwards no item is in
    the trash; an item is gone exactly when it was trashed or lay below
    a trashed directory, whatever its own status, and every other item
    is as it was (the icon of ["/Trash"] apart); the identifiers
    returned are the [uuid]s of the trashed files, in the order of the
    store, so the one of an active file that is deleted with its
    trashed folder is not among them. *)
Theorem emptyTrash_contract (now : string -> Z) (s : FilesStoreState)
    (Hs : wellKeyed (items s) = true) :
  getTrashItems (fst (emptyTrash now s)) = [] /\
  libraryState (fst (emptyTrash now s)) = libraryState s /\
  snd (emptyTrash now s) =
    flat_map (fun t => if negb (isDirectory t)
                       then match Js.orStr (uuid t) None with
                            | Some u => [u]
                            | None => []
                            end
                       else []) (getTrashItems s) /\
  forall k,
    modIcon k (get k (items (fst (emptyTrash now s)))) =
    if coveredBy (getTrashItems s) k then None
    else modIcon k (get k (items s)).
Proof.
  assert (Hst : forall t, In t ([] ++ getTrashItems s) ->
                          get (path t) (items s) = Some t).
  { intros t Ht. simpl in Ht. unfold getTrashItems in Ht.
    apply filter_In in Ht. now apply wk_value_stored. }
  destruct (emptyTrash_fold now s (getTrashItems s) [] (s, []) Hst
              (fun k => eq_refl) eq_refl) as [R1 [R2 R3]].
  cbn zeta in R1, R2, R3. simpl app in R1, R3.
  fold (emptyTrash now s) in R1, R2, R3.
  split; [|now repeat split].
  assert (W : wellKeyed (items (fst (emptyTrash now s))) = true)
    by (unfold emptyTrash; now apply wk_emptyTrash_fold).
  unfold getTrashItems at 1.
  match goal with |- filter ?f ?l = [] =>
    assert (F : forall v, In v l -> f v = false) end.
  { intros v Hv. pose proof (wk_value_stored _ _ W Hv) as G.
    pose proof (R1 (path v)) as I. rewrite G in I.
    destruct (coveredBy (getTrashItems s) (path v)) eqn:C.
    { unfold modIcon in I. now destruct (String.eqb (path v) "/Trash"). }
    symmetry in I. apply modIcon_some in I.
    destruct I as [c [Gc [St [_ [Pc _]]]]].
    destruct (status_eqb (status v) trashed) eqn:T; [|reflexivity].
    exfalso. apply status_eqb_eq in T.
    assert (Hc : In c (getTrashItems s)).
    { unfold getTrashItems. apply filter_In. split.
      - now apply get_In_values in Gc.
      - apply status_eqb_eq. congruence. }
    assert (C' : coveredBy (getTrashItems s) (path v) = true).
    { unfold coveredBy. apply existsb_exists. exists c. split; [exact Hc|].
      unfold inSubtree. now rewrite Pc, String.eqb_refl. }
    congruence. }
  induction (obj_values (items (fst (emptyTrash now s)))) as [|a l IHl];
    [reflexivity|].
  simpl. rewrite (F a (or_introl eq_refl)). apply IHl.
  intros v Hv. apply F. now right.
Qed.

Lemma emptyTrash_contract_witness :
  let s := fst (removeItem "/Documents/Sub" false noon sampleStore) in
  wellKeyed (items s) = true /\
  getTrashItems (fst (emptyTrash noon s)) = [] /\
  snd (emptyTrash noon s) = ["uuid-b"] /\
  get "/Documents/Sub/b.txt" (items (fst (emptyTrash noon s))) = None /\
  get "/Documents/a.txt" (items (fst (emptyTrash noon s))) =
    Some (fileItem "/Documents/a.txt" "a.txt" "uuid-a").
Proof.
  cbv zeta.
  pose proof (emptyTrash_contract noon
                (fst (removeItem "/Documents/Sub" false noon sampleStore))
                eq_refl) as [H1 [_ [H3 H4]]].
  split; [reflexivity|]. split; [exact H1|]. split; [exact H3|].
  split; [exact (H4 "/Documents/Sub/b.txt")|exact (H4 "/Documents/a.txt")].
Defined.

End EmptyTrashFacts.

(** ** What a folder lists *)

Module ListingFacts.

Import FilesStore JsFacts FilesStoreFacts FilesInvariants TrashFacts.

Lemma listed_folder (q : string) (s : FilesStoreState) (v : FileSystemItem) :
  q <> "/Trash" -> In v (getItemsInPath q s) ->
  In v (obj_values (items s)) /\ status v = active /\
  getParentPath (path v) = q.
Proof.
  intros Hq H. unfold getItemsInPath in H.
  destruct (String.eqb q "/") eqn:R.
  - apply String.eqb_eq in R. subst q. apply filter_In in H.
    destruct H as [Hv F]. apply andb_true_iff in F. destruct F as [F P].
    apply andb_true_iff in F. destruct F as [A _].
    apply status_eqb_eq in A. apply String.eqb_eq in P. now repeat split.
  - destruct (String.eqb q "/Trash") eqn:T;
      [apply String.eqb_eq in T; contradiction|].
    apply filter_In in H. destruct H as [Hv F].
    apply andb_true_iff in F. destruct F as [A P].
    apply status_eqb_eq in A. apply String.eqb_eq in P. now repeat split.
Qed.

Lemma lists_child (s : FilesStoreState) (v : FileSystemItem) :
  In v (obj_values (items s)) -> status v = active ->
  path v <> "/" -> getParentPath (path v) <> "/Trash" ->
  In v (getItemsInPath (getParentPath (path v)) s).
Proof.
  intros Hv A R T. unfold getItemsInPath.
  destruct (String.eqb (getParentPath (path v)) "/") eqn:E.
  - apply filter_In. split; [exact Hv|]. rewrite A, E.
    apply String.eqb_neq in R. now rewrite R.
  - apply String.eqb_neq in T. rewrite T. apply filter_In.
    split; [exact Hv|]. now rewrite A, String.eqb_refl.
Qed.

(** X9.  What [addItem] stores shows up where it belongs: when the
    parent is usable, the item now under the path is listed by
    [getItemsInPath] for its parent folder.  The root item itself and
    what lies under ["/Trash"] are the exceptions: the root is never
    listed, and the listing of ["/Trash"] shows the trashed items of the
    whole store and no active one. *)
Theorem added_item_is_listed (now : Z) (fresh : string) (d : ItemData)
    (s : FilesStoreState)
    (Hparent : parentUnusable (items s) (getParentPath (d_path d)) = false)
    (Hroot : d_path d <> "/")
    (Htrash : getParentPath (d_path d) <> "/Trash") :
  (exists it,
     getItem (d_path d) (addItem now fresh d s) = Some it /\
     path it = d_path d /\ name it = d_name d /\ status it = active /\
     In it (getItemsInPath (getParentPath (d_path d)) (addItem now fresh d s)))
  /\
  (forall v, In v (getItemsInPath "/Trash" (addItem now fresh d s)) ->
             status v = trashed) /\
  (forall q v, In v (getItemsInPath q (addItem now fresh d s)) ->
               path v <> "/" \/ q = "/Trash").
Proof.
  split; [|split].
  - assert (G : exists it,
               get (d_path d) (items (addItem now fresh d s)) = Some it /\
               path it = d_path d /\ name it = d_name d /\
               status it = active).
    { unfold addItem. cbv zeta.
      change (path (newItemOf now fresh d)) with (d_path d).
      rewrite Hparent.
      destruct (get (d_path d) (items s)) eqn:E; cbn [items].
      - rewrite get_set_same. eexists. now repeat split.
      - apply String.eqb_neq in Htrash. rewrite Htrash. cbn [andb].
        assert (G' : get (d_path d)
                       (set (d_path d) (newItemOf now fresh d) (items s)) =
                     Some (newItemOf now fresh d)) by apply get_set_same.
        exists (newItemOf now fresh d).
        destruct (get "/Trash" (items s)); (split; [exact G'|now repeat split]). }
    destruct G as [it [G [P [N A]]]]. exists it. unfold getItem.
    repeat split; try assumption.
    rewrite <- P. apply lists_child; try congruence.
    now apply get_In_values in G.
  - intros v H. unfold getItemsInPath in H. simpl in H.
    apply filter_In in H. now apply status_eqb_eq.
  - intros q v H. destruct (String.eqb q "/Trash") eqn:T.
    + right. now apply String.eqb_eq.
    + left. apply String.eqb_neq in T. unfold getItemsInPath in H.
      destruct (String.eqb q "/") eqn:R.
      * apply filter_In in H. destruct H as [_ F].
        apply andb_true_iff in F. destruct F as [F _].
        apply andb_true_iff in F. destruct F as [_ F].
        apply negb_true_iff in F. now apply String.eqb_neq.
      * apply String.eqb_neq in T. rewrite T in H.
        apply filter_In in H. destruct H as [_ F].
        apply andb_true_iff in F. destruct F as [_ P].
        apply String.eqb_eq in P. intro E. rewrite E in P. simpl in P.
        subst q. discriminate.
Qed.

Lemma added_item_is_listed_witness :
  parentUnusable (items sampleStore) (getParentPath "/Documents/n.txt")
    = false /\
  "/Documents/n.txt" <> "/" /\
  getParentPath "/Documents/n.txt" <> "/Trash" /\
  exists it,
    In it (getItemsInPath "/Documents"
             (addItem 7 "uuid-n"
                (plainData "/Documents/n.txt" "n.txt" false) sampleStore)) /\
    name it = "n.txt".
Proof.
  split; [reflexivity|]. split; [discriminate|]. split; [discriminate|].
  destruct (proj1 (added_item_is_listed 7 "uuid-n"
                     (plainData "/Documents/n.txt" "n.txt" false) sampleStore
                     eq_refl ltac:(discriminate) ltac:(discriminate)))
    as [it [_ [_ [N [_ L]]]]].
  exists it. split; [exact L|exact N].
Defined.

(** X10.  An item moved to the trash leaves its folder and shows up in
    the trash: after [removeItem(path)] on an active item of a
    well-keyed store the listing of ["/Trash"] holds the item (same
    [uuid], [originalPath] set to the path), and no other listing holds
    the item or, for a directory, anything below it. *)
Theorem trashed_item_changes_listing (p : string) (now : string -> Z)
    (s : FilesStoreState) (it : FileSystemItem)
    (Hs : wellKeyed (items s) = true)
    (Hstored : get p (items s) = Some it)
    (Hactive : status it = active) :
  (exists it',
     In it' (getItemsInPath "/Trash" (fst (removeItem p false now s))) /\
     path it' = p /\ uuid it' = uuid it /\ originalPath it' = Some p /\
     deletedAt it' = Some (now p)) /\
  (forall q v,
     q <> "/Trash" ->
     In v (getItemsInPath q (fst (removeItem p false now s))) ->
     inSubtree p it (path v) = false).
Proof.
  pose proof (removeItem_get p false now s it) as G1.
  rewrite Hactive in G1. cbn [status_eqb orb] in G1.
  split.
  - pose proof (G1 p Hstored) as Gp. unfold inSubtree in Gp.
    rewrite String.eqb_refl in Gp. cbn [orb] in Gp. rewrite Hstored in Gp.
    simpl removedAs in Gp. rewrite Hactive in Gp. cbn [status_eqb] in Gp.
    pose proof (wk_get_path _ _ _ Hs Hstored) as Pp.
    destruct (String.eqb p "/Trash");
      cbn [option_map] in Gp; apply get_In_values in Gp;
      (eexists; split;
       [unfold getItemsInPath; simpl String.eqb; cbv iota;
        apply filter_In; split; [exact Gp|reflexivity]
       |now repeat split]).
  - intros q v Hq Hv. apply listed_folder in Hv; [|exact Hq].
    destruct Hv as [Hv [A _]].
    pose proof (wk_removeItem p false now s Hs) as W.
    pose proof (wk_value_stored _ _ W Hv) as Gv.
    rewrite (G1 (path v) Hstored) in Gv.
    destruct (inSubtree p it (path v)); [|reflexivity]. exfalso.
    apply (f_equal (modIcon (path v))) in Gv. rewrite modIcon_retouch in Gv.
    destruct (get (path v) (items s)) as [c|].
    + simpl removedAs in Gv. apply modIcon_some in Gv.
      destruct Gv as [c' [E [St _]]]. injection E as <-.
      rewrite A in St.
      destruct (status c) eqn:Sc; simpl in St; congruence.
    + simpl in Gv. unfold modIcon in Gv.
      now destruct (String.eqb (path v) "/Trash").
Qed.

Lemma trashed_item_changes_listing_witness :
  wellKeyed (items sampleStore) = true /\
  get "/Documents/a.txt" (items sampleStore) =
    Some (fileItem "/Documents/a.txt" "a.txt" "uuid-a") /\
  map path
    (getItemsInPath "/Trash"
       (fst (removeItem "/Documents/a.txt" false noon sampleStore))) =
    ["/Documents/a.txt"] /\
  map path
    (getItemsInPath "/Documents"
       (fst (removeItem "/Documents/a.txt" false noon sampleStore))) =
    ["/Documents/Sub"] /\
  forall q v,
    q <> "/Trash" ->
    In v (getItemsInPath q
            (fst (removeItem "/Documents/a.txt" false noon sampleStore))) ->
    inSubtree "/Documents/a.txt"
      (fileItem "/Documents/a.txt" "a.txt" "uuid-a") (path v) = false.
Proof.
  split; [reflexivity|]. split; [reflexivity|]. split; [reflexivity|].
  split; [reflexivity|].
  exact (proj2 (trashed_item_changes_listing "/Documents/a.txt" noon
                  sampleStore (fileItem "/Documents/a.txt" "a.txt" "uuid-a")
                  eq_refl eq_refl eq_refl)).
Defined.

End ListingFacts.

(** ** The default directories *)

Module SyncFacts.

Import FilesStore JsFacts FilesStoreFacts.

Lemma syncOne_get_other (now : Z) (acc : Items) (dir : ItemData)
    (k : string) :
  k <> d_path dir -> get k (syncOne now acc dir) = get k acc.
Proof.
  intro N. unfold syncOne. destruct (get (d_path dir) acc).
  - destruct (needsUpdate f dir); [now apply get_set_other|reflexivity].
  - now apply get_set_other.
Qed.

Lemma syncOne_get_same (now : Z) (acc : Items) (dir : ItemData) :
  exists it,
    get (d_path dir) (syncOne now acc dir) = Some it /\ status it = active /\
    (isDirectory it = true \/ get (d_path dir) acc = None).
Proof.
  unfold syncOne. destruct (get (d_path dir) acc) as [e|] eqn:G.
  - destruct (needsUpdate e dir) eqn:U.
    + rewrite get_set_same. eexists. split; [reflexivity|].
      split; [reflexivity|now left].
    + exists e. split; [exact G|]. unfold needsUpdate in U.
      repeat (apply orb_false_iff in U; destruct U as [U ?]).
      apply negb_false_iff in U. apply status_eqb_eq in U.
      split; [exact U|]. left. now apply negb_false_iff.
  - rewrite get_set_same. eexists. split; [reflexivity|].
    split; [reflexivity|now right].
Qed.

Lemma syncOne_keeps (now : Z) (acc : Items) (dir : ItemData) (k : string)
    (e : FileSystemItem) :
  get k acc = Some e ->
  exists it,
    get k (syncOne now acc dir) = Some it /\
    path it = path e /\ uuid it = uuid e /\ createdAt it = createdAt e /\
    size it = size e /\
    (it = e \/ (status it = active /\ isDirectory it = true)).
Proof.
  intro G. destruct (String.eqb k (d_path dir)) eqn:E.
  - apply String.eqb_eq in E. subst k. unfold syncOne. rewrite G.
    destruct (needsUpdate e dir).
    + rewrite get_set_same. eexists. split; [reflexivity|].
      repeat split. right. now split.
    + exists e. split; [exact G|]. repeat split. now left.
  - apply String.eqb_neq in E. rewrite (syncOne_get_other _ _ _ _ E).
    exists e. split; [exact G|]. repeat split. now left.
Qed.

Lemma sync_fold_frame (now : Z) (l : list ItemData) (k : string) :
  forall acc,
    (forall dir, In dir l -> d_path dir <> k) ->
    get k (fold_left (syncOne now) l acc) = get k acc.
Proof.
  induction l as [|dir r IH]; intros acc H; [reflexivity|].
  simpl fold_left. rewrite IH; [|intros d Hd; apply H; now right].
  apply syncOne_get_other. intro E. apply (H dir); [now left|now symmetry].
Qed.

Lemma sync_fold_keeps (now : Z) (l : list ItemData) (k : string) :
  forall acc e,
    get k acc = Some e ->
    exists it,
      get k (fold_left (syncOne now) l acc) = Some it /\
      path it = path e /\ uuid it = uuid e /\ createdAt it = createdAt e /\
      size it = size e /\
      (it = e \/ (status it = active /\ isDirectory it = true)).
Proof.
  induction l as [|dir r IH]; intros acc e G.
  - exists e. split; [exact G|]. repeat split. now left.
  - simpl fold_left.
    destruct (syncOne_keeps now acc dir k e G)
      as [e1 [G1 [P1 [U1 [C1 [S1 D1]]]]]].
    destruct (IH _ _ G1) as [it [G2 [P2 [U2 [C2 [S2 D2]]]]]].
    exists it. split; [exact G2|]. repeat split; try congruence.
    destruct D2 as [->|D2]; [exact D1|now right].
Qed.

Lemma sync_fold_never_drops (now : Z) (l : list ItemData) (k : string)
    (acc : Items) :
  get k (fold_left (syncOne now) l acc) = None -> get k acc = None.
Proof.
  intro H. destruct (get k acc) as [e|] eqn:G; [|reflexivity].
  destruct (sync_fold_keeps now l k acc e G) as [it [G' _]]. congruence.
Qed.

Lemma sync_fold_present (now : Z) (l : list ItemData) :
  forall acc dir,
    In dir l ->
    exists it,
      get (d_path dir) (fold_left (syncOne now) l acc) = Some it /\
      status it = active /\
      (isDirectory it = true \/ get (d_path dir) acc = None).
Proof.
  induction l as [|d r IH]; intros acc dir H; [easy|].
  simpl fold_left. destruct H as [->|H].
  - destruct (syncOne_get_same now acc dir) as [e1 [G1 [A1 D1]]].
    destruct (sync_fold_keeps now r _ _ _ G1) as [it [G2 [_ [_ [_ [_ D2]]]]]].
    exists it. split; [exact G2|].
    destruct D2 as [->|[A2 D2]]; [now split|]. split; [exact A2|now left].
  - destruct (IH (syncOne now acc d) dir H) as [it [G [A D]]].
    exists it. split; [exact G|]. split; [exact A|].
    destruct D as [D|D]; [now left|]. right.
    now apply (sync_fold_never_drops now [d]).
Qed.

(** X11.  [syncRootDirectoriesFromDefaults()] reconciles without
    touching what the user has: afterwards every default directory of
    the root level is in the store and active (and is a directory if
    the path held something before); an item the store had is still
    there, under the same key, with its [path], [uuid], [createdAt] and
    [size], and is either untouched or an active directory; and a key
    that is not the path of a root-level default is not written at
    all. *)
Theorem syncRootDirectories_contract (directories : list ItemData)
    (now : Z) (s : FilesStoreState) :
  libraryState (syncRootDirectoriesFromDefaults directories now s) =
    libraryState s /\
  (forall dir,
     In dir directories -> isRootLevel dir = true ->
     exists it,
       get (d_path dir)
         (items (syncRootDirectoriesFromDefaults directories now s)) =
         Some it /\
       status it = active /\
       (isDirectory it = true \/ get (d_path dir) (items s) = None)) /\
  (forall k e,
     get k (items s) = Some e ->
     exists it,
       get k (items (syncRootDirectoriesFromDefaults directories now s)) =
         Some it /\
       path it = path e /\ uuid it = uuid e /\ createdAt it = createdAt e /\
       size it = size e /\
       (it = e \/ (status it = active /\ isDirectory it = true))) /\
  (forall k,
     (forall dir, In dir directories -> isRootLevel dir = true ->
                  d_path dir <> k) ->
     get k (items (syncRootDirectoriesFromDefaults directories now s)) =
       get k (items s)).
Proof.
  unfold syncRootDirectoriesFromDefaults. cbn [items libraryState].
  split; [reflexivity|]. split; [|split].
  - intros dir Hd Hr. apply sync_fold_present. now apply filter_In.
  - intros k e G. now apply sync_fold_keeps.
  - intros k H. apply sync_fold_frame. intros dir Hd.
    apply filter_In in Hd. now apply H.
Qed.

Lemma syncRootDirectories_contract_witness :
  let s := fst (removeItem "/Images" false noon sampleStore) in
  let defaults :=
    [defaultDir "/" ""; defaultDir "/Images" "Images";
     defaultDir "/Music" "Music"; defaultDir "/Images/Wallpapers" "W"] in
  option_map status (get "/Images" (items s)) = Some trashed /\
  option_map status
    (get "/Images" (items (syncRootDirectoriesFromDefaults defaults 9 s))) =
    Some active /\
  option_map status
    (get "/Music" (items (syncRootDirectoriesFromDefaults defaults 9 s))) =
    Some active /\
  get "/Images/Wallpapers"
    (items (syncRootDirectoriesFromDefaults defaults 9 s)) = None /\
  get "/Documents/a.txt"
    (items (syncRootDirectoriesFromDefaults defaults 9 s)) =
    get "/Documents/a.txt" (items s).
Proof.
  cbv zeta. split; [reflexivity|]. split; [reflexivity|].
  split; [reflexivity|]. split; [reflexivity|].
  apply (proj2 (proj2 (proj2 (syncRootDirectories_contract _ 9 _)))).
  intros dir [<-|[<-|[<-|[<-|[]]]]] _; discriminate.
Defined.

End SyncFacts.

(** ** The facade: folders, renaming, moving, saving *)

Module FacadeFacts.

Import FilesStore FileSystem JsFacts FilesStoreFacts FilesInvariants
  PathFacts ListingFacts.

(** X12.  [renameFile] keeps an item in its folder: for a path made of
    valid names, [newPath] is the old path with its last segment
    replaced by [newName], whatever [newName] is; so when [newName] is a
    valid name too the parent of the new path is the parent of the old
    one. *)
Theorem renamedPath_sibling (segs : list string) (n newName : string)
    (Hvalid : forallb validName (segs ++ [n]) = true) :
  renamedPath (joinPath (segs ++ [n])) newName = joinPath (segs ++ [newName])
  /\
  (validName newName = true ->
   getParentPath (renamedPath (joinPath (segs ++ [n])) newName) =
   getParentPath (joinPath (segs ++ [n]))).
Proof.
  assert (E : renamedPath (joinPath (segs ++ [n])) newName =
              joinPath (segs ++ [newName])).
  { unfold renamedPath. rewrite (parent_of_joinPath _ _ Hvalid).
    rewrite forallb_app in Hvalid. apply andb_true_iff in Hvalid.
    destruct Hvalid as [Fs _].
    destruct segs as [|a r]; [reflexivity|].
    destruct (String.eqb (joinPath (a :: r)) "/") eqn:R.
    - apply String.eqb_eq in R. exfalso.
      now apply (joinPath_not_root (a :: r) Fs).
    - unfold joinPath. rewrite concat_last; [|discriminate].
      now rewrite !append_assoc. }
  split; [exact E|]. intro Hn. rewrite E.
  rewrite !parent_of_joinPath; [reflexivity|exact Hvalid|].
  rewrite forallb_app in *. apply andb_true_iff in Hvalid.
  destruct Hvalid as [Fs _]. rewrite Fs. simpl. now rewrite Hn.
Qed.

Lemma renamedPath_sibling_witness :
  forallb validName (["Documents"] ++ ["a.txt"]) = true /\
  renamedPath "/Documents/a.txt" "b.txt" = "/Documents/b.txt" /\
  renamedPath "/a.txt" "b.txt" = "/b.txt".
Proof.
  split; [reflexivity|]. split.
  - exact (proj1 (renamedPath_sibling ["Documents"] "a.txt" "b.txt" eq_refl)).
  - exact (proj1 (renamedPath_sibling [] "a.txt" "b.txt" eq_refl)).
Defined.

Lemma renameChild_keeps_destination (o acc : Items) (src dst k : string)
    (v : FileSystemItem) :
  get dst o = None -> get dst acc = Some v ->
  get dst (renameChild o src dst acc k) = Some v.
Proof.
  intros Hd Ha. unfold renameChild.
  destruct (Js.startsWith k (src ++ "/")) eqn:B; [|exact Ha].
  destruct (get k o) eqn:G; [|exact Ha].
  rewrite get_set_other; [|intro E; symmetry in E;
                           now apply (child_path_longer dst k src) in E].
  rewrite get_delete_other; [exact Ha|]. intro E. congruence.
Qed.

(** X13.  [renameFile(oldPath, newName)] and the store: nothing changes
    when there is no item at [oldPath], when [newPath] is taken (by any
    item, trashed ones included, and so when the name is the one the
    item has), or when the item is not active.  Otherwise the item is
    under [newPath] with [path] and [name] rewritten and every other
    field, the [uuid] among them, as it was; for a file [oldPath] is
    gone and no other key is touched. *)
Theorem renameFile_contract (oldPath newName : string)
    (s : FilesStoreState) :
  match get oldPath (items s),
        get (renamedPath oldPath newName) (items s) with
  | None, _ => renameFile oldPath newName s = s
  | Some _, Some _ => renameFile oldPath newName s = s
  | Some it, None =>
      if status_eqb (status it) active
      then
        libraryState (renameFile oldPath newName s) = libraryState s /\
        get (renamedPath oldPath newName)
          (items (renameFile oldPath newName s)) =
          Some (withFields it (renamedPath oldPath newName) newName (icon it)
                  active (originalPath it) (deletedAt it)) /\
        (if isDirectory it then True
         else
           forall k,
             get k (items (renameFile oldPath newName s)) =
             if String.eqb k (renamedPath oldPath newName)
             then Some (withFields it (renamedPath oldPath newName) newName
                          (icon it) active (originalPath it) (deletedAt it))
             else if String.eqb k oldPath then None
                  else get k (items s))
      else renameFile oldPath newName s = s
  end.
Proof.
  unfold renameFile, getItem.
  destruct (get oldPath (items s)) as [it|] eqn:Go; [|reflexivity].
  destruct (get (renamedPath oldPath newName) (items s)) eqn:Gn;
    [reflexivity|].
  destruct (status_eqb (status it) active) eqn:A.
  - apply status_eqb_eq in A.
    unfold renameItem. rewrite Go, Gn, A. cbn [status_eqb negb]. cbv zeta.
    cbn [items libraryState]. split; [reflexivity|].
    destruct (isDirectory it) eqn:D.
    + split; [|exact I].
      apply fold_left_keeps; [apply get_set_same|].
      intros acc e _ H. now apply renameChild_keeps_destination.
    + split; [apply get_set_same|].
      intro k. rewrite get_set, get_delete. reflexivity.
  - unfold renameItem. rewrite Go, A. reflexivity.
Qed.

Lemma renameFile_contract_witness :
  get "/Documents/b.txt"
    (items (renameFile "/Documents/a.txt" "b.txt" sampleStore)) =
    Some (fileItem "/Documents/b.txt" "b.txt" "uuid-a") /\
  get "/Documents/a.txt"
    (items (renameFile "/Documents/a.txt" "b.txt" sampleStore)) = None /\
  renameFile "/Documents/a.txt" "a.txt" sampleStore = sampleStore.
Proof.
  pose proof (renameFile_contract "/Documents/a.txt" "b.txt" sampleStore)
    as H.
  pose proof (renameFile_contract "/Documents/a.txt" "a.txt" sampleStore)
    as H'.
  split; [exact (proj2 (proj2 H) "/Documents/b.txt")|].
  split; [exact (proj2 (proj2 H) "/Documents/a.txt")|exact H'].
Defined.

(** X14.  [moveFile(sourceFile, targetFolderPath)] answers [true]
    exactly when the source it was handed is not a directory, the
    target is a directory of the store, the new path is free and the
    content transfers went through; when it answers [false] the store
    is as it was.  The answer of [moveItem] is dropped, so [true] may
    come with an unchanged store (a source that is trashed or no longer
    there, a name with a ["/"]).  When [moveItem] does not refuse, the
    item stored at the source path is at the new path, [path] rewritten
    and nothing else, its old key is free and no other key changes (for
    a stored directory, when nothing lies below the new path: what was
    below it has followed). *)
Theorem moveFile_contract (sourceFile : option FileSystemItem)
    (targetFolderPath : string) (contentMoved : bool)
    (s : FilesStoreState) :
  (snd (moveFile sourceFile targetFolderPath contentMoved s) = true <->
   exists src targetFolder,
     sourceFile = Some src /\ isDirectory src = false /\
     contentMoved = true /\
     get targetFolderPath (items s) = Some targetFolder /\
     isDirectory targetFolder = true /\
     get (targetFolderPath ++ "/" ++ name src) (items s) = None) /\
  (if snd (moveFile sourceFile targetFolderPath contentMoved s)
   then
     exists src,
       sourceFile = Some src /\
       if moveRefused (items s) (path src)
            (targetFolderPath ++ "/" ++ name src)
       then fst (moveFile sourceFile targetFolderPath contentMoved s) = s
       else
         exists it,
           get (path src) (items s) = Some it /\
           get (targetFolderPath ++ "/" ++ name src)
             (items (fst (moveFile sourceFile targetFolderPath contentMoved
                            s))) =
             Some (withFields it (targetFolderPath ++ "/" ++ name src)
                     (name it) (icon it) (status it) (originalPath it)
                     (deletedAt it)) /\
           ((isDirectory it = true ->
             nothingBelow (items s) (targetFolderPath ++ "/" ++ name src)
             = true) ->
            forall q,
              get q
                (items (fst (moveFile sourceFile targetFolderPath
                               contentMoved s))) =
              if String.eqb q (targetFolderPath ++ "/" ++ name src)
              then Some (withFields it (targetFolderPath ++ "/" ++ name src)
                           (name it) (icon it) (status it) (originalPath it)
                           (deletedAt it))
              else if isDirectory it &&
                      Js.startsWith q
                        ((targetFolderPath ++ "/" ++ name src) ++ "/")
              then option_map
                     (fun c => withFields c q (name c) (icon c) (status c)
                                 (originalPath c) (deletedAt c))
                     (get (sourceOf (path src)
                             (targetFolderPath ++ "/" ++ name src) q)
                        (items s))
              else if String.eqb q (path src) ||
                      (isDirectory it &&
                       Js.startsWith q (path src ++ "/"))
              then None
              else get q (items s))
   else fst (moveFile sourceFile targetFolderPath contentMoved s) = s).
Proof.
  unfold moveFile, getItem.
  destruct sourceFile as [src|].
  2:{ split; [|reflexivity]. split; [discriminate|].
      intros [src [tf [E _]]]. discriminate. }
  destruct (isDirectory src) eqn:Ds.
  { split; [|reflexivity]. split; [discriminate|].
    intros [src' [tf [E [D _]]]]. injection E as <-. congruence. }
  destruct (get targetFolderPath (items s)) as [tf|] eqn:Gt.
  2:{ split; [|reflexivity]. split; [discriminate|].
      intros [src' [tf [_ [_ [_ [G _]]]]]]. discriminate. }
  destruct (isDirectory tf) eqn:Dt; cbn [negb].
  2:{ split; [|reflexivity]. split; [discriminate|].
      intros [src' [tf' [_ [_ [_ [G [D _]]]]]]]. injection G as <-.
      congruence. }
  cbv zeta.
  destruct (get (targetFolderPath ++ "/" ++ name src) (items s)) eqn:Gn.
  { split; [|reflexivity]. split; [discriminate|].
    intros [src' [tf' [E [_ [_ [_ [_ G]]]]]]]. injection E as <-.
    congruence. }
  destruct contentMoved.
  2:{ split; [|reflexivity]. split; [discriminate|].
      intros [src' [tf' [_ [_ [C _]]]]]. discriminate. }
  cbn [fst snd]. split.
  { split; [|reflexivity]. intros _. exists src, tf. now repeat split. }
  exists src. split; [reflexivity|].
  destruct (moveRefused (items s) (path src)
              (targetFolderPath ++ "/" ++ name src)) eqn:R.
  - now rewrite (moveItem_refused _ _ _ R).
  - destruct (moveItem_moved _ _ _ R) as [it [Gs [_ E]]].
    exists it. split; [exact Gs|]. split.
    + rewrite E. cbn [fst items]. destruct (isDirectory it) eqn:D.
      * apply fold_left_keeps; [apply get_set_same|].
        intros acc e He H.
        now apply moveChild_keeps_destination.
      * apply get_set_same.
    + intros Hfree q. apply (moveItem_table _ _ s it R Gs Hfree).
Qed.

Lemma moveFile_contract_witness :
  let trashedFile :=
    markTrashed "/Documents/a.txt" 1200
      (fileItem "/Documents/a.txt" "a.txt" "uuid-a") in
  let s := fst (removeItem "/Documents/a.txt" false noon sampleStore) in
  get "/Documents/a.txt" (items s) = Some trashedFile /\
  moveFile (Some trashedFile) "/Images" true s = (s, true) /\
  snd (moveFile (Some (fileItem "/Documents/a.txt" "a.txt" "uuid-a"))
         "/Images" true sampleStore) = true /\
  get "/Images/a.txt"
    (items (fst (moveFile
                   (Some (fileItem "/Documents/a.txt" "a.txt" "uuid-a"))
                   "/Images" true sampleStore))) =
    Some (fileItem "/Images/a.txt" "a.txt" "uuid-a") /\
  get "/Documents/a.txt"
    (items (fst (moveFile
                   (Some (fileItem "/Documents/a.txt" "a.txt" "uuid-a"))
                   "/Images" true sampleStore))) = None.
Proof.
  cbv zeta. split; [reflexivity|]. split; [reflexivity|].
  destruct (moveFile_contract
              (Some (fileItem "/Documents/a.txt" "a.txt" "uuid-a"))
              "/Images" true sampleStore) as [T H].
  split.
  - apply T. exists (fileItem "/Documents/a.txt" "a.txt" "uuid-a"),
      (dirItem "/Images" "Images"). repeat split.
  - destruct H as [src [Es H]]. injection Es as <-.
    destruct H as [it [Gi [H M]]]. cbv in Gi. injection Gi as <-.
    split; [exact H|].
    exact (M (fun D => match Bool.diff_false_true D with end)
             "/Documents/a.txt").
Defined.

(** X15.  [createFolder] never writes over an item: on a path that is
    taken, by a trashed item too, the store stays as it is (where
    [addItem] would merge and reactivate).  On a free path made of valid
    names, in a parent that is usable and is not ["/Trash"], the new
    folder is an active directory without [uuid] and is listed in its
    parent. *)
Theorem createFolder_contract (now : Z) (fresh : string)
    (segs : list string) (n : string) (s : FilesStoreState)
    (Hvalid : forallb validName (segs ++ [n]) = true)
    (Hparent : parentUnusable (items s) (joinPath segs) = false)
    (Htrash : joinPath segs <> "/Trash") :
  match get (joinPath (segs ++ [n])) (items s) with
  | Some _ => createFolder now fresh (joinPath (segs ++ [n])) n s = s
  | None =>
      let folder :=
        mkItem (joinPath (segs ++ [n])) n true (Some "/icons/directory.png")
          (Some "directory") None None None (Some now) (Some now) active
          None None None None None None None None None None in
      getItem (joinPath (segs ++ [n]))
        (createFolder now fresh (joinPath (segs ++ [n])) n s) = Some folder /\
      In folder
        (getItemsInPath (joinPath segs)
           (createFolder now fresh (joinPath (segs ++ [n])) n s))
  end.
Proof.
  unfold createFolder, getItem.
  destruct (get (joinPath (segs ++ [n])) (items s)) eqn:G; [reflexivity|].
  cbv zeta.
  assert (E : get (joinPath (segs ++ [n]))
                (items (addItem now fresh (folderData (joinPath (segs ++ [n])) n)
                          s)) =
              Some (newItemOf now fresh
                      (folderData (joinPath (segs ++ [n])) n))).
  { unfold addItem. cbv zeta.
    change (path (newItemOf now fresh (folderData (joinPath (segs ++ [n])) n)))
      with (joinPath (segs ++ [n])).
    rewrite (parent_of_joinPath _ _ Hvalid), Hparent, G.
    apply String.eqb_neq in Htrash. rewrite Htrash. cbn [andb items].
    destruct (get "/Trash" (items s)); apply get_set_same. }
  split; [exact E|].
  rewrite <- (parent_of_joinPath _ _ Hvalid).
  apply (lists_child _ (newItemOf now fresh
                          (folderData (joinPath (segs ++ [n])) n))).
  - now apply get_In_values in E.
  - reflexivity.
  - simpl path. apply joinPath_not_root; [exact Hvalid|now destruct segs].
  - simpl path. now rewrite (parent_of_joinPath _ _ Hvalid).
Qed.

Lemma createFolder_contract_witness :
  forallb validName (["Documents"] ++ ["New"]) = true /\
  parentUnusable (items sampleStore) (joinPath ["Documents"]) = false /\
  joinPath ["Documents"] <> "/Trash" /\
  map path
    (getItemsInPath "/Documents"
       (createFolder 7 "u" "/Documents/New" "New" sampleStore)) =
    ["/Documents/a.txt"; "/Documents/Sub"; "/Documents/New"] /\
  In (mkItem "/Documents/New" "New" true (Some "/icons/directory.png")
        (Some "directory") None None None (Some 7%Z) (Some 7%Z) active
        None None None None None None None None None None)
    (getItemsInPath "/Documents"
       (createFolder 7 "u" "/Documents/New" "New" sampleStore)).
Proof.
  split; [reflexivity|]. split; [reflexivity|]. split; [discriminate|].
  split; [reflexivity|].
  exact (proj2 (createFolder_contract 7 "u" ["Documents"] "New" sampleStore
                  eq_refl eq_refl ltac:(discriminate))).
Defined.

End FacadeFacts.

(** ** Saving a file *)

Module SaveFacts.

Import FilesStore FileSystem JsFacts FilesStoreFacts.

Lemma saveMetadata_path (p n : string) (fileSize : Z)
    (type_ icon_ shareId_ createdBy_ : option string) (now : Z)
    (existingItem : option FileSystemItem) :
  d_path (saveMetadata p n fileSize type_ icon_ shareId_ createdBy_ now
            existingItem) = p.
Proof. reflexivity. Qed.

Lemma orStr_given (a b : option string) :
  Js.orStr (read (given a)) b = Js.orStr a b.
Proof. now destruct a. Qed.

Lemma orStr_absorb (a b : option string) :
  Js.orStr a (Js.orStr a b) = Js.orStr a b.
Proof.
  unfold Js.orStr. destruct a as [x|]; [|reflexivity].
  now destruct (Js.truthy x).
Qed.

(** X16.  [saveFile] and the identifier of the content.  When [addItem]
    refuses the parent, the metadata stays as it is; the content step is
    still reached if an item with a [uuid] sits at the path, and the
    function stops otherwise.  When the parent is usable, the path
    holds an active file with the new size, whose [uuid] is the one the
    path had before when it had one (so an overwrite writes the content
    under the same key) and a fresh one otherwise; a [createdAt] that
    the path had is kept. *)
Theorem saveFile_contract (p n : string) (fileSize : Z)
    (type_ icon_ shareId_ createdBy_ : option string)
    (now storeNow : Z) (fresh : string) (s : FilesStoreState) :
  let r := saveFile p n fileSize type_ icon_ shareId_ createdBy_ now storeNow
             fresh s in
  let before := get p (items s) in
  if parentUnusable (items s) (getParentPath p)
  then
    fst r = s /\
    snd r = match before with
            | Some e =>
                match Js.orStr (uuid e) None with
                | Some u => ContentStep (storeNameOf p) u
                | None => MetadataFailed
                end
            | None => MetadataFailed
            end
  else
    exists saved,
      get p (items (fst r)) = Some saved /\
      path saved = p /\ name saved = n /\ isDirectory saved = false /\
      status saved = active /\ size saved = Some fileSize /\
      uuid saved =
        Js.orStr (match before with Some e => uuid e | None => None end)
          (Some fresh) /\
      snd r = (if Js.truthy
                    (match uuid saved with Some u => u | None => "" end)
               then ContentStep (storeNameOf p)
                      (match uuid saved with Some u => u | None => "" end)
               else MetadataFailed) /\
      match before with
      | Some e =>
          match createdAt e with
          | Some c => if Z.eqb c 0 then True else createdAt saved = Some c
          | None => True
          end
      | None => True
      end.
Proof.
  cbv zeta. unfold saveFile, getItem. cbv zeta.
  set (d := saveMetadata p n fileSize type_ icon_ shareId_ createdBy_ now
              (get p (items s))).
  destruct (parentUnusable (items s) (getParentPath p)) eqn:U.
  - assert (E : addItem storeNow fresh d s = s).
    { unfold addItem. cbv zeta.
      change (path (newItemOf storeNow fresh d)) with p. now rewrite U. }
    rewrite E. split.
    + destruct (get p (items s)) as [e|]; [|reflexivity].
      now destruct (Js.orStr (uuid e) None).
    + destruct (get p (items s)) as [e|]; [|reflexivity].
      now destruct (Js.orStr (uuid e) None).
  - assert (E : exists saved,
               get p (items (addItem storeNow fresh d s)) = Some saved /\
               path saved = p /\ name saved = n /\
               isDirectory saved = false /\
               status saved = active /\ size saved = Some fileSize /\
               uuid saved =
                 Js.orStr (match get p (items s) with
                           | Some e => uuid e
                           | None => None
                           end) (Some fresh) /\
               match get p (items s) with
               | Some e =>
                   match createdAt e with
                   | Some c => if Z.eqb c 0 then True
                               else createdAt saved = Some c
                   | None => True
                   end
               | None => True
               end).
    { unfold addItem. cbv zeta.
      change (path (newItemOf storeNow fresh d)) with p. rewrite U.
      destruct (get p (items s)) as [e|] eqn:G; cbn [items].
      - rewrite get_set_same. eexists. split; [reflexivity|].
        cbn [path name isDirectory status size uuid createdAt mergeItem
             newItemOf].
        repeat (split; [reflexivity|]). split.
        + unfold d, saveMetadata. cbn [d_uuid d_isDirectory].
          rewrite orStr_given. apply orStr_absorb.
        + destruct (createdAt e) as [c|]; [|exact I]. simpl.
          now destruct (Z.eqb c 0).
      - exists (newItemOf storeNow fresh d).
        split.
        + destruct (get "/Trash" (items s)) as [tr|]; [|apply get_set_same].
          match goal with |- context [if ?c then _ else _] =>
            destruct c eqn:B end; [|apply get_set_same].
          rewrite get_set_other; [apply get_set_same|].
          intro E. rewrite E in B. discriminate.
        + repeat split; reflexivity. }
    destruct E as [saved [G [P [N [D [A [S [Uu C]]]]]]]].
    exists saved. rewrite G. cbv iota.
    destruct (Js.orStr (uuid saved) None) as [k|] eqn:O; cbn [fst snd];
      (split; [exact G|]); repeat (split; [assumption|]);
      (split; [|exact C]);
      (destruct (uuid saved) as [u|]; simpl in O |- *;
       [destruct (Js.truthy u); congruence|congruence]).
Qed.

Lemma saveFile_contract_witness :
  (exists saved,
     get "/Documents/a.txt"
       (items (fst (saveFile "/Documents/a.txt" "a.txt" 99 None None None
                      None 50 51 "uuid-new" sampleStore))) = Some saved /\
     uuid saved = Some "uuid-a" /\ size saved = Some 99%Z) /\
  fst (saveFile "/Nowhere/a.txt" "a.txt" 99 None None None None 50 51
         "uuid-new" sampleStore) = sampleStore /\
  snd (saveFile "/Nowhere/a.txt" "a.txt" 99 None None None None 50 51
         "uuid-new" sampleStore) = MetadataFailed.
Proof.
  split.
  - destruct (saveFile_contract "/Documents/a.txt" "a.txt" 99 None None None
                None 50 51 "uuid-new" sampleStore)
      as [saved [G [_ [_ [_ [_ [S [U _]]]]]]]].
    exists saved. split; [exact G|]. split; [exact U|exact S].
  - exact (saveFile_contract "/Nowhere/a.txt" "a.txt" 99 None None None None
             50 51 "uuid-new" sampleStore).
Defined.

End SaveFacts.

(** ** Navigation *)

Module NavigationFacts.

Import FilesStore FileSystem.

Lemma navConsistent_spec (st : NavState) :
  navConsistent st = true <->
  exists cp, currentPath st = Some cp /\
             nth_error (history st) (historyIndex st) = Some cp.
Proof.
  unfold navConsistent. split.
  - destruct (currentPath st) as [cp|]; [|discriminate].
    destruct (nth_error (history st) (historyIndex st)) as [h|];
      [|discriminate].
    intro E. apply String.eqb_eq in E. subst. now exists h.
  - intros [cp [-> ->]]. apply String.eqb_refl.
Qed.

Lemma navConsistent_index (st : NavState) :
  navConsistent st = true -> historyIndex st < List.length (history st).
Proof.
  intro H. apply navConsistent_spec in H. destruct H as [cp [_ H]].
  apply nth_error_Some. congruence.
Qed.

Lemma nth_error_pushed (h : list string) (i : nat) (x : string) :
  i < List.length h ->
  nth_error (firstn (i + 1) h ++ [x]) (i + 1) = Some x /\
  nth_error (firstn (i + 1) h ++ [x]) i = nth_error h i /\
  List.length (firstn (i + 1) h ++ [x]) = i + 2.
Proof.
  intro L.
  assert (F : List.length (firstn (i + 1) h) = i + 1)
    by (rewrite length_firstn; lia).
  split; [|split].
  - rewrite nth_error_app2; [|lia]. rewrite F.
    now replace (i + 1 - (i + 1)) with 0 by lia.
  - rewrite nth_error_app1; [|lia]. rewrite nth_error_firstn.
    now replace (Nat.ltb i (i + 1)) with true
      by (symmetry; apply Nat.ltb_lt; lia).
  - rewrite length_app, F. simpl. lia.
Qed.

Lemma navigateToPath_consistent (p : string) (st : NavState) :
  navConsistent st = true -> navConsistent (navigateToPath p st) = true.
Proof.
  intro H. pose proof (navConsistent_index _ H) as L.
  unfold navigateToPath. cbv zeta.
  destruct (optStr_eqb _ (currentPath st)); [exact H|].
  apply navConsistent_spec. eexists. split; [reflexivity|].
  cbn [history historyIndex]. now apply nth_error_pushed.
Qed.

Lemma navigateBack_consistent (st : NavState) :
  navConsistent st = true -> navConsistent (navigateBack st) = true.
Proof.
  intro H. pose proof (navConsistent_index _ H) as L.
  unfold navigateBack. destruct (Nat.ltb 0 (historyIndex st)) eqn:B;
    [|exact H].
  apply Nat.ltb_lt in B. apply navConsistent_spec. cbn.
  destruct (nth_error (history st) (historyIndex st - 1)) as [x|] eqn:E.
  - now exists x.
  - apply nth_error_None in E. lia.
Qed.

Lemma navigateForward_consistent (st : NavState) :
  navConsistent st = true -> navConsistent (navigateForward st) = true.
Proof.
  intro H. unfold navigateForward.
  destruct (Nat.ltb (historyIndex st) (List.length (history st) - 1)) eqn:B;
    [|exact H].
  apply Nat.ltb_lt in B. apply navConsistent_spec. cbn.
  destruct (nth_error (history st) (historyIndex st + 1)) as [x|] eqn:E.
  - now exists x.
  - apply nth_error_None in E. lia.
Qed.

(** X17.  The navigation of a folder window stays consistent:
    [currentPath] is always the entry of [history] at [historyIndex],
    which therefore lies inside the array.  This holds at the start and
    is kept by [navigateToPath], [navigateUp], [navigateBack] and
    [navigateForward]; in such a state [navigateUp] never hands
    [undefined] to [getParentPath]. *)
Theorem navigation_stays_consistent (st : NavState)
    (Hst : navConsistent st = true) :
  (forall initialPath, navConsistent (initialNav initialPath) = true) /\
  historyIndex st < List.length (history st) /\
  (forall p, navConsistent (navigateToPath p st) = true) /\
  (exists st', navigateUp st = Some st' /\ navConsistent st' = true) /\
  navConsistent (navigateBack st) = true /\
  navConsistent (navigateForward st) = true.
Proof.
  split; [intro ip; unfold navConsistent; simpl; apply String.eqb_refl|].
  split; [now apply navConsistent_index|].
  split; [intro p; now apply navigateToPath_consistent|].
  split; [|split].
  - unfold navigateUp. pose proof Hst as H. apply navConsistent_spec in H.
    destruct H as [cp [-> _]]. eexists. split; [reflexivity|].
    destruct (String.eqb cp "/"); [exact Hst|].
    now apply navigateToPath_consistent.
  - now apply navigateBack_consistent.
  - now apply navigateForward_consistent.
Qed.

Lemma navigation_stays_consistent_witness :
  navConsistent (navigateToPath "Documents" (initialNav "/")) = true /\
  navigateUp (navigateToPath "Documents" (initialNav "/")) =
    Some (mkNav (Some "/") ["/"; "/Documents"; "/"] 2).
Proof.
  pose proof (navigation_stays_consistent
                (navigateToPath "Documents" (initialNav "/")) eq_refl)
    as [_ [_ [_ [[st' [E _]] _]]]].
  split; [reflexivity|]. rewrite E. injection E as <-. reflexivity.
Defined.

(** X18.  Back and forward undo each other: in a consistent state,
    [navigateForward] after a [navigateBack] that could move gives the
    state back, path, history and index, and so does [navigateBack]
    after a [navigateForward] that could move. *)
Theorem back_and_forward_are_inverse (st : NavState)
    (Hst : navConsistent st = true) :
  (if canNavigateBack st then navigateForward (navigateBack st) = st
   else navigateBack st = st) /\
  (if canNavigateForward st then navigateBack (navigateForward st) = st
   else navigateForward st = st).
Proof.
  pose proof (navConsistent_index _ Hst) as L.
  apply navConsistent_spec in Hst. destruct Hst as [cp [C N]].
  destruct st as [c h i]. cbn [currentPath history historyIndex] in *. subst c.
  unfold canNavigateBack, canNavigateForward, navigateBack, navigateForward.
  cbn [historyIndex history currentPath]. split.
  - destruct (Nat.ltb 0 i) eqn:B; [|reflexivity]. apply Nat.ltb_lt in B.
    cbn [historyIndex history currentPath].
    replace (Nat.ltb (i - 1) (List.length h - 1)) with true
      by (symmetry; apply Nat.ltb_lt; lia).
    replace (i - 1 + 1) with i by lia. now rewrite N.
  - destruct (Nat.ltb i (List.length h - 1)) eqn:F; [|reflexivity].
    cbn [historyIndex history currentPath].
    replace (Nat.ltb 0 (i + 1)) with true
      by (symmetry; apply Nat.ltb_lt; lia).
    replace (i + 1 - 1) with i by lia. now rewrite N.
Qed.

Lemma back_and_forward_are_inverse_witness :
  let st := navigateToPath "/Documents" (initialNav "/") in
  navConsistent st = true /\ canNavigateBack st = true /\
  navigateForward (navigateBack st) = st.
Proof.
  cbv zeta. split; [reflexivity|]. split; [reflexivity|].
  exact (proj1 (back_and_forward_are_inverse
                  (navigateToPath "/Documents" (initialNav "/")) eq_refl)).
Defined.

(** X19.  Going somewhere new cuts the way forward: [navigateToPath]
    to the current path changes nothing; to any other path it makes the
    normalized path current, keeps the history up to the current entry,
    drops what came after it and appends the new path, so that forward
    is no longer possible, and in a consistent state [navigateBack]
    leads to the path one came from. *)
Theorem navigateToPath_branches (p : string) (st : NavState) :
  let normalizedPath := if Js.startsWith p "/" then p else "/" ++ p in
  if optStr_eqb (Some normalizedPath) (currentPath st)
  then navigateToPath p st = st
  else
    currentPath (navigateToPath p st) = Some normalizedPath /\
    history (navigateToPath p st) =
      (firstn (historyIndex st + 1) (history st) ++ [normalizedPath])%list /\
    canNavigateForward (navigateToPath p st) = false /\
    (if navConsistent st
     then canNavigateBack (navigateToPath p st) = true /\
          currentPath (navigateBack (navigateToPath p st)) = currentPath st /\
          historyIndex (navigateBack (navigateToPath p st)) = historyIndex st /\
          navigateForward (navigateBack (navigateToPath p st)) =
            navigateToPath p st
     else True).
Proof.
  cbv zeta. unfold navigateToPath. cbv zeta.
  destruct (optStr_eqb _ (currentPath st)) eqn:E; [reflexivity|].
  cbn [currentPath history historyIndex].
  split; [reflexivity|]. split; [reflexivity|]. split.
  - unfold canNavigateForward. cbn [history historyIndex].
    apply Nat.ltb_ge. rewrite length_app, length_firstn. simpl. lia.
  - destruct (navConsistent st) eqn:H; [|exact I].
    pose proof (navConsistent_index _ H) as L.
    apply navConsistent_spec in H. destruct H as [cp [C N]].
    destruct (nth_error_pushed (history st) (historyIndex st)
                (if Js.startsWith p "/" then p else "/" ++ p) L)
      as [N1 [N2 N3]].
    unfold canNavigateBack, navigateBack, navigateForward.
    cbn [history historyIndex currentPath].
    replace (Nat.ltb 0 (historyIndex st + 1)) with true
      by (symmetry; apply Nat.ltb_lt; lia).
    cbn [history historyIndex currentPath].
    replace (historyIndex st + 1 - 1) with (historyIndex st) by lia.
    rewrite N2, N3, N, C.
    replace (Nat.ltb (historyIndex st) (historyIndex st + 2 - 1)) with true
      by (symmetry; apply Nat.ltb_lt; lia).
    now rewrite N1.
Qed.

Lemma navigateToPath_branches_witness :
  let st := navigateBack (navigateToPath "/Documents" (initialNav "/")) in
  canNavigateForward st = true /\
  history (navigateToPath "/Images" st) = ["/"; "/Images"] /\
  canNavigateForward (navigateToPath "/Images" st) = false /\
  currentPath (navigateBack (navigateToPath "/Images" st)) = Some "/".
Proof.
  cbv zeta. split; [reflexivity|].
  pose proof (navigateToPath_branches "/Images"
                (navigateBack (navigateToPath "/Documents" (initialNav "/"))))
    as [_ [H2 [H3 [_ [H4 _]]]]].
  split; [exact H2|]. split; [exact H3|exact H4].
Defined.

End NavigationFacts.

(** ** What every run of the window manager keeps *)

Module AppInvariants.

Import AppStore AppStoreFacts.

Lemma get_delete_instance (k k0 : nat) (o : Instances) :
  get k (delete k0 o) = if Nat.eqb k k0 then None else get k o.
Proof.
  destruct (Nat.eqb k k0) eqn:E.
  - apply Nat.eqb_eq in E. subst.
    apply (obj_get_delete_same _ _ Nat.eqb).
  - apply Nat.eqb_neq in E.
    now apply (obj_get_delete_other _ _ Nat.eqb Nat.eqb_eq).
Qed.

Lemma get_set_instance (k k0 : nat) (v : AppInstance) (o : Instances) :
  get k (set k0 v o) = if Nat.eqb k k0 then Some v else get k o.
Proof.
  destruct (Nat.eqb k k0) eqn:E.
  - apply Nat.eqb_eq in E. subst. apply instance_set_same.
  - apply Nat.eqb_neq in E. now apply instance_set_other.
Qed.

Lemma In_moveToEnd (k x : nat) (l : list nat) :
  In k (moveToEnd x l) <-> k = x \/ In k l.
Proof.
  unfold moveToEnd. rewrite in_app_iff, filter_In. simpl.
  destruct (Nat.eqb k x) eqn:E.
  - apply Nat.eqb_eq in E. subst. intuition.
  - apply Nat.eqb_neq in E. simpl. intuition.
Qed.

Lemma NoDup_moveToEnd (x : nat) (l : list nat) :
  NoDup l -> NoDup (moveToEnd x l).
Proof.
  intro N. unfold moveToEnd. apply NoDup_app.
  - now apply NoDup_filter.
  - constructor; [easy|constructor].
  - intros a Ha [<-|[]]. apply filter_In in Ha. destruct Ha as [_ Ha].
    now rewrite Nat.eqb_refl in Ha.
Qed.

Lemma nextAfterClose_In (o : Instances) (order : list nat) (app : string)
    (nf : nat) :
  nextAfterClose o order app = Some nf -> In nf order.
Proof.
  unfold nextAfterClose. destruct (find _ (rev order)) eqn:F.
  - intros [= <-]. apply find_some in F. apply in_rev. tauto.
  - destruct (rev order) as [|lst r] eqn:R; [discriminate|].
    intros [= <-]. apply in_rev. rewrite R. now left.
Qed.

(** The actions are built from seven steps on the store; what each of
    the seven keeps, every action keeps. *)
Lemma launchApp_keeps (P : AppStoreState -> Prop) :
  (forall env now ap d t s, P s -> P (fst (createAppInstance env now ap d t s)))
  ->
  (forall id s, P s -> P (bringInstanceToForeground id s)) ->
  (forall id s, P s -> P (restoreInstance id s)) ->
  (forall id d s, P s -> P (refreshInitialData id d s)) ->
  forall env now ap d t m s, P s -> P (fst (launchApp env now ap d t m s)).
Proof.
  intros Hc Hb Hr Hd env now ap d t m s Ps.
  assert (Hf : forall id s', P s' -> P (focusExisting id d s')).
  { intros id s' Ps'. unfold focusExisting.
    destruct (isTruthy d); [apply Hd|]; now apply Hb. }
  assert (T : P (fst (launchOrFocus env now ap d t m s))).
  { unfold launchOrFocus. destruct (supportsMultiWindow ap m).
    - now apply Hc.
    - destruct (find _ _); [now apply Hf|now apply Hc]. }
  unfold launchApp. destruct (_ && _); [|exact T].
  assert (R : forall l o s', P s' ->
                P (fst (fold_left
                          (fun acc inst =>
                             if flag (isMinimized inst)
                             then (restoreInstance (instanceId inst) (fst acc),
                                   Some (instanceId inst))
                             else acc) l (s', o)))).
  { induction l as [|x l IH]; intros o s' Ps'; simpl; [exact Ps'|].
    destruct (flag (isMinimized x)); [|now apply IH].
    apply IH. now apply Hr. }
  pose proof (R (filter (openOfApp ap) (obj_values (instances s))) None s Ps)
    as R'.
  fold (restoreAll (filter (openOfApp ap) (obj_values (instances s))) s) in R'.
  destruct (restoreAll _ s) as [live [lastId|]]; [|exact T].
  now apply Hf.
Qed.

Lemma perform_keeps (P : AppStoreState -> Prop) :
  (forall env now ap d t s, P s -> P (fst (createAppInstance env now ap d t s)))
  ->
  (forall id s, P s -> P (bringInstanceToForeground id s)) ->
  (forall id s, P s -> P (restoreInstance id s)) ->
  (forall id d s, P s -> P (refreshInitialData id d s)) ->
  (forall id s, P s -> P (markInstanceAsLoaded id s)) ->
  (forall id s, P s -> P (minimizeInstance id s)) ->
  (forall id s, P s -> P (closeAppInstance id s)) ->
  forall env now a s, P s -> P (perform env now s a).
Proof.
  intros Hc Hb Hr Hd Hl Hm Hx env now a s Ps. destruct a; simpl.
  - now apply Hc.
  - now apply launchApp_keeps.
  - now apply Hb.
  - now apply Hl.
  - now apply Hm.
  - now apply Hr.
  - now apply Hx.
Qed.

Lemma performAll_keeps (P : AppStoreState -> Prop) (env : Env) (now : Z) :
  (forall a s, P s -> P (perform env now s a)) ->
  forall actions s, P s -> P (performAll env now actions s).
Proof.
  intros H actions. unfold performAll.
  induction actions as [|a r IH]; intros s Ps; [exact Ps|].
  simpl. apply IH. now apply H.
Qed.

(** *** The order *)

Lemma order_set_present (id : nat) (v inst : AppInstance) (o : Instances)
    (order : list nat) :
  get id o = Some inst ->
  NoDup order /\ (forall k, In k order <-> get k o <> None) ->
  NoDup (moveToEnd id order) /\
  (forall k, In k (moveToEnd id order) <-> get k (set id v o) <> None).
Proof.
  intros G [N H]. split; [now apply NoDup_moveToEnd|].
  intro k. rewrite In_moveToEnd, get_set_instance.
  destruct (Nat.eqb k id) eqn:E.
  - apply Nat.eqb_eq in E. split; [discriminate|now left].
  - apply Nat.eqb_neq in E. rewrite H. intuition.
Qed.

Lemma has_setForegroundAll (f : nat -> bool) (k : nat) (o : Instances) :
  get k (setForegroundAll f o) <> None <-> get k o <> None.
Proof. rewrite get_setForegroundAll. now destruct (get k o). Qed.

Lemma createAppInstance_order (env : Env) (now : Z) (ap : string)
    (d : Unknown) (t : option string) (s : AppStoreState) :
  orderComplete s -> orderComplete (fst (createAppInstance env now ap d t s)).
Proof.
  intros [N H]. unfold createAppInstance, orderComplete.
  cbn [fst instances instanceOrder].
  split; [now apply NoDup_moveToEnd|]. intro k. rewrite In_moveToEnd.
  assert (E : forall o, get k o <> None <->
                        get k (if negb (negb (String.eqb ap "finder"))
                               then map (fun e =>
                                           if negb (Nat.eqb (fst e)
                                                      (Js.toNumber (nextInstanceId s + 1)))
                                           then (fst e,
                                                 withForeground false (snd e))
                                           else e) o
                               else o) <> None).
  { intro o. destruct (negb (negb _)); [|reflexivity].
    rewrite get_clear_others. now destruct (get k o). }
  rewrite <- E, get_set_instance.
  destruct (Nat.eqb k (Js.toNumber (nextInstanceId s + 1))) eqn:K.
  - apply Nat.eqb_eq in K. split; [discriminate|now left].
  - apply Nat.eqb_neq in K. rewrite H. intuition.
Qed.

Lemma bringInstanceToForeground_order (id : option nat) (s : AppStoreState) :
  orderComplete s -> orderComplete (bringInstanceToForeground id s).
Proof.
  intros [N H]. unfold bringInstanceToForeground.
  destruct id as [x|].
  - destruct (get x (instances s)) as [i|] eqn:G; [|now split].
    split; cbn [instances instanceOrder]; [now apply NoDup_moveToEnd|].
    intro k. rewrite In_moveToEnd, has_setForegroundAll, H.
    split; [intros [->|K]; [congruence|exact K]|now right].
  - split; cbn [instances instanceOrder]; [exact N|].
    intro k. now rewrite has_setForegroundAll.
Qed.

Lemma restoreInstance_order (id : nat) (s : AppStoreState) :
  orderComplete s -> orderComplete (restoreInstance id s).
Proof.
  intros [N H]. unfold restoreInstance.
  destruct (get id (instances s)) as [inst|] eqn:G; [|now split].
  destruct (negb (flag (isMinimized inst))); [now split|].
  unfold orderComplete. cbn [instances instanceOrder].
  apply order_set_present with (inst := withForeground false inst).
  - rewrite get_setForegroundAll, G. reflexivity.
  - split; [exact N|]. intro k. now rewrite has_setForegroundAll.
Qed.

Lemma markInstanceAsLoaded_order (id : nat) (s : AppStoreState) :
  orderComplete s -> orderComplete (markInstanceAsLoaded id s).
Proof.
  intros [N H]. unfold markInstanceAsLoaded.
  destruct (get id (instances s)) as [inst|] eqn:G; [|now split].
  destruct (negb (flag (isLoading inst))); [now split|].
  unfold orderComplete. cbn [instances instanceOrder].
  apply order_set_present
    with (inst := withForeground (Nat.eqb id id) inst).
  - rewrite get_setForegroundAll, G. reflexivity.
  - split; [exact N|]. intro k. now rewrite has_setForegroundAll.
Qed.

Lemma refreshInitialData_order (id : nat) (d : Unknown) (s : AppStoreState) :
  orderComplete s -> orderComplete (refreshInitialData id d s).
Proof.
  intros [N H]. unfold refreshInitialData.
  destruct (get id (instances s)) as [inst|] eqn:G; [|now split].
  split; cbn [instances instanceOrder]; [exact N|].
  intro k. rewrite get_set_instance, H.
  destruct (Nat.eqb k id) eqn:E; [|reflexivity].
  apply Nat.eqb_eq in E. subst. split; [discriminate|congruence].
Qed.

Lemma minimizeInstance_order (id : nat) (s : AppStoreState) :
  orderComplete s -> orderComplete (minimizeInstance id s).
Proof.
  intros [N H]. unfold minimizeInstance.
  destruct (get id (instances s)) as [inst|] eqn:G; [|now split].
  destruct (flag (isMinimized inst)); [now split|].
  split; cbn [instances instanceOrder]; [exact N|]. intro k.
  assert (H1 : In k (instanceOrder s) <->
               get k (set id (withMinimized true false inst) (instances s))
               <> None).
  { rewrite get_set_instance, H. destruct (Nat.eqb k id) eqn:E; [|reflexivity].
    apply Nat.eqb_eq in E. subst. split; [discriminate|congruence]. }
  destruct (nextAfterMinimize _ _ id) as [nf|]; [|exact H1].
  destruct (get nf (set id _ (instances s))) as [i|] eqn:Gn; [|exact H1].
  rewrite H1, (get_set_instance k nf).
  destruct (Nat.eqb k nf) eqn:E; [|reflexivity].
  apply Nat.eqb_eq in E. subst. split; [discriminate|congruence].
Qed.

Lemma closeAppInstance_order (id : nat) (s : AppStoreState) :
  orderComplete s -> orderComplete (closeAppInstance id s).
Proof.
  intros [N H]. unfold closeAppInstance.
  destruct (get id (instances s)) as [inst|] eqn:G; [|now split].
  destruct (negb (isOpen inst)); [now split|].
  unfold orderComplete. cbn [instances instanceOrder].
  set (order := filter (fun k => negb (Nat.eqb k id)) (instanceOrder s)).
  assert (No : NoDup order) by now apply NoDup_filter.
  assert (Ho : forall k, In k order <->
                         get k (delete id (instances s)) <> None).
  { intro k. unfold order. rewrite filter_In, get_delete_instance, H.
    destruct (Nat.eqb k id); simpl; intuition congruence. }
  destruct (nextAfterClose _ order (appId inst)) as [nf|] eqn:F.
  - apply nextAfterClose_In in F. split; [now apply NoDup_moveToEnd|].
    intro k. rewrite In_moveToEnd, has_setForegroundAll, <- Ho.
    split; [intros [->|K]; [exact F|exact K]|now right].
  - split; [exact No|]. intro k. now rewrite has_setForegroundAll.
Qed.

(** X20.  Instance order is complete: when [instanceOrder] names every
    instance of the table exactly once and nothing else, it still does
    after any action of the window manager, and so it does after any
    run from the empty store. *)
Theorem order_stays_complete (env : Env) (now : Z) (a : Action)
    (s : AppStoreState) (Hs : orderComplete s) :
  orderComplete (perform env now s a) /\
  forall actions, orderComplete (performAll env now actions initialState).
Proof.
  assert (K : forall a s, orderComplete s -> orderComplete (perform env now s a)).
  { intros a' s'. apply perform_keeps.
    - intros. now apply createAppInstance_order.
    - intros. now apply bringInstanceToForeground_order.
    - intros. now apply restoreInstance_order.
    - intros. now apply refreshInitialData_order.
    - intros. now apply markInstanceAsLoaded_order.
    - intros. now apply minimizeInstance_order.
    - intros. now apply closeAppInstance_order. }
  split; [now apply K|]. intro actions. apply performAll_keeps; [exact K|].
  split; [constructor|]. intro k. simpl. intuition.
Qed.

Lemma order_stays_complete_witness :
  orderComplete initialState /\
  orderComplete
    (perform desktopEnv 0 initialState
       (LaunchApp "finder" JsUndefined None false)) /\
  instanceOrder (performAll desktopEnv 0 minimizedForegroundRun initialState)
    = [1].
Proof.
  assert (H : orderComplete initialState).
  { split; [constructor|]. intro k. simpl. intuition. }
  split; [exact H|]. split; [|reflexivity].
  exact (proj1 (order_stays_complete desktopEnv 0
                  (LaunchApp "finder" JsUndefined None false) initialState H)).
Defined.

(** *** The ids *)

Ltac ids_from U :=
  match goal with
  | G : get ?k ?o = Some ?v |- _ =>
      destruct (U k v G) as [? [? ?]]; repeat split; simpl; (assumption || lia)
  end.

Lemma createAppInstance_ids (env : Env) (now : Z) (ap : string)
    (d : Unknown) (t : option string) (s : AppStoreState) :
  Js.isSafeInteger (nextInstanceId s) = true ->
  idsInUse s -> idsInUse (fst (createAppInstance env now ap d t s)).
Proof.
  intros Safe U k i. unfold createAppInstance.
  cbn [fst instances nextInstanceId].
  rewrite (JsFacts.toNumber_succ_safe _ Safe).
  intro G.
  assert (G' : exists v,
             get k (set (nextInstanceId s + 1)
                      (mkInstance (nextInstanceId s + 1) ap t None now
                         (Some (negb (String.eqb ap "finder"))) None true
                         (Some
                            (if match innerWidth env with
                                | Some w => Z.ltb w 768
                                | None => false
                                end
                             then (0, 28 + Z.of_nat (List.length
                                                       (instanceOrder s)) * 32)
                             else (16 + Z.of_nat (List.length
                                                    (instanceOrder s)) * 32,
                                   40 + Z.of_nat (List.length
                                                    (instanceOrder s)) * 20))%Z)
                         (Some
                            (if match innerWidth env with
                                | Some w => Z.ltb w 768
                                | None => false
                                end
                             then (match innerWidth env with
                                   | Some w => w
                                   | None => 0%Z
                                   end, snd (defaultSize env ap))
                             else defaultSize env ap))
                         (Some (negb (negb (String.eqb ap "finder")))) d)
                      (instances s)) = Some v /\
             instanceId i = instanceId v /\ isOpen i = isOpen v).
  { destruct (negb (negb (String.eqb ap "finder"))).
    - rewrite get_clear_others in G.
      destruct (get k (set _ _ (instances s))) as [v|]; [|discriminate].
      exists v. split; [reflexivity|]. simpl in G. injection G as <-.
      now destruct (negb _).
    - now exists i. }
  destruct G' as [v [Gv [-> ->]]]. rewrite get_set_instance in Gv.
  destruct (Nat.eqb k (nextInstanceId s + 1)) eqn:E.
  - apply Nat.eqb_eq in E. injection Gv as <-. simpl. repeat split; lia.
  - destruct (U k v Gv) as [? [? ?]]. repeat split; (assumption || lia).
Qed.

Lemma bringInstanceToForeground_ids (id : option nat) (s : AppStoreState) :
  idsInUse s -> idsInUse (bringInstanceToForeground id s).
Proof.
  intros U. unfold bringInstanceToForeground.
  destruct id as [x|]; [destruct (get x (instances s)); [|exact U]|];
    intros k i G; cbn [instances nextInstanceId] in *;
    rewrite get_setForegroundAll in G;
    (destruct (get k (instances s)) as [v|] eqn:Gk; [|discriminate]);
    simpl in G; injection G as <-; ids_from U.
Qed.

Lemma restoreInstance_ids (id : nat) (s : AppStoreState) :
  idsInUse s -> idsInUse (restoreInstance id s).
Proof.
  intros U. unfold restoreInstance.
  destruct (get id (instances s)) as [inst|] eqn:Gi; [|exact U].
  destruct (negb (flag (isMinimized inst))); [exact U|].
  intros k i G. cbn [instances nextInstanceId] in *.
  rewrite get_set_instance in G. destruct (Nat.eqb k id) eqn:E.
  - apply Nat.eqb_eq in E. subst k. injection G as <-.
    destruct (U id inst Gi) as [? [? ?]]. now repeat split.
  - rewrite get_setForegroundAll in G.
    destruct (get k (instances s)) as [v|] eqn:Gk; [|discriminate].
    simpl in G. injection G as <-. ids_from U.
Qed.

Lemma markInstanceAsLoaded_ids (id : nat) (s : AppStoreState) :
  idsInUse s -> idsInUse (markInstanceAsLoaded id s).
Proof.
  intros U. unfold markInstanceAsLoaded.
  destruct (get id (instances s)) as [inst|] eqn:Gi; [|exact U].
  destruct (negb (flag (isLoading inst))); [exact U|].
  intros k i G. cbn [instances nextInstanceId] in *.
  rewrite get_set_instance in G. destruct (Nat.eqb k id) eqn:E.
  - apply Nat.eqb_eq in E. subst k. injection G as <-.
    destruct (U id inst Gi) as [? [? ?]]. now repeat split.
  - rewrite get_setForegroundAll in G.
    destruct (get k (instances s)) as [v|] eqn:Gk; [|discriminate].
    simpl in G. injection G as <-. ids_from U.
Qed.

Lemma refreshInitialData_ids (id : nat) (d : Unknown) (s : AppStoreState) :
  idsInUse s -> idsInUse (refreshInitialData id d s).
Proof.
  intros U. unfold refreshInitialData.
  destruct (get id (instances s)) as [inst|] eqn:Gi; [|exact U].
  intros k i G. cbn [instances nextInstanceId] in *.
  rewrite get_set_instance in G. destruct (Nat.eqb k id) eqn:E.
  - apply Nat.eqb_eq in E. subst k. injection G as <-.
    destruct (U id inst Gi) as [? [? ?]]. now repeat split.
  - ids_from U.
Qed.

Lemma minimizeInstance_ids (id : nat) (s : AppStoreState) :
  idsInUse s -> idsInUse (minimizeInstance id s).
Proof.
  intros U. unfold minimizeInstance.
  destruct (get id (instances s)) as [inst|] eqn:Gi; [|exact U].
  destruct (flag (isMinimized inst)); [exact U|].
  assert (U1 : forall k i,
             get k (set id (withMinimized true false inst) (instances s)) =
             Some i ->
             instanceId i = k /\ isOpen i = true /\ k <= nextInstanceId s).
  { intros k i G. rewrite get_set_instance in G.
    destruct (Nat.eqb k id) eqn:E.
    - apply Nat.eqb_eq in E. subst k. injection G as <-.
      destruct (U id inst Gi) as [? [? ?]]. now repeat split.
    - ids_from U. }
  intros k i G. cbn [instances nextInstanceId] in *.
  destruct (nextAfterMinimize _ _ id) as [nf|]; [|now apply U1].
  destruct (get nf (set id _ (instances s))) as [v|] eqn:Gn; [|now apply U1].
  rewrite (get_set_instance k nf) in G. destruct (Nat.eqb k nf) eqn:E.
  - apply Nat.eqb_eq in E. subst k. injection G as <-.
    destruct (U1 nf v Gn) as [? [? ?]]. now repeat split.
  - now apply U1.
Qed.

Lemma closeAppInstance_ids (id : nat) (s : AppStoreState) :
  idsInUse s -> idsInUse (closeAppInstance id s).
Proof.
  intros U. unfold closeAppInstance.
  destruct (get id (instances s)) as [inst|] eqn:Gi; [|exact U].
  destruct (negb (isOpen inst)); [exact U|].
  intros k i G. cbn [instances nextInstanceId] in *.
  rewrite get_setForegroundAll, get_delete_instance in G.
  destruct (Nat.eqb k id); [discriminate|].
  destruct (get k (instances s)) as [v|] eqn:Gk; [|discriminate].
  simpl in G. injection G as <-. ids_from U.
Qed.

(** Only [createAppInstance] moves the counter. *)
Lemma counter_kept (s : AppStoreState) :
  (forall id, nextInstanceId (bringInstanceToForeground id s) =
              nextInstanceId s) /\
  (forall id, nextInstanceId (restoreInstance id s) = nextInstanceId s) /\
  (forall id d, nextInstanceId (refreshInitialData id d s) =
                nextInstanceId s) /\
  (forall id, nextInstanceId (markInstanceAsLoaded id s) =
              nextInstanceId s) /\
  (forall id, nextInstanceId (minimizeInstance id s) = nextInstanceId s) /\
  (forall id, nextInstanceId (closeAppInstance id s) = nextInstanceId s).
Proof.
  repeat split; intros.
  - unfold bringInstanceToForeground. destruct id as [x|]; [|reflexivity].
    now destruct (get x (instances s)).
  - unfold restoreInstance. destruct (get id (instances s)) as [i|];
      [|reflexivity]. now destruct (negb (flag (isMinimized i))).
  - unfold refreshInitialData. now destruct (get id (instances s)).
  - unfold markInstanceAsLoaded. destruct (get id (instances s)) as [i|];
      [|reflexivity]. now destruct (negb (flag (isLoading i))).
  - unfold minimizeInstance. destruct (get id (instances s)) as [i|];
      [|reflexivity]. now destruct (flag (isMinimized i)).
  - unfold closeAppInstance. destruct (get id (instances s)) as [i|];
      [|reflexivity]. now destruct (negb (isOpen i)).
Qed.

(** While the counter is a safe integer the ids are in use as they
    should be: every action keeps this. *)
Lemma perform_ids (env : Env) (now : Z) (a : Action) (s : AppStoreState) :
  (Js.isSafeInteger (nextInstanceId s) = true -> idsInUse s) ->
  Js.isSafeInteger (nextInstanceId (perform env now s a)) = true ->
  idsInUse (perform env now s a).
Proof.
  refine (perform_keeps
            (fun s => Js.isSafeInteger (nextInstanceId s) = true ->
                      idsInUse s) _ _ _ _ _ _ _ env now a s); clear s.
  - intros env' now' ap d t s P Safe'.
    assert (Safe : Js.isSafeInteger (nextInstanceId s) = true).
    { destruct (Js.isSafeInteger (nextInstanceId s)) eqn:E; [reflexivity|].
      unfold createAppInstance in Safe'. cbn [fst nextInstanceId] in Safe'.
      rewrite (JsFacts.toNumber_succ_unsafe _ E) in Safe'. discriminate. }
    apply createAppInstance_ids; [exact Safe|exact (P Safe)].
  - intros id s P. rewrite (proj1 (counter_kept s) id). intro Safe.
    now apply bringInstanceToForeground_ids, P.
  - intros id s P.
    rewrite (proj1 (proj2 (counter_kept s)) id). intro Safe.
    now apply restoreInstance_ids, P.
  - intros id d s P.
    rewrite (proj1 (proj2 (proj2 (counter_kept s))) id d). intro Safe.
    now apply refreshInitialData_ids, P.
  - intros id s P.
    rewrite (proj1 (proj2 (proj2 (proj2 (counter_kept s)))) id). intro Safe.
    now apply markInstanceAsLoaded_ids, P.
  - intros id s P.
    rewrite (proj1 (proj2 (proj2 (proj2 (proj2 (counter_kept s))))) id).
    intro Safe. now apply minimizeInstance_ids, P.
  - intros id s P.
    rewrite (proj2 (proj2 (proj2 (proj2 (proj2 (counter_kept s))))) id).
    intro Safe. now apply closeAppInstance_ids, P.
Qed.

(** X21.  Ids are not reused while the counter is a safe integer.  When
    every instance is stored under its own id, is open, and has an id
    that the counter has passed, this is still so after any action that
    leaves the counter below 2^53, and so after any run from the empty
    store that does; the id that [createAppInstance] picks next is then
    not in the table, so it writes over no instance.  At 2^53 the sum
    [nextInstanceId + 1] is rounded back to 2^53: the id handed out is
    the value the counter had, which an instance may hold. *)
Theorem ids_stay_in_use (env : Env) (now : Z) (a : Action)
    (s : AppStoreState) (Hs : idsInUse s) :
  (Js.isSafeInteger (nextInstanceId (perform env now s a)) = true ->
   idsInUse (perform env now s a)) /\
  (Js.isSafeInteger (nextInstanceId s) = true ->
   forall ap d t,
     get (snd (createAppInstance env now ap d t s)) (instances s) = None) /\
  (forall actions,
     Js.isSafeInteger
       (nextInstanceId (performAll env now actions initialState)) = true ->
     idsInUse (performAll env now actions initialState)) /\
  (N.of_nat (nextInstanceId s) = 9007199254740992%N ->
   forall ap d t,
     snd (createAppInstance env now ap d t s) = nextInstanceId s /\
     nextInstanceId (fst (createAppInstance env now ap d t s)) =
       nextInstanceId s).
Proof.
  split; [|split; [|split]].
  - apply perform_ids. intros _. exact Hs.
  - intros Safe ap d t. unfold createAppInstance. cbn [snd].
    rewrite (JsFacts.toNumber_succ_safe _ Safe).
    destruct (get (nextInstanceId s + 1) (instances s)) as [i|] eqn:G;
      [|reflexivity].
    destruct (Hs _ _ G) as [_ [_ L]]. lia.
  - intro actions.
    apply (performAll_keeps
             (fun s => Js.isSafeInteger (nextInstanceId s) = true ->
                       idsInUse s) env now).
    + intros a' s' P. now apply perform_ids.
    + intros _ k i G. discriminate.
  - intros E ap d t. unfold createAppInstance.
    cbn [fst snd nextInstanceId].
    now rewrite (JsFacts.toNumber_past_safe _ E).
Qed.

Lemma ids_stay_in_use_witness :
  idsInUse initialState /\
  Js.isSafeInteger
    (nextInstanceId
       (perform desktopEnv 0 initialState
          (LaunchApp "finder" JsUndefined None false))) = true /\
  idsInUse (perform desktopEnv 0 initialState
              (LaunchApp "finder" JsUndefined None false)) /\
  get 1 (instances initialState) = None.
Proof.
  assert (H : idsInUse initialState) by (intros k i G; discriminate).
  split; [exact H|]. split; [reflexivity|].
  pose proof (ids_stay_in_use desktopEnv 0
                (LaunchApp "finder" JsUndefined None false) initialState H)
    as [H1 [H2 _]].
  split; [exact (H1 eq_refl)|].
  exact (H2 eq_refl "finder" JsUndefined None).
Defined.

(** *** The foreground *)

Lemma createAppInstance_foreground (env : Env) (now : Z) (ap : string)
    (d : Unknown) (t : option string) (s : AppStoreState) :
  foregroundExists s ->
  foregroundExists (fst (createAppInstance env now ap d t s)).
Proof.
  unfold foregroundExists, createAppInstance.
  cbn [fst instances foregroundInstanceId]. intro F.
  assert (E : forall k o,
             get k (if negb (negb (String.eqb ap "finder"))
                    then map (fun e =>
                                if negb (Nat.eqb (fst e)
                                           (Js.toNumber (nextInstanceId s + 1)))
                                then (fst e, withForeground false (snd e))
                                else e) o
                    else o) <> None <-> get k o <> None).
  { intros k o. destruct (negb (negb _)); [|reflexivity].
    rewrite get_clear_others. now destruct (get k o). }
  destruct (negb (String.eqb ap "finder")).
  - destruct (foregroundInstanceId s) as [f|]; [|exact I].
    rewrite E, get_set_instance. now destruct (Nat.eqb f _).
  - rewrite E, get_set_instance, Nat.eqb_refl. discriminate.
Qed.

Lemma bringInstanceToForeground_foreground (id : option nat)
    (s : AppStoreState) :
  foregroundExists s -> foregroundExists (bringInstanceToForeground id s).
Proof.
  unfold foregroundExists, bringInstanceToForeground. intro F.
  destruct id as [x|]; [|exact I].
  destruct (get x (instances s)) eqn:G; [|exact F].
  cbn [instances foregroundInstanceId]. rewrite has_setForegroundAll.
  congruence.
Qed.

Lemma restoreInstance_foreground (id : nat) (s : AppStoreState) :
  foregroundExists s -> foregroundExists (restoreInstance id s).
Proof.
  unfold foregroundExists, restoreInstance. intro F.
  destruct (get id (instances s)) as [inst|]; [|exact F].
  destruct (negb (flag (isMinimized inst))); [exact F|].
  cbn [instances foregroundInstanceId].
  rewrite get_set_instance, Nat.eqb_refl. discriminate.
Qed.

Lemma markInstanceAsLoaded_foreground (id : nat) (s : AppStoreState) :
  foregroundExists s -> foregroundExists (markInstanceAsLoaded id s).
Proof.
  unfold foregroundExists, markInstanceAsLoaded. intro F.
  destruct (get id (instances s)) as [inst|]; [|exact F].
  destruct (negb (flag (isLoading inst))); [exact F|].
  cbn [instances foregroundInstanceId].
  rewrite get_set_instance, Nat.eqb_refl. discriminate.
Qed.

Lemma refreshInitialData_foreground (id : nat) (d : Unknown)
    (s : AppStoreState) :
  foregroundExists s -> foregroundExists (refreshInitialData id d s).
Proof.
  unfold foregroundExists, refreshInitialData. intro F.
  destruct (get id (instances s)) as [inst|]; [|exact F].
  cbn [instances foregroundInstanceId].
  destruct (foregroundInstanceId s) as [f|]; [|exact I].
  rewrite get_set_instance. now destruct (Nat.eqb f id).
Qed.

Lemma minimizeInstance_foreground (id : nat) (s : AppStoreState) :
  foregroundExists s -> foregroundExists (minimizeInstance id s).
Proof.
  unfold foregroundExists, minimizeInstance. intro F.
  destruct (get id (instances s)) as [inst|]; [|exact F].
  destruct (flag (isMinimized inst)); [exact F|].
  cbn [instances foregroundInstanceId].
  destruct (nextAfterMinimize _ _ id) as [nf|] eqn:M; [|exact I].
  apply nextAfterMinimize_some in M. destruct M as [_ [i G]].
  rewrite G, get_set_instance, Nat.eqb_refl. discriminate.
Qed.

Lemma closeAppInstance_foreground (id : nat) (s : AppStoreState) :
  orderComplete s -> foregroundExists s ->
  foregroundExists (closeAppInstance id s).
Proof.
  unfold foregroundExists, closeAppInstance. intros [_ H] F.
  destruct (get id (instances s)) as [inst|]; [|exact F].
  destruct (negb (isOpen inst)); [exact F|].
  cbn [instances foregroundInstanceId].
  destruct (nextAfterClose _ _ (appId inst)) as [nf|] eqn:C; [|exact I].
  apply nextAfterClose_In in C. apply filter_In in C. destruct C as [C N].
  rewrite has_setForegroundAll, get_delete_instance.
  apply negb_true_iff in N. rewrite N. now apply H.
Qed.

(** X22.  The foreground pointer never dangles: when [instanceOrder] is
    complete and [foregroundInstanceId] is [null] or the id of an
    instance of the table, the same holds after any action, and so
    after any run from the empty store. *)
Theorem foreground_stays_valid (env : Env) (now : Z) (a : Action)
    (s : AppStoreState) (Ho : orderComplete s) (Hf : foregroundExists s) :
  foregroundExists (perform env now s a) /\
  forall actions, foregroundExists (performAll env now actions initialState).
Proof.
  assert (K : forall a s, orderComplete s /\ foregroundExists s ->
                          orderComplete (perform env now s a) /\
                          foregroundExists (perform env now s a)).
  { intros a' s'.
    apply (perform_keeps (fun s => orderComplete s /\ foregroundExists s)).
    - intros ? ? ? ? ? ? [? ?]. split;
        [now apply createAppInstance_order
        |now apply createAppInstance_foreground].
    - intros ? ? [? ?]. split;
        [now apply bringInstanceToForeground_order
        |now apply bringInstanceToForeground_foreground].
    - intros ? ? [? ?]. split;
        [now apply restoreInstance_order|now apply restoreInstance_foreground].
    - intros ? ? ? [? ?]. split;
        [now apply refreshInitialData_order
        |now apply refreshInitialData_foreground].
    - intros ? ? [? ?]. split;
        [now apply markInstanceAsLoaded_order
        |now apply markInstanceAsLoaded_foreground].
    - intros ? ? [? ?]. split;
        [now apply minimizeInstance_order
        |now apply minimizeInstance_foreground].
    - intros ? ? [? ?]. split;
        [now apply closeAppInstance_order
        |now apply closeAppInstance_foreground]. }
  split; [now apply K|]. intro actions.
  apply (performAll_keeps
           (fun s => orderComplete s /\ foregroundExists s) env now K).
  split; [|exact I]. split; [constructor|]. intro k. simpl. intuition.
Qed.

Lemma foreground_stays_valid_witness :
  orderComplete initialState /\ foregroundExists initialState /\
  foregroundExists
    (perform desktopEnv 0 initialState
       (LaunchApp "finder" JsUndefined None false)) /\
  foregroundInstanceId
    (performAll desktopEnv 0 minimizedForegroundRun initialState) = Some 1.
Proof.
  assert (H : orderComplete initialState).
  { split; [constructor|]. intro k. simpl. intuition. }
  split; [exact H|]. split; [exact I|]. split; [|reflexivity].
  exact (proj1 (foreground_stays_valid desktopEnv 0
                  (LaunchApp "finder" JsUndefined None false) initialState
                  H I)).
Defined.

Lemma other_actions_keep_foreground_unique_witness :
  isMinimizeAction (LaunchApp "finder" JsUndefined None false) = false /\
  foregroundIsUnique initialState /\
  foregroundIsUnique
    (perform desktopEnv 0 initialState
       (LaunchApp "finder" JsUndefined None false)).
Proof.
  assert (H : foregroundIsUnique initialState)
    by (intros k i G; discriminate).
  split; [reflexivity|]. split; [exact H|].
  exact (other_actions_keep_foreground_unique desktopEnv 0
           (LaunchApp "finder" JsUndefined None false) initialState
           eq_refl H).
Defined.

End AppInvariants.

(** ** Repairing and cycling the order *)

Module AppOrderFacts.

Import AppStore AppStoreFacts AppInvariants.

Lemma existsb_nat_In (k : nat) (l : list nat) :
  existsb (Nat.eqb k) l = true <-> In k l.
Proof.
  rewrite existsb_exists. split.
  - intros [x [Hx E]]. apply Nat.eqb_eq in E. now subst.
  - intro H. exists k. split; [exact H|apply Nat.eqb_refl].
Qed.

Lemma filter_all {A : Type} (f : A -> bool) (l : list A) :
  (forall x, In x l -> f x = true) -> filter f l = l.
Proof.
  induction l as [|a r IH]; intro H; simpl; [reflexivity|].
  rewrite (H a (or_introl eq_refl)). f_equal. apply IH.
  intros x Hx. apply H. now right.
Qed.

Lemma filter_none {A : Type} (f : A -> bool) (l : list A) :
  (forall x, In x l -> f x = false) -> filter f l = [].
Proof.
  induction l as [|a r IH]; intro H; simpl; [reflexivity|].
  rewrite (H a (or_introl eq_refl)). apply IH.
  intros x Hx. apply H. now right.
Qed.

Lemma filter_full_length {A : Type} (f : A -> bool) (l : list A) :
  List.length (filter f l) = List.length l ->
  forall x, In x l -> f x = true.
Proof.
  induction l as [|a r IH]; intros L x Hx; [easy|]. simpl in L.
  pose proof (filter_length_le f r) as B.
  destruct (f a) eqn:E; simpl in L; [|lia].
  destruct Hx as [<-|Hx]; [exact E|]. apply IH; [lia|exact Hx].
Qed.

Lemma length_zero_nil {A : Type} (l : list A) :
  Nat.eqb (List.length l) 0 = true -> l = [].
Proof. destruct l; [reflexivity|discriminate]. Qed.

Lemma integrity_members (s : AppStoreState) (id : nat) :
  In id (instanceOrder (_debugCheckInstanceIntegrity s)) <->
  In id (map instanceId (filter isOpen (obj_values (instances s)))).
Proof.
  unfold _debugCheckInstanceIntegrity. cbv zeta.
  set (openIds := map instanceId (filter isOpen (obj_values (instances s)))).
  set (filtered := filter (fun id => existsb (Nat.eqb id) openIds)
                     (instanceOrder s)).
  set (missing := filter (fun id => negb (existsb (Nat.eqb id) filtered))
                    openIds).
  assert (Hf : forall k, In k filtered <->
                         In k (instanceOrder s) /\ In k openIds).
  { intro k. unfold filtered. now rewrite filter_In, existsb_nat_In. }
  assert (Hm : forall k, In k missing <-> In k openIds /\ ~ In k filtered).
  { intro k. unfold missing. rewrite filter_In, negb_true_iff.
    pose proof (existsb_nat_In k filtered) as X.
    destruct (existsb (Nat.eqb k) filtered); intuition congruence. }
  destruct (Nat.eqb (List.length missing) 0 &&
            Nat.eqb (List.length filtered) (List.length (instanceOrder s)))
    eqn:C.
  - apply andb_true_iff in C. destruct C as [C1 C2].
    apply length_zero_nil in C1. apply Nat.eqb_eq in C2. split.
    + intro H. pose proof (filter_full_length _ _ C2 id H) as E.
      now apply existsb_nat_In in E.
    + intro H. destruct (existsb (Nat.eqb id) filtered) eqn:E.
      * apply existsb_nat_In, Hf in E. tauto.
      * assert (M : In id missing).
        { apply Hm. split; [exact H|]. intro F.
          apply existsb_nat_In in F. congruence. }
        rewrite C1 in M. destruct M.
  - cbn [instanceOrder]. rewrite in_app_iff, Hf, Hm. split.
    + tauto.
    + intro H. destruct (existsb (Nat.eqb id) filtered) eqn:E.
      * apply existsb_nat_In, Hf in E. tauto.
      * right. split; [exact H|]. intro F. apply existsb_nat_In in F.
        congruence.
Qed.

(** X23.  [_debugCheckInstanceIntegrity()] repairs the order: afterwards
    [instanceOrder] holds the [instanceId] of every open instance of the
    table and no other id; the table, the foreground and the counter
    are not touched; and running the check again changes nothing. *)
Theorem integrity_check_repairs_order (s : AppStoreState) :
  (forall id,
     In id (instanceOrder (_debugCheckInstanceIntegrity s)) <->
     exists i, In i (obj_values (instances s)) /\ isOpen i = true /\
               instanceId i = id) /\
  instances (_debugCheckInstanceIntegrity s) = instances s /\
  foregroundInstanceId (_debugCheckInstanceIntegrity s) =
    foregroundInstanceId s /\
  nextInstanceId (_debugCheckInstanceIntegrity s) = nextInstanceId s /\
  _debugCheckInstanceIntegrity (_debugCheckInstanceIntegrity s) =
    _debugCheckInstanceIntegrity s.
Proof.
  assert (F : instances (_debugCheckInstanceIntegrity s) = instances s /\
              foregroundInstanceId (_debugCheckInstanceIntegrity s) =
                foregroundInstanceId s /\
              nextInstanceId (_debugCheckInstanceIntegrity s) =
                nextInstanceId s).
  { unfold _debugCheckInstanceIntegrity. cbv zeta.
    now destruct (_ && _). }
  split; [|split; [apply F|split; [apply F|split; [apply F|]]]].
  - intro id. rewrite integrity_members, in_map_iff. split.
    + intros [i [E H]]. apply filter_In in H. exists i. tauto.
    + intros [i [H [O E]]]. exists i. split; [exact E|].
      apply filter_In. tauto.
  - pose proof (integrity_members s) as M. destruct F as [Fi _].
    set (s' := _debugCheckInstanceIntegrity s) in *.
    unfold _debugCheckInstanceIntegrity at 1. cbv zeta. rewrite Fi.
    set (openIds := map instanceId
                      (filter isOpen (obj_values (instances s)))) in *.
    assert (E1 : filter (fun id => existsb (Nat.eqb id) openIds)
                   (instanceOrder s') = instanceOrder s').
    { apply filter_all. intros x Hx. apply existsb_nat_In. now apply M. }
    rewrite E1.
    assert (E2 : filter (fun id => negb (existsb (Nat.eqb id)
                                           (instanceOrder s'))) openIds = []).
    { apply filter_none. intros x Hx. apply negb_false_iff.
      apply existsb_nat_In. now apply M. }
    rewrite E2. simpl. now rewrite Nat.eqb_refl.
Qed.

Lemma integrity_check_repairs_order_witness :
  instanceOrder (_debugCheckInstanceIntegrity staleState) = [2; 5] /\
  _debugCheckInstanceIntegrity (_debugCheckInstanceIntegrity staleState) =
    _debugCheckInstanceIntegrity staleState.
Proof.
  split; [reflexivity|].
  exact (proj2 (proj2 (proj2 (proj2
           (integrity_check_repairs_order staleState))))).
Defined.

Lemma indexOf_last (c : nat) (l : list nat) :
  ~ In c l -> indexOf c (l ++ [c]) = Some (List.length l).
Proof.
  induction l as [|a r IH]; intro N; simpl.
  - now rewrite Nat.eqb_refl.
  - destruct (Nat.eqb a c) eqn:E.
    + apply Nat.eqb_eq in E. subst. exfalso. apply N. now left.
    + rewrite IH; [reflexivity|]. intro H. apply N. now right.
Qed.

Lemma indexOf_none (c : nat) (l : list nat) :
  existsb (Nat.eqb c) l = false -> indexOf c l = None.
Proof.
  induction l as [|a r IH]; simpl; [reflexivity|].
  rewrite (Nat.eqb_sym c a). destruct (Nat.eqb a c); [discriminate|].
  intro H. now rewrite (IH H).
Qed.

Lemma filter_others (x : nat) (l : list nat) :
  ~ In x l -> filter (fun id => negb (Nat.eqb id x)) l = l.
Proof.
  intro N. apply filter_all. intros y Hy. apply negb_true_iff.
  apply Nat.eqb_neq. intros ->. contradiction.
Qed.

(** X24.  Cycling through the windows.  With the current window on top
    (last in [instanceOrder], no id twice), [navigateToNextInstance]
    brings the bottom window to the front and so turns the whole order
    by one, while [navigateToPreviousInstance] brings up the window
    just below the top and so swaps the two top windows.  With at most
    one window, or a current id that is not in the order, both do
    nothing. *)
Theorem window_cycling (s : AppStoreState) (c : nat)
    (Hnodup : NoDup (instanceOrder s)) :
  (forall h t,
     instanceOrder s = (h :: t ++ [c])%list ->
     get h (instances s) <> None ->
     instanceOrder (navigateToNextInstance c s) = (t ++ [c; h])%list /\
     foregroundInstanceId (navigateToNextInstance c s) = Some h) /\
  (forall l x,
     instanceOrder s = (l ++ [x; c])%list ->
     get x (instances s) <> None ->
     instanceOrder (navigateToPreviousInstance c s) = (l ++ [c; x])%list /\
     foregroundInstanceId (navigateToPreviousInstance c s) = Some x) /\
  (if Nat.leb (List.length (instanceOrder s)) 1 ||
      negb (existsb (Nat.eqb c) (instanceOrder s))
   then navigateToNextInstance c s = s /\
        navigateToPreviousInstance c s = s
   else True).
Proof.
  split; [|split].
  - intros h t E G. unfold navigateToNextInstance. cbv zeta.
    rewrite E in Hnodup |- *.
    assert (L : List.length (h :: t ++ [c]) = List.length t + 2)
      by (simpl; rewrite length_app; simpl; lia).
    rewrite L. replace (Nat.leb (List.length t + 2) 1) with false
      by (symmetry; apply Nat.leb_gt; lia).
    change (h :: t ++ [c])%list with ((h :: t) ++ [c])%list in Hnodup |- *.
    assert (Nc : ~ In c (h :: t)).
    { apply NoDup_remove_2 with (l' := []) in Hnodup.
      now rewrite app_nil_r in Hnodup. }
    rewrite (indexOf_last c (h :: t) Nc).
    replace (List.length (h :: t) + 1) with (List.length t + 2)
      by (simpl; lia).
    rewrite Nat.Div0.mod_same. simpl nth_error.
    unfold bringInstanceToForeground.
    destruct (get h (instances s)) as [i|]; [|contradiction].
    cbn [instanceOrder foregroundInstanceId]. split; [|reflexivity].
    rewrite E. unfold moveToEnd. simpl filter. rewrite Nat.eqb_refl.
    simpl negb. cbv iota.
    rewrite filter_others; [now rewrite <- app_assoc|].
    simpl in Hnodup. now inversion Hnodup.
  - intros l x E G. unfold navigateToPreviousInstance. cbv zeta.
    rewrite E in Hnodup |- *.
    assert (L : List.length (l ++ [x; c]) = List.length l + 2)
      by (rewrite length_app; simpl; lia).
    rewrite L. replace (Nat.leb (List.length l + 2) 1) with false
      by (symmetry; apply Nat.leb_gt; lia).
    change (l ++ [x; c])%list with (l ++ [x] ++ [c])%list in Hnodup |- *.
    rewrite app_assoc in Hnodup |- *.
    assert (Nc : ~ In c (l ++ [x])).
    { apply NoDup_remove_2 with (l' := []) in Hnodup.
      now rewrite app_nil_r in Hnodup. }
    rewrite (indexOf_last c (l ++ [x]) Nc).
    rewrite length_app. simpl List.length.
    replace (List.length l + 1 + (List.length l + 2) - 1)
      with (List.length l + 1 * (List.length l + 2)) by lia.
    rewrite Nat.Div0.mod_add, Nat.mod_small by lia.
    rewrite <- app_assoc. rewrite nth_error_app2 by lia.
    replace (List.length l - List.length l) with 0 by lia.
    simpl nth_error. unfold bringInstanceToForeground.
    destruct (get x (instances s)) as [i|]; [|contradiction].
    cbn [instanceOrder foregroundInstanceId]. split; [|reflexivity].
    rewrite E. unfold moveToEnd. rewrite filter_app. simpl filter.
    rewrite Nat.eqb_refl. simpl negb. cbv iota.
    assert (Nx : ~ In x l /\ c <> x).
    { apply NoDup_remove_1 with (l' := []) in Hnodup.
      rewrite app_nil_r in Hnodup.
      apply NoDup_remove_2 with (l' := []) in Hnodup.
      rewrite app_nil_r in Hnodup. split; [exact Hnodup|].
      intros ->. apply Nc. apply in_or_app. right. now left. }
    destruct Nx as [Nx Ncx].
    apply Nat.eqb_neq in Ncx. rewrite Ncx. simpl negb. cbv iota.
    rewrite filter_others by exact Nx. now rewrite <- app_assoc.
  - unfold navigateToNextInstance, navigateToPreviousInstance. cbv zeta.
    destruct (Nat.leb (List.length (instanceOrder s)) 1); [now split|].
    simpl orb. destruct (existsb (Nat.eqb c) (instanceOrder s)) eqn:E;
      [exact I|].
    simpl negb. cbv iota. now rewrite (indexOf_none _ _ E).
Qed.

Lemma window_cycling_witness :
  let s := performAll desktopEnv 0
             [ LaunchApp "finder" JsUndefined None false;
               LaunchApp "finder" JsUndefined None false;
               LaunchApp "finder" JsUndefined None false ] initialState in
  NoDup (instanceOrder s) /\ instanceOrder s = [1; 2; 3] /\
  instanceOrder (navigateToNextInstance 3 s) = [2; 3; 1] /\
  instanceOrder (navigateToPreviousInstance 3 s) = [1; 3; 2].
Proof.
  cbv zeta.
  set (s := performAll desktopEnv 0
              [ LaunchApp "finder" JsUndefined None false;
                LaunchApp "finder" JsUndefined None false;
                LaunchApp "finder" JsUndefined None false ] initialState).
  assert (N : NoDup (instanceOrder s)).
  { change (instanceOrder s) with [1; 2; 3].
    repeat constructor; simpl; intuition discriminate. }
  split; [exact N|]. split; [reflexivity|].
  destruct (window_cycling s 3 N) as [H1 [H2 _]]. split.
  - exact (proj1 (H1 1 [2] eq_refl ltac:(discriminate))).
  - exact (proj1 (H2 [1] 2 eq_refl ltac:(discriminate))).
Defined.

Lemma get_withDefaults (w : Z) (ds : string -> Z * Z) (k : nat)
    (o : Instances) :
  get k (map (fun e => (fst e, withDefaults w ds (fst e) (snd e))) o) =
  option_map (withDefaults w ds k) (get k o).
Proof.
  induction o as [|[k' v] r IH]; simpl; [reflexivity|].
  unfold get in *. simpl. destruct (Nat.eqb k k') eqn:E; [|exact IH].
  apply Nat.eqb_eq in E. now subst.
Qed.

Lemma fold_max_bound (ks : list nat) :
  forall k x, In x (k :: ks) -> x <= fold_left Nat.max ks k.
Proof.
  induction ks as [|a r IH]; intros k x H; simpl.
  - destruct H as [->|[]]. lia.
  - destruct H as [->|[->|H]].
    + specialize (IH (Nat.max x a) (Nat.max x a) (or_introl eq_refl)). lia.
    + specialize (IH (Nat.max k x) (Nat.max k x) (or_introl eq_refl)). lia.
    + apply IH. now right.
Qed.

Lemma fold_max_In (ks : list nat) :
  forall k, In (fold_left Nat.max ks k) (k :: ks).
Proof.
  induction ks as [|a r IH]; intro k; [now left|].
  cbn [fold_left]. destruct (IH (Nat.max k a)) as [E|H].
  - rewrite <- E. destruct (Nat.max_dec k a) as [->| ->];
      [now left|right; now left].
  - right. now right.
Qed.

Lemma map_toNumber_safe (ks : list nat) :
  forallb Js.isSafeInteger ks = true -> map Js.toNumber ks = ks.
Proof.
  induction ks as [|k r IH]; [reflexivity|]. cbn [forallb map].
  intro H. apply andb_prop in H. destruct H as [Hk Hr].
  rewrite (IH Hr). f_equal. apply JsFacts.toNumber_exact.
  unfold Js.isSafeInteger in Hk. apply N.ltb_lt in Hk. lia.
Qed.

(** X25.  After [onRehydrateStorage] a restored window manager can
    create instances safely, when the ids it was stored with are safe
    integers: every id of [instanceOrder] has an instance, every id of
    the table is below [nextInstanceId], and the id that
    [createAppInstance] picks next is free; the counter never goes
    back, the table keeps its keys, and an instance keeps what
    identifies it and its window flags. *)
Theorem rehydration_makes_ids_fresh (innerWidth : Z)
    (defaultSize : string -> Z * Z) (s : AppStoreState)
    (Hsafe : forallb Js.isSafeInteger (obj_keys (instances s)) = true) :
  let s' := onRehydrateStorage innerWidth defaultSize s in
  (forall k, In k (instanceOrder s') -> get k (instances s') <> None) /\
  (forall k, get k (instances s') <> None -> k < nextInstanceId s') /\
  (forall env now ap d t,
     get (snd (createAppInstance env now ap d t s')) (instances s') = None) /\
  nextInstanceId s <= nextInstanceId s' /\
  obj_keys (instances s') = obj_keys (instances s) /\
  foregroundInstanceId s' = foregroundInstanceId s /\
  forall k,
    option_map (fun i => (instanceId i, appId i, isOpen i, isMinimized i,
                          isForeground i, initialData i))
      (get k (instances s')) =
    option_map (fun i => (instanceId i, appId i, isOpen i, isMinimized i,
                          isForeground i, initialData i))
      (get k (instances s)).
Proof.
  cbv zeta. unfold onRehydrateStorage.
  cbn [instances instanceOrder nextInstanceId foregroundInstanceId].
  assert (S1 : forall k, get k (instances s) <> None ->
                         Js.isSafeInteger k = true).
  { intros k H. destruct (get k (instances s)) as [v|] eqn:G;
      [|contradiction].
    apply (obj_get_In_keys _ _ Nat.eqb Nat.eqb_eq) in G.
    rewrite forallb_forall in Hsafe. now apply Hsafe. }
  assert (F : fixNextInstanceId s =
              match obj_keys (instances s) with
              | [] => nextInstanceId s
              | k :: ks =>
                  if Nat.leb (nextInstanceId s) (fold_left Nat.max ks k)
                  then fold_left Nat.max ks k + 1
                  else nextInstanceId s
              end).
  { unfold fixNextInstanceId. rewrite (map_toNumber_safe _ Hsafe).
    destruct (obj_keys (instances s)) as [|a ks] eqn:K; [reflexivity|].
    cbv zeta.
    destruct (Nat.leb (nextInstanceId s) (fold_left Nat.max ks a));
      [|reflexivity].
    apply JsFacts.toNumber_succ_safe.
    rewrite forallb_forall in Hsafe. apply Hsafe, fold_max_In. }
  assert (B : forall k, get k (instances s) <> None -> k < fixNextInstanceId s).
  { intros k H. rewrite F.
    destruct (get k (instances s)) as [v|] eqn:G; [|contradiction].
    apply (obj_get_In_keys _ _ Nat.eqb Nat.eqb_eq) in G.
    destruct (obj_keys (instances s)) as [|a ks]; [destruct G|].
    pose proof (fold_max_bound ks a k G) as M.
    destruct (Nat.leb (nextInstanceId s) (fold_left Nat.max ks a)) eqn:L;
      [lia|]. apply Nat.leb_gt in L. lia. }
  assert (H' : forall k,
             get k (map (fun e => (fst e,
                                   withDefaults innerWidth defaultSize (fst e)
                                     (snd e))) (instances s)) <> None <->
             get k (instances s) <> None).
  { intro k. rewrite get_withDefaults. now destruct (get k (instances s)). }
  split; [|split; [|split; [|split; [|split; [|split]]]]].
  - intros k H. unfold cleanInstanceOrder in H. apply filter_In in H.
    apply H'. destruct H as [_ H].
    now destruct (get k (instances s)).
  - intros k H. apply B. now apply H'.
  - intros env now ap d t. unfold createAppInstance.
    cbn [snd nextInstanceId].
    destruct (get (Js.toNumber (fixNextInstanceId s + 1)) _) eqn:G;
      [|reflexivity].
    assert (G' : get (Js.toNumber (fixNextInstanceId s + 1)) (instances s)
                 <> None) by (apply H'; congruence).
    destruct (Js.isSafeInteger (fixNextInstanceId s)) eqn:Safe.
    + rewrite (JsFacts.toNumber_succ_safe _ Safe) in G'.
      apply B in G'. lia.
    + apply S1 in G'.
      rewrite (JsFacts.toNumber_succ_unsafe _ Safe) in G'. discriminate.
  - rewrite F.
    destruct (obj_keys (instances s)) as [|a ks]; [lia|].
    destruct (Nat.leb (nextInstanceId s) (fold_left Nat.max ks a)) eqn:L;
      [|lia]. apply Nat.leb_le in L. lia.
  - unfold obj_keys. rewrite map_map. reflexivity.
  - reflexivity.
  - intro k. rewrite get_withDefaults.
    now destruct (get k (instances s)).
Qed.

Lemma rehydration_makes_ids_fresh_witness :
  forallb Js.isSafeInteger (obj_keys (instances staleState)) = true /\
  get (snd (createAppInstance desktopEnv 0 "finder" JsUndefined None
              staleState)) (instances staleState) <> None /\
  instanceOrder (onRehydrateStorage 1280 (fun _ => (640, 480)%Z) staleState)
    = [2; 5] /\
  nextInstanceId (onRehydrateStorage 1280 (fun _ => (640, 480)%Z) staleState)
    = 6 /\
  snd (createAppInstance desktopEnv 0 "finder" JsUndefined None
         (onRehydrateStorage 1280 (fun _ => (640, 480)%Z) staleState)) = 7 /\
  get 7 (instances
           (onRehydrateStorage 1280 (fun _ => (640, 480)%Z) staleState))
    = None.
Proof.
  split; [reflexivity|]. split; [discriminate|]. split; [reflexivity|].
  split; [reflexivity|]. split; [reflexivity|].
  exact (proj1 (proj2 (proj2
           (rehydration_makes_ids_fresh 1280 (fun _ => (640, 480)%Z)
              staleState eq_refl)))
           desktopEnv 0%Z "finder" JsUndefined None).
Defined.

End AppOrderFacts.

(** ** Aliases and moves *)

Module AliasMoveFacts.

Import FilesStore JsFacts FilesStoreFacts.

(** X26.  [createAlias] spares what is in use: the call ends, and
    every active item of the store is afterwards under its key exactly
    as it was; when ["/Desktop"] is missing or is not a directory the
    store does not change at all. *)
Theorem createAlias_spares_active (targetPath aliasName : string)
    (ty : AliasType) (targetAppId : option string) (now : Z)
    (s : FilesStoreState) :
  exists s',
    createAlias targetPath aliasName ty targetAppId now s = Some s' /\
    (forall k it, get k (items s) = Some it -> status it = active ->
                  get k (items s') = Some it) /\
    match get "/Desktop" (items s) with
    | Some desktop => if isDirectory desktop then True else s' = s
    | None => s' = s
    end.
Proof.
  destruct (createAlias_terminates targetPath aliasName ty targetAppId now s)
    as [s' E].
  exists s'. split; [exact E|].
  unfold createAlias in E.
  destruct (get "/Desktop" (items s)) as [desktop|] eqn:D.
  - destruct (isDirectory desktop) eqn:Dir.
    + split; [|exact I].
      rewrite (createAliasFuel_unfold _ _ _ _ _ _ _ desktop D Dir) in E.
      cbv zeta in E.
      destruct (uniqueAliasPath _ _ _ _ 1) as [final|] eqn:Uq; [|discriminate].
      injection E as <-. cbn [items].
      apply uniqueAliasPath_some in Uq. destruct Uq as [Free _].
      rewrite isActiveAtPath_reclaimed in Free.
      intros k it G A.
      assert (Ak : isActiveAtPath (items s) k = true)
        by (unfold isActiveAtPath; rewrite G;
            now apply status_eqb_eq).
      rewrite get_set_other; [|intros ->; congruence].
      match goal with |- get k (reclaimed _ ?ap) = _ =>
        destruct (String.eqb k ap) eqn:K end.
      * apply String.eqb_eq in K. subst k.
        now rewrite (get_reclaimed_active _ _ Ak).
      * apply String.eqb_neq in K. now rewrite get_reclaimed_other.
    + unfold createAliasFuel in E. rewrite D, Dir in E.
      injection E as <-. now split.
  - unfold createAliasFuel in E. rewrite D in E. injection E as <-.
    now split.
Qed.

Lemma createAlias_spares_active_witness :
  exists s',
    createAlias "/Documents/a.txt" "a.txt" aliasFile None 5 sampleStore
      = Some s' /\
    get "/Documents/a.txt" (items s') =
      Some (fileItem "/Documents/a.txt" "a.txt" "uuid-a").
Proof.
  destruct (createAlias_spares_active "/Documents/a.txt" "a.txt" aliasFile
              None 5 sampleStore) as [s' [E [H _]]].
  exists s'. split; [exact E|].
  exact (H "/Documents/a.txt" _ eq_refl eq_refl).
Defined.

Lemma withPath_back (src dst : string) (it : FileSystemItem) :
  path it = src -> withPath src (withPath dst it) = it.
Proof. intros <-. now destruct it. Qed.

(** X27.  Moving a file and moving it back changes nothing: when
    [moveItem(src, dst)] moves a file that sits under its own path, and
    the folder it came from is a directory of the store, then
    [moveItem(dst, src)] succeeds as well and every key holds again
    what it held at the start. *)
Theorem moveItem_there_and_back (src dst : string) (s : FilesStoreState)
    (it par : FileSystemItem)
    (Hsrc : get src (items s) = Some it)
    (Hpath : path it = src)
    (Hfile : isDirectory it = false)
    (Hmoves : moveRefused (items s) src dst = false)
    (Hpar : get (getParentPath src) (items s) = Some par)
    (Hdir : isDirectory par = true) :
  snd (moveItem src dst s) = true /\
  snd (moveItem dst src (fst (moveItem src dst s))) = true /\
  libraryState (fst (moveItem dst src (fst (moveItem src dst s)))) =
    libraryState s /\
  forall k,
    get k (items (fst (moveItem dst src (fst (moveItem src dst s))))) =
    get k (items s).
Proof.
  destruct (moveItem_moved _ _ _ Hmoves) as [it' [G [Gd E]]].
  rewrite Hsrc in G. injection G as <-. rewrite Hfile in E. rewrite E.
  cbn [fst snd]. split; [reflexivity|].
  set (s1 := mkStore (set dst (withPath dst it) (delete src (items s)))
               (libraryState s)).
  assert (N : src <> dst) by (intros ->; congruence).
  assert (Np : getParentPath src <> src) by (intro X; congruence).
  assert (Nd : getParentPath src <> dst) by (intro X; congruence).
  assert (R : moveRefused (items s1) dst src = false).
  { unfold moveRefused, s1. cbn [items].
    rewrite get_set_same. cbn [status withPath withFields].
    assert (A : status it = active).
    { unfold moveRefused in Hmoves. rewrite Hsrc in Hmoves.
      apply orb_false_iff in Hmoves. destruct Hmoves as [Hm _].
      apply orb_false_iff in Hm. destruct Hm as [Hm _].
      apply orb_false_iff in Hm. destruct Hm as [Hm _].
      apply negb_false_iff in Hm. now apply status_eqb_eq. }
    rewrite A. cbn [status_eqb negb orb].
    rewrite (get_set_other dst (getParentPath src)) by exact Nd.
    rewrite (get_delete_other src (getParentPath src)) by exact Np.
    rewrite Hpar, Hdir. cbn [negb orb].
    rewrite (get_set_other dst src) by exact N.
    rewrite get_delete_same. cbn [orb].
    change (isDirectory (withPath dst it)) with (isDirectory it).
    now rewrite Hfile. }
  destruct (moveItem_moved _ _ _ R) as [it1 [G1 [_ E1]]].
  unfold s1 in G1. cbn [items] in G1. rewrite get_set_same in G1.
  injection G1 as <-. cbn [isDirectory withPath withFields] in E1.
  rewrite Hfile in E1. rewrite E1. cbn [fst snd items libraryState].
  split; [reflexivity|]. split; [reflexivity|].
  intro k. rewrite (withPath_back src dst it Hpath).
  unfold s1. cbn [items].
  rewrite get_set, get_delete, get_set, get_delete.
  destruct (String.eqb k src) eqn:Ks.
  - apply String.eqb_eq in Ks. subst. now rewrite Hsrc.
  - destruct (String.eqb k dst) eqn:Kd; [|reflexivity].
    apply String.eqb_eq in Kd. subst. now rewrite Gd.
Qed.

Lemma moveItem_there_and_back_witness :
  get "/Documents/a.txt" (items sampleStore) =
    Some (fileItem "/Documents/a.txt" "a.txt" "uuid-a") /\
  moveRefused (items sampleStore) "/Documents/a.txt" "/Images/a.txt"
    = false /\
  get "/Images/a.txt"
    (items (fst (moveItem "/Images/a.txt" "/Documents/a.txt"
                   (fst (moveItem "/Documents/a.txt" "/Images/a.txt"
                           sampleStore))))) = None /\
  get "/Documents/a.txt"
    (items (fst (moveItem "/Images/a.txt" "/Documents/a.txt"
                   (fst (moveItem "/Documents/a.txt" "/Images/a.txt"
                           sampleStore))))) =
    Some (fileItem "/Documents/a.txt" "a.txt" "uuid-a").
Proof.
  split; [reflexivity|]. split; [reflexivity|].
  pose proof (moveItem_there_and_back "/Documents/a.txt" "/Images/a.txt"
                sampleStore (fileItem "/Documents/a.txt" "a.txt" "uuid-a")
                (dirItem "/Documents" "Documents") eq_refl eq_refl eq_refl
                eq_refl eq_refl eq_refl) as [_ [_ [_ H]]].
  split; [exact (H "/Images/a.txt")|exact (H "/Documents/a.txt")].
Defined.

End AliasMoveFacts.

(** ** The default shortcuts of the desktop *)

Module ShortcutFacts.

Import FilesStore JsFacts FilesStoreFacts.

Lemma shortcutCandidate_inj (appName : string) (n m : nat) :
  shortcutCandidate appName n = shortcutCandidate appName m -> n = m.
Proof.
  unfold shortcutCandidate. intro H.
  apply append_inv_head in H. apply append_inv_head in H.
  apply append_inv_head in H. apply toString_inj, H.
Qed.

Lemma uniqueShortcutPath_none (fuel : nat) (o : Items)
    (appName final : string) (counter : nat) :
  uniqueShortcutPath fuel o appName final counter = None ->
  forall i, i < fuel - 1 ->
            isActiveAtPath o (shortcutCandidate appName (counter + i)) = true.
Proof.
  revert final counter.
  induction fuel as [|fuel IH]; intros final counter H i Hi.
  - simpl in Hi. lia.
  - simpl in H. destruct (isActiveAtPath o final); [|discriminate].
    destruct fuel as [|fuel']; [simpl in Hi; lia|].
    destruct i as [|j].
    + rewrite Nat.add_0_r. simpl in H.
      destruct (isActiveAtPath o (shortcutCandidate appName counter));
        [reflexivity|discriminate].
    + replace (counter + S j) with (S counter + j) by lia.
      apply (IH _ _ H). simpl in *. lia.
Qed.

Lemma shortcut_candidates_bounded (o : Items) (appName : string)
    (counter n : nat) :
  (forall i, i < n ->
             isActiveAtPath o (shortcutCandidate appName (counter + i))
             = true) ->
  n <= List.length o.
Proof.
  intro H.
  pose (l := map (fun i => shortcutCandidate appName (counter + i))
               (seq 0 n)).
  assert (L : List.length l = n)
    by (unfold l; rewrite length_map, length_seq; reflexivity).
  rewrite <- L.
  replace (List.length o) with (List.length (obj_keys o))
    by (unfold obj_keys; apply length_map).
  apply NoDup_incl_length.
  - unfold l. apply NoDup_map_injective; [|apply seq_NoDup].
    intros a b E. apply shortcutCandidate_inj in E. lia.
  - intros p Hp. unfold l in Hp. apply in_map_iff in Hp.
    destruct Hp as [i [<- Hi]]. apply in_seq in Hi.
    apply isActiveAtPath_key, H. lia.
Qed.

Lemma uniqueShortcutPath_some (fuel : nat) (o : Items)
    (appName final : string) (counter : nat) (p : string) :
  uniqueShortcutPath fuel o appName final counter = Some p ->
  Js.startsWith final "/Desktop/" = true ->
  isActiveAtPath o p = false /\ Js.startsWith p "/Desktop/" = true.
Proof.
  revert final counter.
  induction fuel as [|fuel IH]; intros final counter H S; [discriminate|].
  simpl in H. destruct (isActiveAtPath o final) eqn:A.
  - apply IH in H; [exact H|]. unfold shortcutCandidate.
    apply startsWith_append.
  - injection H as <-. now split.
Qed.

Lemma uniqueShortcutPath_terminates (fuel : nat) (o : Items)
    (appName final : string) (counter : nat) :
  List.length o + 2 <= fuel ->
  exists p, uniqueShortcutPath fuel o appName final counter = Some p.
Proof.
  intro Hf.
  destruct (uniqueShortcutPath fuel o appName final counter) as [p|] eqn:U;
    [eauto|].
  exfalso.
  pose proof (shortcut_candidates_bounded o appName counter (fuel - 1)
                (uniqueShortcutPath_none _ _ _ _ _ U)).
  lia.
Qed.

Lemma length_set_le (k : string) (v : FileSystemItem) (o : Items) :
  List.length (set k v o) <= S (List.length o).
Proof.
  unfold set, obj_set. destruct (obj_get String.eqb k o).
  - induction o as [|[k' v'] r IH]; simpl; [lia|].
    destruct (String.eqb k k'); simpl; lia.
  - induction o as [|[k' v'] r IH]; simpl; lia.
Qed.

Lemma addShortcut_step (fuel : nat) (now : Z) (o : Items)
    (app : string * string) :
  List.length o + 2 <= fuel ->
  exists final,
    addShortcut fuel now (Some o) app =
      Some (set final (shortcutItemOf (fst app) (snd app) final now) o) /\
    isActiveAtPath o final = false /\
    Js.startsWith final "/Desktop/" = true.
Proof.
  intro Hf. unfold addShortcut.
  destruct (uniqueShortcutPath_terminates fuel o (snd app)
              ("/Desktop/" ++ snd app) 1 Hf) as [final U].
  rewrite U. exists final. split; [reflexivity|].
  apply (uniqueShortcutPath_some _ _ _ _ _ _ U), startsWith_append.
Qed.

Lemma addShortcut_fold (fuel : nat) (now : Z) (l : list (string * string)) :
  forall o : Items,
    List.length o + List.length l + 2 <= fuel ->
    exists o',
      fold_left (addShortcut fuel now) l (Some o) = Some o' /\
      (forall k it, get k o = Some it -> status it = active ->
                    get k o' = Some it) /\
      (forall k it',
         get k o' = Some it' ->
         get k o = Some it' \/
         exists app, In app l /\
                     it' = shortcutItemOf (fst app) (snd app) k now /\
                     isActiveAtPath o k = false) /\
      (forall app,
         In app l ->
         exists k, get k o' =
                     Some (shortcutItemOf (fst app) (snd app) k now) /\
                   Js.startsWith k "/Desktop/" = true).
Proof.
  induction l as [|app r IH]; intros o Hf.
  - exists o. split; [reflexivity|]. split; [auto|]. split; [auto|].
    intros app [].
  - cbn [fold_left]. simpl List.length in Hf.
    destruct (addShortcut_step fuel now o app ltac:(lia))
      as [final [E [Free Sd]]].
    rewrite E.
    set (o1 := set final (shortcutItemOf (fst app) (snd app) final now) o).
    assert (L1 : List.length o1 + List.length r + 2 <= fuel).
    { pose proof (length_set_le final
                    (shortcutItemOf (fst app) (snd app) final now) o).
      fold o1 in H. lia. }
    destruct (IH o1 L1) as [o' [F [Sp [En Ea]]]].
    assert (K1 : forall k it, get k o = Some it -> status it = active ->
                              get k o1 = Some it).
    { intros k it G A. unfold o1. rewrite get_set_other; [exact G|].
      intros ->. unfold isActiveAtPath in Free. rewrite G, A in Free.
      discriminate. }
    exists o'. split; [exact F|]. split; [|split].
    + intros k it G A. apply Sp; [|exact A]. now apply K1.
    + intros k it' G. destruct (En k it' G) as [G1|[a [Ha [Ei Fa]]]].
      * unfold o1 in G1. rewrite get_set in G1.
        destruct (String.eqb k final) eqn:Kf.
        -- apply String.eqb_eq in Kf. subst k. injection G1 as <-.
           right. exists app. split; [now left|]. now split.
        -- now left.
      * right. exists a. split; [now right|]. split; [exact Ei|].
        unfold isActiveAtPath in *.
        destruct (get k o) as [c|] eqn:Gk; [|reflexivity].
        destruct (status_eqb (status c) active) eqn:A; [|reflexivity].
        apply status_eqb_eq in A. rewrite (K1 k c Gk A) in Fa.
        apply status_eqb_eq in A. congruence.
    + intros a [<-|Ha].
      * exists final. split; [|exact Sd]. apply Sp; [|reflexivity].
        unfold o1. apply get_set_same.
      * now apply Ea.
Qed.

Lemma ensure_shortcuts_adds (apps : list (string * string)) (now : Z)
    (s : FilesStoreState) :
  exists s',
    ensureDefaultDesktopShortcuts apps now s = Some s' /\
    libraryState s' = libraryState s /\
    (forall k it, get k (items s) = Some it -> status it = active ->
                  get k (items s') = Some it) /\
    (forall k it',
       get k (items s') = Some it' ->
       get k (items s) = Some it' \/
       exists app, In app (shortcutsToCreate s apps) /\
                   it' = shortcutItemOf (fst app) (snd app) k now /\
                   isActiveAtPath (items s) k = false) /\
    match get "/Desktop" (items s) with
    | Some desktop =>
        if isDirectory desktop
        then forall app,
               In app (shortcutsToCreate s apps) ->
               exists k,
                 get k (items s') =
                   Some (shortcutItemOf (fst app) (snd app) k now) /\
                 Js.startsWith k "/Desktop/" = true
        else s' = s
    | None => s' = s
    end.
Proof.
  unfold ensureDefaultDesktopShortcuts, ensureDefaultDesktopShortcutsFuel.
  destruct (get "/Desktop" (items s)) as [desktop|] eqn:D;
    [|exists s; repeat split; auto].
  destruct (isDirectory desktop) eqn:Dir; cbn [negb];
    [|exists s; repeat split; auto].
  destruct (shortcutsToCreate s apps) as [|a r] eqn:Sq.
  { exists s. repeat split; auto. intros app []. }
  assert (Hf : List.length (items s) + List.length (a :: r) + 2 <=
               List.length (items s) + List.length apps + 2).
  { rewrite <- Sq. unfold shortcutsToCreate.
    pose proof (filter_length_le
                  (fun app => negb (hasActiveShortcut s (fst app)) &&
                              negb (hasTrashedShortcut s (fst app)))
                  (filter (fun app =>
                             negb (String.eqb (fst app) "finder") &&
                             negb (String.eqb (fst app) "control-panels"))
                     apps)).
    pose proof (filter_length_le
                  (fun app : string * string =>
                     negb (String.eqb (fst app) "finder") &&
                     negb (String.eqb (fst app) "control-panels"))
                  apps).
    lia. }
  destruct (addShortcut_fold _ now (a :: r) (items s) Hf)
    as [o' [F [Sp [En Ea]]]].
  rewrite F. cbn [option_map].
  exists (mkStore o' (libraryState s)). cbn [items libraryState].
  now repeat split.
Qed.

(** X28.  [ensureDefaultDesktopShortcuts()] always comes to an end
    and only adds shortcuts: every active item of the store is
    afterwards under its key as it was; whatever else a key holds
    afterwards is the shortcut of a queued application, written where
    no active item was; every queued application has its shortcut under
    a path that starts with ["/Desktop/"]; and an application is queued
    only if it is neither the file manager nor the control panels and
    had no active shortcut on the desktop and no trashed one that came
    from the desktop.  Without a directory ["/Desktop"] nothing
    changes. *)
Theorem ensureDefaultDesktopShortcuts_contract
    (apps : list (string * string)) (now : Z) (s : FilesStoreState) :
  exists s',
    ensureDefaultDesktopShortcuts apps now s = Some s' /\
    libraryState s' = libraryState s /\
    (forall k it, get k (items s) = Some it -> status it = active ->
                  get k (items s') = Some it) /\
    (forall k it',
       get k (items s') = Some it' ->
       get k (items s) = Some it' \/
       exists app, In app (shortcutsToCreate s apps) /\
                   it' = shortcutItemOf (fst app) (snd app) k now /\
                   isActiveAtPath (items s) k = false) /\
    (forall app,
       In app (shortcutsToCreate s apps) ->
       In app apps /\ fst app <> "finder" /\ fst app <> "control-panels" /\
       hasActiveShortcut s (fst app) = false /\
       hasTrashedShortcut s (fst app) = false /\
       match get "/Desktop" (items s) with
       | Some desktop =>
           if isDirectory desktop
           then exists k,
                  get k (items s') =
                    Some (shortcutItemOf (fst app) (snd app) k now) /\
                  Js.startsWith k "/Desktop/" = true
           else s' = s
       | None => s' = s
       end).
Proof.
  destruct (ensure_shortcuts_adds apps now s) as [s' [E [L [Sp [En D]]]]].
  exists s'. split; [exact E|]. split; [exact L|]. split; [exact Sp|].
  split; [exact En|].
  intros app H. pose proof H as H'. unfold shortcutsToCreate in H'.
  apply filter_In in H'. destruct H' as [H' B].
  apply filter_In in H'. destruct H' as [H' A].
  apply andb_true_iff in A, B. destruct A as [A1 A2], B as [B1 B2].
  apply negb_true_iff in A1, A2, B1, B2.
  apply String.eqb_neq in A1, A2.
  repeat (split; [assumption|]).
  destruct (get "/Desktop" (items s)) as [desktop|]; [|exact D].
  destruct (isDirectory desktop); [now apply D|exact D].
Qed.

Lemma ensureDefaultDesktopShortcuts_contract_witness :
  exists s1 s2,
    ensureDefaultDesktopShortcuts sampleApps 9 sampleStore = Some s1 /\
    obj_keys (items s1) =
      (obj_keys (items sampleStore) ++
         ["/Desktop/TextEdit"; "/Desktop/Paint"])%list /\
    ensureDefaultDesktopShortcuts sampleApps 10
      (fst (removeItem "/Desktop/Paint" false noon s1)) = Some s2 /\
    obj_keys (items s2) = obj_keys (items s1) /\
    get "/Documents/a.txt" (items s1) =
      Some (fileItem "/Documents/a.txt" "a.txt" "uuid-a").
Proof.
  destruct (ensureDefaultDesktopShortcuts_contract sampleApps 9 sampleStore)
    as [s1 [E1 [_ [Sp _]]]].
  exists s1.
  assert (K : s1 = mkStore (items s1) (libraryState s1)) by now destruct s1.
  vm_compute in E1. injection E1 as E1. rewrite <- E1.
  eexists. split; [reflexivity|]. split; [reflexivity|].
  split; [vm_compute; reflexivity|]. split; [reflexivity|reflexivity].
Defined.

End ShortcutFacts.

(** ** The library at start-up *)

Module LibraryFacts.

Import FilesStore JsFacts FilesStoreFacts SyncFacts ShortcutFacts.

Lemma addDirectories_spec (now : Z) (dirs : list ItemData) (k : string) :
  forall o,
    (get k (addDirectories now dirs o) = get k o /\
     forall d, In d dirs -> d_path d <> k) \/
    (exists d, In d dirs /\ d_path d = k /\
               get k (addDirectories now dirs o) = Some (defaultItemOf now d)).
Proof.
  unfold addDirectories.
  induction dirs as [|d r IH]; intro o; simpl fold_left.
  - left. split; [reflexivity|]. intros d [].
  - destruct (IH (set (d_path d) (defaultItemOf now d) o))
      as [[G N]|[d' [Hd [P G]]]].
    + rewrite get_set in G. destruct (String.eqb k (d_path d)) eqn:E.
      * apply String.eqb_eq in E. right. exists d.
        split; [now left|]. split; [now symmetry|exact G].
      * apply String.eqb_neq in E. left. split; [exact G|].
        intros d' [<-|H]; [congruence|now apply N].
    + right. exists d'. split; [now right|]. now split.
Qed.

Lemma addFiles_spec (now : Z) (fresh : nat -> string)
    (files : list ItemData) (k : string) :
  forall o n,
    (get k (fst (addFiles now fresh files (o, n))) = get k o /\
     forall f, In f files -> d_path f <> k) \/
    (exists f i, In f files /\ d_path f = k /\
                 n <= i < n + List.length files /\
                 get k (fst (addFiles now fresh files (o, n))) =
                   Some (defaultFileOf now (fresh i) f)).
Proof.
  unfold addFiles.
  induction files as [|f r IH]; intros o n; simpl fold_left.
  - left. split; [reflexivity|]. intros f [].
  - cbn [fst snd].
    destruct (IH (set (d_path f) (defaultFileOf now (fresh n) f) o) (S n))
      as [[G N]|[f' [i [Hf [P [B G]]]]]].
    + rewrite get_set in G. destruct (String.eqb k (d_path f)) eqn:E.
      * apply String.eqb_eq in E. right. exists f, n.
        split; [now left|]. split; [now symmetry|].
        split; [simpl; lia|exact G].
      * apply String.eqb_neq in E. left. split; [exact G|].
        intros f' [<-|H]; [congruence|now apply N].
    + right. exists f', i. split; [now right|]. split; [exact P|].
      split; [simpl; lia|exact G].
Qed.

Lemma addFiles_app (now : Z) (fresh : nat -> string)
    (files applets : list ItemData) (acc : Items * nat) :
  addFiles now fresh applets (addFiles now fresh files acc) =
  addFiles now fresh (files ++ applets) acc.
Proof. unfold addFiles. now rewrite fold_left_app. Qed.

Lemma defaults_table (now : Z) (fresh : nat -> string)
    (dirs files : list ItemData) :
  let T := fst (addFiles now fresh files (addDirectories now dirs [], 0)) in
  (forall d, In d (dirs ++ files) ->
             exists it, get (d_path d) T = Some it /\ status it = active /\
                        path it = d_path d) /\
  (forall f, In f files ->
             exists it i, get (d_path f) T = Some it /\
                          uuid it = Some (fresh i) /\
                          i < List.length files) /\
  (forall k it, get k T = Some it ->
                status it = active /\
                exists d, In d (dirs ++ files) /\ d_path d = k).
Proof.
  cbv zeta.
  assert (F : forall k,
             (get k (fst (addFiles now fresh files
                            (addDirectories now dirs [], 0))) = None /\
              forall d, In d (dirs ++ files) -> d_path d <> k) \/
             (exists d, In d dirs /\ d_path d = k /\
                get k (fst (addFiles now fresh files
                              (addDirectories now dirs [], 0))) =
                  Some (defaultItemOf now d) /\
                forall f, In f files -> d_path f <> k) \/
             (exists f i, In f files /\ d_path f = k /\
                i < List.length files /\
                get k (fst (addFiles now fresh files
                              (addDirectories now dirs [], 0))) =
                  Some (defaultFileOf now (fresh i) f))).
  { intro k.
    destruct (addFiles_spec now fresh files k (addDirectories now dirs []) 0)
      as [[G N]|[f [i [Hf [P [B G]]]]]].
    - destruct (addDirectories_spec now dirs k []) as [[Gd Nd]|[d [Hd [P Gd]]]].
      + left. split; [now rewrite G, Gd|].
        intros d H. apply in_app_or in H. destruct H; auto.
      + right. left. exists d. repeat split; try assumption.
        now rewrite G.
    - right. right. exists f, i. repeat split; try assumption. lia. }
  split; [|split].
  - intros d H. destruct (F (d_path d)) as [[_ N]|[X|X]].
    + now elim (N d H).
    + destruct X as [d' [_ [P [G _]]]]. eexists. split; [exact G|].
      split; [reflexivity|exact P].
    + destruct X as [f [i [_ [P [_ G]]]]]. eexists. split; [exact G|].
      split; [reflexivity|exact P].
  - intros f H. destruct (F (d_path f)) as [[_ N]|[X|X]].
    + elim (N f); [apply in_or_app; now right|reflexivity].
    + destruct X as [d' [_ [_ [_ N]]]]. now elim (N f H).
    + destruct X as [f' [i [_ [_ [B G]]]]].
      exists (defaultFileOf now (fresh i) f'), i.
      split; [exact G|]. split; [reflexivity|exact B].
  - intros k it G. destruct (F k) as [[G' _]|[X|X]].
    + congruence.
    + destruct X as [d [Hd [P [G' _]]]]. rewrite G' in G.
      injection G as <-. split; [reflexivity|]. exists d.
      split; [apply in_or_app; now left|exact P].
    + destruct X as [f [i [Hf [P [_ G']]]]]. rewrite G' in G.
      injection G as <-. split; [reflexivity|]. exists f.
      split; [apply in_or_app; now right|exact P].
Qed.

(** X29.  The library is set up once.  [initializeLibrary()] leaves a
    library that is not uninitialized as it is.  On an uninitialized one
    it ends with [libraryState = "loaded"] and a table built from the
    defaults alone: every default directory, file and applet has an
    active item under its path, the item at the path of a file or applet
    carries one of the fresh identifiers, and every key of the table is
    the path of a default or holds the shortcut of an application.
    [resetLibrary()] builds the same table from the directories and the
    files, whatever the store held. *)
Theorem initializeLibrary_contract (dirs files applets : list ItemData)
    (apps : list (string * string)) (fresh : nat -> string)
    (now shortcutNow : Z) (s : FilesStoreState) :
  match libraryState s with
  | uninitialized =>
      exists s',
        initializeLibrary dirs files applets apps fresh now shortcutNow s =
          Some s' /\
        libraryState s' = loaded /\
        (forall d, In d (dirs ++ files ++ applets) ->
                   exists it, get (d_path d) (items s') = Some it /\
                              status it = active /\ path it = d_path d) /\
        (forall f, In f (files ++ applets) ->
                   exists it i, get (d_path f) (items s') = Some it /\
                                uuid it = Some (fresh i) /\
                                i < List.length files + List.length applets)
        /\
        (forall k it,
           get k (items s') = Some it ->
           (exists d, In d (dirs ++ files ++ applets) /\ d_path d = k) \/
           (exists app, In app apps /\
                        it = shortcutItemOf (fst app) (snd app) k shortcutNow))
  | _ =>
      initializeLibrary dirs files applets apps fresh now shortcutNow s =
        Some s
  end /\
  libraryState (resetLibrary dirs files fresh now) = loaded /\
  (forall d, In d (dirs ++ files) ->
             exists it, get (d_path d) (items (resetLibrary dirs files fresh now))
                          = Some it /\
                        status it = active /\ path it = d_path d) /\
  (forall k it,
     get k (items (resetLibrary dirs files fresh now)) = Some it ->
     status it = active /\ exists d, In d (dirs ++ files) /\ d_path d = k).
Proof.
  split.
  - unfold initializeLibrary.
    destruct (libraryState s); [|reflexivity|reflexivity].
    rewrite addFiles_app.
    destruct (defaults_table now fresh dirs (files ++ applets))
      as [T1 [T2 T3]]. cbv zeta in T1, T2, T3.
    set (T := fst (addFiles now fresh (files ++ applets)
                     (addDirectories now dirs [], 0))) in *.
    destruct (ensure_shortcuts_adds apps shortcutNow (mkStore T loaded))
      as [s' [E [L [Sp [En _]]]]].
    cbn [items libraryState] in L, Sp, En.
    exists s'. split; [exact E|]. split; [exact L|]. split; [|split].
    + intros d H. destruct (T1 d H) as [it [G [A P]]].
      exists it. split; [now apply Sp|now split].
    + intros f H. destruct (T2 f H) as [it [i [G [U B]]]].
      destruct (T3 _ _ G) as [A _].
      exists it, i. split; [now apply Sp|]. split; [exact U|].
      now rewrite length_app in B.
    + intros k it G. destruct (En k it G) as [G'|[app [Ha [Ei _]]]].
      * left. now apply (T3 k it).
      * right. exists app. split; [|exact Ei].
        unfold shortcutsToCreate in Ha.
        apply filter_In in Ha. destruct Ha as [Ha _].
        apply filter_In in Ha. tauto.
  - destruct (defaults_table now fresh dirs files) as [T1 [_ T3]].
    unfold resetLibrary. cbn [items libraryState].
    split; [reflexivity|]. split; [exact T1|exact T3].
Qed.

Lemma initializeLibrary_contract_witness :
  let dirs := [defaultDir "/" ""; defaultDir "/Documents" "Documents";
               defaultDir "/Desktop" "Desktop"] in
  let files := [defaultFile "/Documents/README.md" "README.md"] in
  (exists s',
     initializeLibrary dirs files [] sampleApps numbered 7 8
       (mkStore [] uninitialized) = Some s' /\
     obj_keys (items s') =
       ["/"; "/Documents"; "/Desktop"; "/Documents/README.md";
        "/Desktop/TextEdit"; "/Desktop/Paint"] /\
     option_map uuid (get "/Documents/README.md" (items s')) =
       Some (Some "uuid-0")) /\
  initializeLibrary dirs files [] sampleApps numbered 7 8 sampleStore =
    Some sampleStore.
Proof.
  cbv zeta. split.
  - eexists. split; [vm_compute; reflexivity|]. split; reflexivity.
  - exact (proj1 (initializeLibrary_contract
                    [defaultDir "/" ""; defaultDir "/Documents" "Documents";
                     defaultDir "/Desktop" "Desktop"]
                    [defaultFile "/Documents/README.md" "README.md"] []
                    sampleApps numbered 7 8 sampleStore)).
Defined.

(** X30.  What is started when the stored library comes back keeps
    what the user has.  For a library that is not uninitialized the
    root directories are synchronized and the desktop shortcuts
    ensured: this ends, leaves [libraryState] alone, and every active
    item is afterwards still under its key, active, with its [path],
    [uuid], [createdAt] and [size], and is unchanged unless it has been
    aligned as a directory; an active item whose key is not the path of
    a root-level default is unchanged.  An uninitialized library is
    handed to [initializeLibrary]. *)
Theorem rehydration_keeps_user_items (dirs files applets : list ItemData)
    (apps : list (string * string)) (fresh : nat -> string)
    (now syncNow shortcutNow : Z) (s : FilesStoreState) :
  if match libraryState s with uninitialized => true | _ => false end
  then
    onRehydrateStorage dirs files applets apps fresh now syncNow shortcutNow s
    = initializeLibrary dirs files applets apps fresh now shortcutNow s
  else
    exists s',
      onRehydrateStorage dirs files applets apps fresh now syncNow
        shortcutNow s = Some s' /\
      libraryState s' = libraryState s /\
      (forall k e,
         get k (items s) = Some e -> status e = active ->
         exists it,
           get k (items s') = Some it /\
           path it = path e /\ uuid it = uuid e /\
           createdAt it = createdAt e /\ size it = size e /\
           status it = active /\ (it = e \/ isDirectory it = true)) /\
      (forall k e,
         get k (items s) = Some e -> status e = active ->
         (forall dir, In dir dirs -> isRootLevel dir = true ->
                      d_path dir <> k) ->
         get k (items s') = Some e).
Proof.
  unfold onRehydrateStorage.
  assert (R : exists s',
             ensureDefaultDesktopShortcuts apps shortcutNow
               (syncRootDirectoriesFromDefaults dirs syncNow s) = Some s' /\
             libraryState s' = libraryState s /\
             (forall k e,
                get k (items s) = Some e -> status e = active ->
                exists it,
                  get k (items s') = Some it /\
                  path it = path e /\ uuid it = uuid e /\
                  createdAt it = createdAt e /\ size it = size e /\
                  status it = active /\ (it = e \/ isDirectory it = true)) /\
             (forall k e,
                get k (items s) = Some e -> status e = active ->
                (forall dir, In dir dirs -> isRootLevel dir = true ->
                             d_path dir <> k) ->
                get k (items s') = Some e)).
  { destruct (ensure_shortcuts_adds apps shortcutNow
                (syncRootDirectoriesFromDefaults dirs syncNow s))
      as [s' [E [L [Sp _]]]].
    unfold syncRootDirectoriesFromDefaults in L, Sp.
    cbn [items libraryState] in L, Sp.
    exists s'. split; [exact E|]. split; [exact L|]. split.
    - intros k e G A.
      destruct (sync_fold_keeps syncNow (filter isRootLevel dirs) k
                  (items s) e G) as [it [G' [P [U [C [Sz D]]]]]].
      assert (Ai : status it = active)
        by (destruct D as [->|[Ai _]]; assumption).
      exists it. split; [now apply Sp|].
      repeat (split; [assumption|]).
      destruct D as [D|[_ D]]; [now left|now right].
    - intros k e G A N. apply Sp; [|exact A].
      rewrite sync_fold_frame; [exact G|].
      intros dir Hd. apply filter_In in Hd. now apply N. }
  destruct (libraryState s); [reflexivity|exact R|exact R].
Qed.

Lemma rehydration_keeps_user_items_witness :
  let dirs := [defaultDir "/" ""; defaultDir "/Documents" "Documents";
               defaultDir "/Music" "Music"] in
  exists s',
    onRehydrateStorage dirs [] [] sampleApps numbered 7 8 9 sampleStore =
      Some s' /\
    get "/Documents/a.txt" (items s') =
      Some (fileItem "/Documents/a.txt" "a.txt" "uuid-a") /\
    option_map status (get "/Music" (items s')) = Some active.
Proof.
  cbv zeta.
  destruct (rehydration_keeps_user_items
              [defaultDir "/" ""; defaultDir "/Documents" "Documents";
               defaultDir "/Music" "Music"] [] [] sampleApps numbered 7 8 9
              sampleStore) as [s' [E [_ [_ F]]]].
  exists s'. split; [exact E|]. split.
  - apply (F "/Documents/a.txt" _ eq_refl eq_refl).
    intros dir [<-|[<-|[<-|[]]]] _; discriminate.
  - vm_compute in E. injection E as <-. reflexivity.
Defined.

End LibraryFacts.
